(** * CineBot: intent classification, entity extraction and chat dispatch

    A shallow embedding of [backend/intent_classifier.py],
    [backend/response_generator.py] and the chat endpoint of
    [backend/main.py], with the properties of the specification stated
    and settled on it.

    Conventions of the embedding.
    - Python [str] is [string]; message text is read as ASCII (one
      [ascii] per character), and the character classes of the [str]
      methods and of [re] are those of the ASCII range: on text outside
      it Python's Unicode-aware classes can differ. The fixed reply
      templates hold emoji: their bytes are UTF-8, and [py_len]/[py_take]
      count code points the way Python's [len] and slicing do.
    - The standard module [re] is embedded as a backtracking matcher over
      the syntax tree of a pattern ([run]); patterns are kept as the
      source writes them and compiled by [compile].
    - A [dict] whose insertion order is observed (the score table, on
      which [max] breaks ties) is an association list; the other dicts
      are [gmap]s.
    - Calls to the movie catalog and [random.choice] are the events of a
      small inductive program type ([prog]); Python exceptions are its
      [Raise] leaves.
    - A chat turn is embedded from its start to its end on the store it
      finds: what is stated of a turn is stated of one call, with no
      other request served while it waits for the catalog.
    - Wall-clock values (time stamps, [processing_time]) are left out of
      the records; [confidence] is an exact rational; a rating is a
      [number], an [int] or the [float] nearest to its decimal. *)

From Stdlib Require Import String Ascii List ZArith QArith Lia Bool DecimalString.
From stdpp Require Import gmap strings.
Import ListNotations.

(* ================================================================== *)
(** * Python text primitives *)
(* ================================================================== *)

Definition code (c : ascii) : nat := nat_of_ascii c.

Definition between (lo hi n : nat) : bool := (lo <=? n) && (n <=? hi).

(** [str.isspace] on the ASCII range: TAB..CR, FS..US and the blank. *)
Definition is_space (c : ascii) : bool :=
  between 9 13 (code c) || between 28 32 (code c).

Definition is_upper (c : ascii) : bool := between 65 90 (code c).
Definition is_lower (c : ascii) : bool := between 97 122 (code c).
Definition is_digit (c : ascii) : bool := between 48 57 (code c).

(** The class [\w]. *)
Definition is_word (c : ascii) : bool :=
  is_upper c || is_lower c || is_digit c || (code c =? 95).

Definition lower_char (c : ascii) : ascii :=
  if is_upper c then ascii_of_nat (code c + 32) else c.

Definition upper_char (c : ascii) : ascii :=
  if is_lower c then ascii_of_nat (code c - 32) else c.

Definition chars (s : string) : list ascii := list_ascii_of_string s.
Definition text_of (l : list ascii) : string := string_of_list_ascii l.

(** [str.lower] *)
Definition lower (s : string) : string := text_of (map lower_char (chars s)).

Fixpoint lstrip_chars (l : list ascii) : list ascii :=
  match l with
  | c :: l' => if is_space c then lstrip_chars l' else l
  | [] => []
  end.

(** [str.strip] *)
Definition strip_chars (l : list ascii) : list ascii :=
  rev (lstrip_chars (rev (lstrip_chars l))).

Definition strip (s : string) : string := text_of (strip_chars (chars s)).

(** [str.split()] with no argument: the maximal runs of non-blank
    characters. [cur] is the run being read, in reverse. *)
Fixpoint split_chars (cur l : list ascii) : list (list ascii) :=
  match l with
  | [] => match cur with [] => [] | _ => [rev cur] end
  | c :: l' =>
      if is_space c
      then match cur with
           | [] => split_chars [] l'
           | _ => rev cur :: split_chars [] l'
           end
      else split_chars (c :: cur) l'
  end.

Definition split (s : string) : list string :=
  map text_of (split_chars [] (chars s)).

Fixpoint starts_with (p l : list ascii) : bool :=
  match p, l with
  | [], _ => true
  | a :: p', b :: l' => Ascii.eqb a b && starts_with p' l'
  | _ :: _, [] => false
  end.

Fixpoint contains_chars (p l : list ascii) : bool :=
  starts_with p l ||
  match l with
  | [] => false
  | _ :: l' => contains_chars p l'
  end.

(** [needle in hay] on strings. *)
Definition py_in (needle hay : string) : bool :=
  contains_chars (chars needle) (chars hay).

(** [sep.join(l)] *)
Definition join (sep : string) (l : list string) : string := String.concat sep l.

(** Truth value of a [str]. *)
Definition truthy (s : string) : bool :=
  match s with EmptyString => false | _ => true end.

(** [int(s)] on a string of decimal digits. *)
Definition py_int (s : string) : Z :=
  fold_left (fun acc c => (10 * acc + Z.of_nat (code c - 48))%Z) (chars s) 0%Z.

(** [str(n)] for integers. *)
Definition str_of_nat (n : nat) : string := NilZero.string_of_uint (Nat.to_uint n).
Definition str_of_Z (z : Z) : string := NilZero.string_of_int (Z.to_int z).

(** A byte that continues a UTF-8 code point. *)
Definition is_cont (c : ascii) : bool := between 128 191 (code c).

(** [len(s)]: the number of code points. *)
Fixpoint py_len (s : string) : nat :=
  match s with
  | EmptyString => 0
  | String c s' => if is_cont c then py_len s' else S (py_len s')
  end.

(** [s[:n]]: the first [n] code points. *)
Fixpoint py_take (n : nat) (s : string) : string :=
  match s with
  | EmptyString => EmptyString
  | String c s' =>
      if is_cont c then String c (py_take n s')
      else match n with
           | 0 => EmptyString
           | S n' => String c (py_take n' s')
           end
  end.

(** The double quote, which the patterns and some messages hold. *)
Definition dq : string := String (ascii_of_nat 34) EmptyString.

(* ================================================================== *)
(** * The module [re]: pattern syntax *)
(* ================================================================== *)

(** An item of a bracketed class, or what an escape such as [\d] denotes. *)
Inductive citem : Type :=
| IChar (c : ascii)
| IRange (lo hi : ascii)
| IDigit
| IWord
| ISpace.

Inductive regex : Type :=
| Eps
| Any                                   (* .  *)
| Chr (c : ascii)                       (* a literal *)
| Cls (neg : bool) (items : list citem) (* [...]  [^...]  \d \w \s *)
| Seq (a b : regex)
| Alt (a b : regex)                     (* a|b, a tried first *)
| Star (greedy : bool) (a : regex)      (* a*  a*? *)
| Group (n : nat) (a : regex)           (* the n-th capturing group *)
| Bol                                   (* ^ *)
| Eol                                   (* $ *)
| WordB.                                (* \b *)

(** [a+], [a?] and [a{n,m}] are written with the constructors above, the
    greedy alternative first. *)
Definition plus (greedy : bool) (a : regex) : regex := Seq a (Star greedy a).
Definition opt (greedy : bool) (a : regex) : regex :=
  if greedy then Alt a Eps else Alt Eps a.

Fixpoint upto (greedy : bool) (k : nat) (a : regex) : regex :=
  match k with
  | 0 => Eps
  | S k' => opt greedy (Seq a (upto greedy k' a))
  end.

Fixpoint times (n : nat) (a rest : regex) : regex :=
  match n with
  | 0 => rest
  | S n' => Seq a (times n' a rest)
  end.

Definition repeat_range (greedy : bool) (lo hi : nat) (a : regex) : regex :=
  times lo a (upto greedy (hi - lo) a).

(* ------------------------------------------------------------------ *)
(** ** Reading a pattern *)

Definition pstate : Type := (list ascii * nat)%type.  (* input left, next group *)

Fixpoint read_digits (acc : nat) (s : list ascii) : nat * list ascii :=
  match s with
  | c :: s' => if is_digit c then read_digits (10 * acc + (code c - 48)) s' else (acc, s)
  | [] => (acc, s)
  end.

(** A quantifier after the atom [a], if one stands there. *)
Definition read_quant (a : regex) (s : list ascii) : option (regex * list ascii) :=
  let lazy_mark s' :=
    match s' with
    | "?"%char :: s'' => (false, s'')
    | _ => (true, s')
    end in
  match s with
  | "*"%char :: s' => let '(g, r) := lazy_mark s' in Some (Star g a, r)
  | "+"%char :: s' => let '(g, r) := lazy_mark s' in Some (plus g a, r)
  | "?"%char :: s' => let '(g, r) := lazy_mark s' in Some (opt g a, r)
  | "{"%char :: s' =>
      let '(lo, s1) := read_digits 0 s' in
      match s1 with
      | "}"%char :: s2 => let '(g, r) := lazy_mark s2 in Some (repeat_range g lo lo a, r)
      | ","%char :: s2 =>
          let '(hi, s3) := read_digits 0 s2 in
          match s3 with
          | "}"%char :: s4 => let '(g, r) := lazy_mark s4 in Some (repeat_range g lo hi a, r)
          | _ => None
          end
      | _ => None
      end
  | _ => Some (a, s)
  end.

(** What a backslash escape stands for (outside a class). *)
Definition read_escape (c : ascii) : option regex :=
  match c with
  | "b"%char => Some WordB
  | "d"%char => Some (Cls false [IDigit])
  | "w"%char => Some (Cls false [IWord])
  | "s"%char => Some (Cls false [ISpace])
  | _ => if is_word c then None else Some (Chr c)
  end.

(** The items of a bracketed class, up to the closing bracket. *)
Fixpoint read_class (fuel : nat) (s : list ascii) : option (list citem * list ascii) :=
  match fuel with
  | 0 => None
  | S f =>
      match s with
      | "]"%char :: s' => Some ([], s')
      | lo :: "-"%char :: hi :: s' =>
          if Ascii.eqb hi "]" then
            match read_class f ("-"%char :: hi :: s') with
            | Some (its, r) => Some (IChar lo :: its, r)
            | None => None
            end
          else
            match read_class f s' with
            | Some (its, r) => Some (IRange lo hi :: its, r)
            | None => None
            end
      | c :: s' =>
          match read_class f s' with
          | Some (its, r) => Some (IChar c :: its, r)
          | None => None
          end
      | [] => None
      end
  end.

Definition stops (s : list ascii) : bool :=
  match s with
  | [] => true
  | c :: _ => Ascii.eqb c "|" || Ascii.eqb c ")"
  end.

Fixpoint read_alt (fuel : nat) (st : pstate) : option (regex * pstate) :=
  match fuel with
  | 0 => None
  | S f =>
      match read_seq f st with
      | Some (a, ("|"%char :: s', g)) =>
          match read_alt f (s', g) with
          | Some (b, st') => Some (Alt a b, st')
          | None => None
          end
      | r => r
      end
  end
with read_seq (fuel : nat) (st : pstate) : option (regex * pstate) :=
  match fuel with
  | 0 => None
  | S f =>
      if stops (fst st) then Some (Eps, st)
      else
        match read_piece f st with
        | Some (a, st') =>
            if stops (fst st') then Some (a, st')
            else
              match read_seq f st' with
              | Some (b, st'') => Some (Seq a b, st'')
              | None => None
              end
        | None => None
        end
  end
with read_piece (fuel : nat) (st : pstate) : option (regex * pstate) :=
  match fuel with
  | 0 => None
  | S f =>
      let quantified (r : option (regex * pstate)) :=
        match r with
        | Some (a, (s, g)) =>
            match read_quant a s with
            | Some (a', s') => Some (a', (s', g))
            | None => None
            end
        | None => None
        end in
      let '(s, g) := st in
      match s with
      | "("%char :: "?"%char :: ":"%char :: s' =>
          quantified
            match read_alt f (s', g) with
            | Some (a, (")"%char :: s'', g')) => Some (a, (s'', g'))
            | _ => None
            end
      | "("%char :: s' =>
          quantified
            match read_alt f (s', S g) with
            | Some (a, (")"%char :: s'', g')) => Some (Group g a, (s'', g'))
            | _ => None
            end
      | "["%char :: "^"%char :: s' =>
          quantified
            match read_class (length s') s' with
            | Some (its, s'') => Some (Cls true its, (s'', g))
            | None => None
            end
      | "["%char :: s' =>
          quantified
            match read_class (length s') s' with
            | Some (its, s'') => Some (Cls false its, (s'', g))
            | None => None
            end
      | "\"%char :: c :: s' =>
          quantified
            match read_escape c with
            | Some a => Some (a, (s', g))
            | None => None
            end
      | "."%char :: s' => quantified (Some (Any, (s', g)))
      | "^"%char :: s' => quantified (Some (Bol, (s', g)))
      | "$"%char :: s' => quantified (Some (Eol, (s', g)))
      | c :: s' =>
          if Ascii.eqb c "*" || Ascii.eqb c "+" || Ascii.eqb c "?" || Ascii.eqb c "\"
          then None
          else quantified (Some (Chr c, (s', g)))
      | [] => None
      end
  end.

(** [re.compile]: [None] where Python raises [re.error]. Groups are
    numbered from 1 in the order of their opening parentheses. *)
Definition compile (pattern : string) : option regex :=
  let s := chars pattern in
  match read_alt (3 * length s + 3) (s, 1) with
  | Some (r, ([], _)) => Some r
  | _ => None
  end.

(* ================================================================== *)
(** * The module [re]: matching *)
(* ================================================================== *)

(** A point of the search: the position reached and the spans of the
    groups closed so far (the latest first). *)
Record mstate : Type := MState { pos : nat; caps : list (nat * (nat * nat)) }.

(** A match object: its span and the spans of its groups. *)
Record rmatch : Type := RMatch { m_start : nat; m_end : nat; m_caps : list (nat * (nat * nat)) }.

Section Matcher.
Variable icase : bool.         (* the flag re.I *)
Variable text : list ascii.

Definition item_has (c : ascii) (it : citem) : bool :=
  match it with
  | IChar a => Ascii.eqb a c
  | IRange lo hi => between (code lo) (code hi) (code c)
  | IDigit => is_digit c
  | IWord => is_word c
  | ISpace => is_space c
  end.

Definition item_match (c : ascii) (it : citem) : bool :=
  if icase
  then item_has c it || item_has (lower_char c) it || item_has (upper_char c) it
  else item_has c it.

Definition chr_match (lit c : ascii) : bool :=
  if icase then Ascii.eqb (lower_char lit) (lower_char c) else Ascii.eqb lit c.

Definition any_match (c : ascii) : bool := negb (code c =? 10).

Definition cls_match (neg : bool) (items : list citem) (c : ascii) : bool :=
  xorb neg (existsb (item_match c) items).

(** Consume one character accepted by [ok]. *)
Definition step_if (ok : ascii -> bool) (s : mstate) : list mstate :=
  match nth_error text (pos s) with
  | Some c => if ok c then [MState (S (pos s)) (caps s)] else []
  | None => []
  end.

Definition word_at (p : nat) : bool :=
  match nth_error text p with
  | Some c => is_word c
  | None => false
  end.

Definition at_boundary (p : nat) : bool :=
  xorb (match p with 0 => false | S q => word_at q end) (word_at p).

(** [$]: the end of the text, or just before a final newline. *)
Definition at_eol (p : nat) : bool :=
  (p =? length text) ||
  ((S p =? length text) &&
   match nth_error text p with
   | Some c => code c =? 10
   | None => false
   end).

Definition guard (b : bool) (s : mstate) : list mstate := if b then [s] else [].

(** Repetition of [body], which must advance at every round (no
    pattern of the program repeats a body that can match the empty
    text); [fuel] bounds the rounds by the characters left, so it never
    runs short. *)
Fixpoint star (body : mstate -> list mstate) (greedy : bool) (fuel : nat)
    (s : mstate) : list mstate :=
  match fuel with
  | 0 => [s]
  | S n =>
      let more :=
        flat_map (star body greedy n)
                 (List.filter (fun s' => pos s <? pos s') (body s)) in
      if greedy then more ++ [s] else s :: more
  end.

(** Every way [r] matches from [s], in the order in which a
    backtracking matcher tries them: the head is the match Python
    reports. *)
Fixpoint run (r : regex) (s : mstate) : list mstate :=
  match r with
  | Eps => [s]
  | Any => step_if any_match s
  | Chr c => step_if (chr_match c) s
  | Cls neg items => step_if (cls_match neg items) s
  | Seq a b => flat_map (run b) (run a s)
  | Alt a b => run a s ++ run b s
  | Star greedy a => star (run a) greedy (S (length text - pos s)) s
  | Group n a =>
      map (fun s' => MState (pos s') ((n, (pos s, pos s')) :: caps s')) (run a s)
  | Bol => guard (pos s =? 0) s
  | Eol => guard (at_eol (pos s)) s
  | WordB => guard (at_boundary (pos s)) s
  end.

(** The first start position, among [starts], from which [r] matches. *)
Fixpoint first_from (r : regex) (starts : list nat) : option rmatch :=
  match starts with
  | [] => None
  | p :: ps =>
      match run r (MState p []) with
      | s :: _ => Some (RMatch p (pos s) (caps s))
      | [] => first_from r ps
      end
  end.

Definition search_from (r : regex) (start : nat) : option rmatch :=
  first_from r (seq start (S (length text) - start)).

Fixpoint assoc (n : nat) (l : list (nat * (nat * nat))) : option (nat * nat) :=
  match l with
  | [] => None
  | (k, v) :: l' => if k =? n then Some v else assoc n l'
  end.

Definition slice (a b : nat) : string := text_of (firstn (b - a) (skipn a text)).

(** [m.group(n)]; every group read by the program takes part in each
    match of its pattern (the empty text stands for Python's [None]). *)
Definition group (n : nat) (m : rmatch) : string :=
  match assoc n (m_caps m) with
  | Some (a, b) => slice a b
  | None => EmptyString
  end.

(** The scan of [findall] for a pattern with one group: the next search
    starts where the last match ended (the three patterns the program
    scans with never match the empty text). *)
Fixpoint findall_from (r : regex) (fuel start : nat) : list string :=
  match fuel with
  | 0 => []
  | S f =>
      match search_from r start with
      | None => []
      | Some m =>
          group 1 m ::
          findall_from r f (if m_start m <? m_end m then m_end m else S (m_end m))
      end
  end.
End Matcher.

(** [re.search(pattern, s)], with [re.I] when [icase]. *)
Definition re_search (icase : bool) (pattern s : string) : option rmatch :=
  match compile pattern with
  | Some r => search_from icase (chars s) r 0
  | None => None
  end.

(** [re.match(pattern, s)]: a match at the start of [s] only. *)
Definition re_match (icase : bool) (pattern s : string) : option rmatch :=
  match compile pattern with
  | Some r => first_from icase (chars s) r [0]
  | None => None
  end.

(** [re.findall(pattern, s)] for a pattern with one group: the texts of
    the group in the successive matches. *)
Definition re_findall (icase : bool) (pattern s : string) : list string :=
  match compile pattern with
  | Some r => findall_from icase (chars s) r (S (length (chars s))) 0
  | None => []
  end.

(** [m.group(n)] for a match [m] found in [s]. *)
Definition m_group (s : string) (m : rmatch) (n : nat) : string :=
  group (chars s) n m.

Definition matched {A : Type} (o : option A) : bool :=
  match o with Some _ => true | None => false end.

(* ================================================================== *)
(** * intent_classifier.py *)
(* ================================================================== *)

(** [class Intent(Enum)] *)
Inductive Intent : Type :=
| GREETING | RECOMMENDATION | RECOMMEND | SEARCH | TRIVIA | DEBATE
| ACTOR_INFO | DIRECTOR_INFO | GENRE_QUERY | YEAR_QUERY | RATING_QUERY
| PLOT_QUERY | UNKNOWN.

#[export] Instance Intent_eq_dec : EqDecision Intent.
Proof. solve_decision. Defined.

(** [Intent.value] *)
Definition intent_value (i : Intent) : string :=
  match i with
  | GREETING => "greeting"
  | RECOMMENDATION => "recommendation"
  | RECOMMEND => "recommend"
  | SEARCH => "search"
  | TRIVIA => "trivia"
  | DEBATE => "debate"
  | ACTOR_INFO => "actor_info"
  | DIRECTOR_INFO => "director_info"
  | GENRE_QUERY => "genre_query"
  | YEAR_QUERY => "year_query"
  | RATING_QUERY => "rating_query"
  | PLOT_QUERY => "plot_query"
  | UNKNOWN => "unknown"
  end.

(** The values an entity bag ([Dict[str, any]]) holds. *)
Inductive value : Type :=
| VStr (s : string)
| VInt (z : Z)
| VList (l : list string).

(** Truth value of [d.get(k)]. *)
Definition value_truthy (o : option value) : bool :=
  match o with
  | Some (VStr s) => truthy s
  | Some (VInt z) => negb (z =? 0)%Z
  | Some (VList l) => match l with [] => false | _ => true end
  | None => false
  end.

(** [@dataclass class IntentResult] *)
Record IntentResult : Type := mkIntentResult {
  intent : Intent;
  confidence : Q;
  entities : gmap string value;
  original_message : string
}.

(** [self.patterns], in the order of the dict literal. *)
Definition patterns : list (Intent * list string) :=
  [
   (GREETING,
    [ "\b(hi|hello|hey|greetings|good morning|good afternoon|good evening|sup|yo)\b";
      "^(hi|hello|hey|sup|yo)$";
      "\b(how are you|what\'s up|whats up)\b" ]);
   (RECOMMEND,
    [ "\b(recommend|suggest|advise|propose|pick for me|choose for me)\b";
      "\b(what should i watch|what to watch|something to watch|what\'s good to watch|what\'s popular)\b";
      "\b(good movie|great film|best movie|top movie|must-see|worth watching|hidden gem|underrated|overrated)\b";
      "\b(movie recommendation|film recommendation|movie list|top picks|favorites)\b";
      "\b(movies like|similar to|in the style of|reminds me of|if I liked|if I enjoyed)\b";
      "\b(i want to watch|looking for|need something|show me|find me|give me|suggest me)\b.*\b(movie|film)\b";
      "\b(any suggestions|help me find|got anything|anything fun|anything new|anything trending|anything classic|anything old|anything recent|anything popular)\b";
      "\b(i\'m bored|bored|nothing to watch|need entertainment|want to relax|want to laugh|want to cry|want to be scared|want to be inspired)\b";
      "\b(tonight|weekend|date night|with friends|family night|movie night|rainy day|sick day|holiday|vacation)\b.*\b(movie|watch)\b";
      "\b(what\'s good|whats good|anything good|what\'s trending|trending now|new releases|recently released|classic movies|old movies|timeless|iconic|cult classic)\b";
      "\b(got any|have any|know any|can you recommend|can you suggest)\b.*\b(movie|film)\b";
      "any good \w+? films";
      "got any \w+? movies";
      "what should i watch";
      "what do you recommend";
      "pick a movie for me";
      "give me something to watch";
      "anything worth watching" ]);
   (SEARCH,
    [ "\b(find|search|look for|tell me about|info about|details about|show info|show details|show plot|show cast|show director|show rating|show reviews)\b.*\b(movie|film|about|on|regarding)\b";
      "\b(what is|who is|when was|where was|who stars in|who directed|who made|who created|who acted in|who played|who\'s in|who\'s starring)\b.*\b(movie|film|about|on|regarding)\b";
      (dq +:+ "([^" +:+ dq +:+ "]+)" +:+ dq);
      "\b(have you seen|do you know|heard of|tell me about|give me info|give me details|what can you tell me|give me more info|give me more details|what else can you say|elaborate|expand|explain)\b.*\b(movie|film|about|on|regarding)\b";
      "\b(is there a movie|movie called|film called|movie named|film named)\b";
      "\b(who stars in|who directed|who made|who created|who acted in|who played|who\'s in|who\'s starring)\b.*";
      "\b(plot of|story of|summary of|synopsis of|what happens in|what is .+ about|what can you tell me about .+)\b";
      "\b(who is in .+|who directed .+|when was .+ released|give me details about .+)\b" ]);
   (TRIVIA,
    [ "\b(trivia|fact|facts|did you know|behind the scenes|interesting|random)\b";
      "\b(tell me something|fun fact|movie fact|cool fact|interesting fact|any fun facts|any trivia|any interesting details|any secrets|any easter eggs|any hidden details)\b";
      "\b(surprise me|something interesting|blow my mind|anything else|what else|more info|more details|elaborate|expand|explain)\b";
      "\b(easter egg|hidden detail|secret)\b" ]);
   (DEBATE,
    [ "\b(debate|argue|discuss|opinion|think|believe|disagree)\b";
      "\b(better than|worse than|compare|vs|versus)\b";
      "\b(overrated|underrated|best|worst)\b";
      "\b(controversial|unpopular opinion|hot take)\b";
      "\b(fight|battle|showdown|face-off)\b.*\b(movie|film)\b" ]);
   (ACTOR_INFO,
    [ "\b(actor|actress|star|starring|cast|who plays|who stars|who\'s in)\b";
      "\b(acted in|appears in|stars in|featured in)\b";
      "\b(main character|lead actor|protagonist)\b" ]);
   (DIRECTOR_INFO,
    [ "\b(director|directed by|filmmaker|made by|created by)\b";
      "\b(who directed|who made|who created)\b" ]);
   (GENRE_QUERY,
    [ "\b(action|comedy|drama|horror|romance|sci-fi|science fiction|thriller|fantasy|documentary|animation|crime|mystery|western|biography|musical|adventure|family|war|history|sport)\b";
      "\b(funny|hilarious|laugh|humor|comic)\b";
      "\b(scary|frightening|terrifying|creepy|spooky)\b";
      "\b(romantic|love|relationship|couple|dating)\b";
      "\b(exciting|adrenaline|fast-paced|intense)\b";
      "\b(sad|emotional|touching|heartbreaking|tear-jerker)\b";
      "\b(futuristic|space|alien|robot|technology)\b";
      "\b(magical|fantasy|wizard|fairy|mythical)\b";
      "\b(real|true story|documentary|based on)\b";
      "\b(animated|cartoon|pixar|disney)\b";
      "\b(genre|type|category|kind)\b";
      "\b(mood for|in the mood|feel like)\b" ]);
   (YEAR_QUERY,
    [ "\b(year|when|released|came out|made in|from)\b";
      "\b(19\d{2}|20\d{2})\b";
      "\b(recent|new|latest|old|classic|vintage)\b";
      "\b(90s|80s|70s|60s|2000s|2010s|2020s)\b" ]);
   (RATING_QUERY,
    [ "\b(rating|score|imdb|rotten tomatoes|critics|review|reviews)\b";
      "\b(good|bad|worth watching|any good)\b";
      "\b(popular|highly rated|top rated|best)\b" ]);
   (PLOT_QUERY,
    [ "\b(plot|story|about|synopsis|summary|premise)\b";
      "\bwhat.*\b(happens|about|is it)\b";
      "\b(storyline|narrative|what\'s it about)\b" ])
  ].

(** The pattern for a quoted title: a quote, a group of one or more
    characters other than a quote, a quote. *)
Definition quoted_pattern : string := dq +:+ "([^" +:+ dq +:+ "]+)" +:+ dq.

Definition genre_pattern : string :=
  "\b(action|comedy|drama|horror|romance|sci-fi|science fiction|thriller|fantasy|documentary|animation|crime|mystery|western|biography|musical|adventure|family|war|history|sport)\b".

Definition tell_about_pattern : string :=
  "(?:tell me about|about|plot of|info on|give me info about|what is|details about|info about)\s+(.+?)(?:\?|$|\.)".

Definition year_pattern : string := "\b(19\d{2}|20\d{2})\b".

Definition name_pattern : string := "([A-Z][a-z]+(?: [A-Z][a-z]+){1,2})".

(** [genre_patterns], in the order of the dict literal. *)
Definition genre_patterns : list (string * string) :=
  [
   ("action",
    "\b(action|adventure|fight|battle|exciting|adrenaline|fast-paced|intense|superhero|martial arts)\b");
   ("comedy",
    "\b(comedy|funny|humor|laugh|hilarious|comic|witty|light-hearted|amusing)\b");
   ("drama",
    "\b(drama|dramatic|emotional|touching|heartbreaking|tear-jerker|serious|sad)\b");
   ("horror",
    "\b(horror|scary|frightening|terror|creepy|spooky|haunted|zombie|ghost)\b");
   ("romance",
    "\b(romance|romantic|love|relationship|couple|dating|wedding|valentine)\b");
   ("sci-fi",
    "\b(sci-fi|science fiction|futuristic|space|alien|robot|technology|cyberpunk|dystopian)\b");
   ("thriller",
    "\b(thriller|suspense|mystery|psychological|crime|detective|investigation)\b");
   ("fantasy",
    "\b(fantasy|magical|fairy tale|wizard|dragon|medieval|mythical|supernatural)\b");
   ("documentary",
    "\b(documentary|real|true story|based on|biography|historical|educational)\b");
   ("animation",
    "\b(animation|animated|cartoon|pixar|disney|anime|claymation)\b");
   ("family",
    "\b(family|kids|children|wholesome|all ages|disney|pixar)\b");
   ("war",
    "\b(war|military|battle|soldier|combat|wwii|vietnam|conflict)\b");
   ("western",
    "\b(western|cowboy|wild west|frontier|gunfighter|saloon)\b");
   ("musical",
    "\b(musical|singing|songs|broadway|opera|music|dance)\b")
  ].

Definition stop_words : list string :=
  ["the"; "a"; "an"; "of"; "in"; "on"; "at"; "to"; "for"; "and"; "or"].

(** ** [classify]: the score table *)

(** [d.get(k)] on a dict kept in insertion order. *)
Fixpoint dict_get (k : Intent) (d : list (Intent * nat)) : option nat :=
  match d with
  | [] => None
  | (k', v) :: d' => if decide (k' = k) then Some v else dict_get k d'
  end.

(** [d[k] = d.get(k, 0) + 1]: a key already there keeps its place, a
    new key goes last. *)
Fixpoint dict_incr (k : Intent) (d : list (Intent * nat)) : list (Intent * nat) :=
  match d with
  | [] => [(k, 1)]
  | (k', v) :: d' =>
      if decide (k' = k) then (k', S v) :: d' else (k', v) :: dict_incr k d'
  end.

(** The inner loop of [classify] for one intent. *)
Definition score_patterns (message_lower : string) (i : Intent) (pats : list string)
    (intent_scores : list (Intent * nat)) : list (Intent * nat) :=
  fold_left
    (fun sc pattern =>
       if matched (re_search false pattern message_lower) then dict_incr i sc else sc)
    pats intent_scores.

(** The outer loop, over [self.patterns.items()]. *)
Definition score_table (table : list (Intent * list string)) (message_lower : string)
    : list (Intent * nat) :=
  fold_left (fun sc '(i, pats) => score_patterns message_lower i pats sc) table [].

(** [max(xs, key=key)] keeps the first of the maximal elements. *)
Fixpoint max_by {A : Type} (key : A -> nat) (best : A) (l : list A) : A :=
  match l with
  | [] => best
  | x :: l' => max_by key (if key best <? key x then x else best) l'
  end.

Definition score_of (intent_scores : list (Intent * nat)) (k : Intent) : nat :=
  default 0 (dict_get k intent_scores).

Definition best_of (intent_scores : list (Intent * nat)) : Intent :=
  match map fst intent_scores with
  | [] => UNKNOWN
  | k :: ks => max_by (score_of intent_scores) k ks
  end.

Definition sum_values (intent_scores : list (Intent * nat)) : nat :=
  fold_right Nat.add 0 (map snd intent_scores).

(** ** [_extract_entities] *)

Definition word_count (message : string) : nat := length (split message).

(** Priority 2 of the source: a short message holding a capital letter. *)
Definition short_with_capital (message : string) (i : Intent) : bool :=
  (word_count message <=? 5) &&
  (bool_decide (i = SEARCH) || (word_count message <=? 3)) &&
  matched (re_search false "[A-Z]" message).

(** Priority 3: no title yet, a capital first letter, one to four words. *)
Definition capital_initial (ents : gmap string value) (message : string) : bool :=
  negb (value_truthy (ents !! "title")) &&
  matched (re_match false "^[A-Z]" (strip message)) &&
  (1 <=? word_count message) && (word_count message <=? 4).

Definition title_word (word : string) : bool :=
  match word with
  | String c _ => is_upper c
  | EmptyString => false
  end
  || existsb (String.eqb (lower word)) stop_words.

(** Pattern 4: no title yet, at most four words, each capitalised or a
    stop word. *)
Definition title_like (ents : gmap string value) (message : string) : bool :=
  negb (value_truthy (ents !! "title")) &&
  (word_count message <=? 4) &&
  match split message with
  | [] => false
  | words => forallb title_word words
  end.

Definition detected_genres (message : string) : list string :=
  map fst
    (List.filter (fun '(genre, pattern) => matched (re_search false pattern (lower message)))
            genre_patterns).

(** The part of [_extract_entities] after the title heuristics. *)
Definition extract_rest (message : string) (ents : gmap string value)
    : gmap string value :=
  let ents :=
    match re_findall false year_pattern message with
    | y :: _ => <["year" := VInt (py_int y)]> ents
    | [] => ents
    end in
  let ents :=
    match detected_genres message with
    | [] => ents
    | gs => <["genres" := VList gs]> ents
    end in
  match re_findall false name_pattern message with
  | [] => ents
  | names => <["person_names" := VList names]> ents
  end.

Definition _extract_entities (message : string) (i : Intent) : gmap string value :=
  let ents : gmap string value := ∅ in
  let ents :=
    match re_findall false quoted_pattern message with
    | q :: _ => <["title" := VStr q]> ents
    | [] => ents
    end in
  let ents :=
    match re_search true genre_pattern message with
    | Some m => <["genre" := VStr (lower (m_group message m 1))]> ents
    | None => ents
    end in
  match re_search true tell_about_pattern message with
  | Some m => <["title" := VStr (strip (m_group message m 1))]> ents
  | None =>
      if short_with_capital message i then <["title" := VStr (strip message)]> ents
      else if capital_initial ents message then <["title" := VStr (strip message)]> ents
      else
        let ents :=
          if title_like ents message then <["title" := VStr (strip message)]> ents
          else ents in
        extract_rest message ents
  end.

Definition classify (message : string) : IntentResult :=
  let message_lower := strip (lower message) in
  let intent_scores := score_table patterns message_lower in
  let best_intent := best_of intent_scores in
  let ents := _extract_entities message best_intent in
  let conf :=
    Z.of_nat (score_of intent_scores best_intent)
      # Pos.of_nat (Nat.max 1 (sum_values intent_scores)) in
  mkIntentResult best_intent conf ents message.

(* ================================================================== *)
(** * The movie catalog and the effects of a turn *)
(* ================================================================== *)

(** A number as [json] decodes it: an [int] when its text has no
    fraction, else the [float] nearest to the decimal [q] the text
    writes. *)
Inductive number : Type :=
| NInt (z : Z)
| NFloat (q : Q).

(** The dicts built by [movie_api_service.py]. *)
Record Movie : Type := mkMovie {
  mv_id : Z;
  mv_title : string;
  mv_year : string;
  mv_overview : string;
  mv_rating : number;
  mv_poster_url : option string;
  mv_genres : list string
}.

Record Details : Type := mkDetails {
  d_id : Z;
  d_title : string;
  d_year : string;
  d_overview : string;
  d_runtime : Z;
  d_rating_tmdb : number;
  d_rating_imdb : option string;
  d_rating_rt : option string;
  d_genres : list string;
  d_cast : list (string * string);            (* name, character *)
  d_director : string;
  d_poster_url : option string;
  d_budget : Z;
  d_revenue : Z;
  d_production_companies : list string
}.

Record Person : Type := mkPerson {
  p_id : Z;
  p_name : string;
  p_biography : string;
  p_birthday : option string;
  p_place_of_birth : option string;
  p_known_for_department : string;
  p_profile_url : option string;
  p_popular_movies : list (string * string * string);  (* title, year, character *)
  p_directed_movies : list (string * string)           (* title, year *)
}.

Inductive exn : Type :=
| HTTPException (status_code : nat) (detail : string)
| TypeError
| IndexError
| KeyError.

(** What a turn asks of the outside: the public coroutines of
    [movie_api] and [random.choice] (which answers with an index). *)
Inductive call : Type :=
| search_movies (query : value) (year : option value) (limit : nat)
| get_movie_details (movie_id : Z)
| get_genre_recommendations (genre : string) (year_range : option (Z * Z)) (limit : nat)
| search_person (name : string)
| get_movie_trivia (movie_id : Z)
| random_choice (n : nat).

Definition answer (c : call) : Type :=
  match c with
  | search_movies _ _ _ => list Movie
  | get_movie_details _ => option Details
  | get_genre_recommendations _ _ _ => list Movie
  | search_person _ => option Person
  | get_movie_trivia _ => list string
  | random_choice _ => nat
  end.

(** A computation that returns, raises, or makes a call and goes on
    with its answer. *)
Inductive prog (A : Type) : Type :=
| Ret (a : A)
| Raise (e : exn)
| Call (c : call) (k : answer c -> prog A).

Arguments Ret {A} a.
Arguments Raise {A} e.
Arguments Call {A} c k.

Fixpoint bind {A B : Type} (p : prog A) (f : A -> prog B) : prog B :=
  match p with
  | Ret a => f a
  | Raise e => Raise e
  | Call c k => Call c (fun x => bind (k x) f)
  end.

(** [try: p  except Exception as e: h e] *)
Fixpoint catch {A : Type} (p : prog A) (h : exn -> prog A) : prog A :=
  match p with
  | Ret a => Ret a
  | Raise e => h e
  | Call c k => Call c (fun x => catch (k x) h)
  end.

Notation "'let*' x ':=' p 'in' q" := (bind p (fun x => q))
  (at level 10, x name, p at level 100, q at level 200).

Definition await (c : call) : prog (answer c) := Call c Ret.

(** [random.choice(l)] *)
Definition choice {A : Type} (l : list A) : prog A :=
  match l with
  | [] => Raise IndexError
  | d :: _ => let* i := await (random_choice (length l)) in Ret (nth (i mod length l) l d)
  end.

(** Running a program against given answers. *)
Fixpoint run_with {A : Type} (world : forall c, answer c) (p : prog A) : exn + A :=
  match p with
  | Ret a => inr a
  | Raise e => inl e
  | Call c k => run_with world (k (world c))
  end.

(** [p] can end in [a], whatever the outside answers. *)
Inductive returns {A : Type} : prog A -> A -> Prop :=
| returns_ret a : returns (Ret a) a
| returns_call c k x a : returns (k x) a -> returns (Call c k) a.

(** [p] never searches the catalog for a title. *)
Inductive no_search {A : Type} : prog A -> Prop :=
| ns_ret a : no_search (Ret a)
| ns_raise e : no_search (Raise e)
| ns_call c k :
    (forall q y l, c <> search_movies q y l) ->
    (forall x, no_search (k x)) ->
    no_search (Call c k).

(** [p] makes no call at all. *)
Definition no_call {A : Type} (p : prog A) : Prop :=
  match p with
  | Call _ _ => False
  | _ => True
  end.

(* ================================================================== *)
(** * response_generator.py *)
(* ================================================================== *)

Definition nl : string := String (ascii_of_nat 10) EmptyString.

(** [round(n / d)] for [0 <= n] and [0 < d], ties to the even one. *)
Definition round_half_even (n d : Z) : Z :=
  let fl := (n / d)%Z in
  match (2 * (n mod d) ?= d)%Z with
  | Lt => fl
  | Gt => (fl + 1)%Z
  | Eq => if Z.even fl then fl else (fl + 1)%Z
  end.

(** The value of the [float] (binary64, 53 significant bits) nearest to
    [q], ties to the even one; the subnormal and the overflow ranges,
    far from any rating, are left out. *)
Definition float_of (q : Q) : Q :=
  let n := Z.abs (Qnum q) in
  let d := Z.pos (Qden q) in
  if (n =? 0)%Z then 0%Q
  else
    let e0 := (Z.log2 n - Z.log2 d)%Z in
    let below :=
      if (0 <=? e0)%Z then (n <? d * 2 ^ e0)%Z else (n * 2 ^ (- e0) <? d)%Z in
    let e := if below then (e0 - 1)%Z else e0 in
    let s := (52 - e)%Z in
    let m :=
      if (0 <=? s)%Z then round_half_even (n * 2 ^ s) d
      else round_half_even n (d * 2 ^ (- s)) in
    let m := if (Qnum q <? 0)%Z then (- m)%Z else m in
    if (0 <=? s)%Z then Qmake m (Z.to_pos (2 ^ s)) else Qmake (m * 2 ^ (- s)) 1.

(** The value of a number as a [float]. *)
Definition number_value (x : number) : Q :=
  match x with
  | NInt z => inject_Z z
  | NFloat q => float_of q
  end.

(** [f"{x:.1f}"]: the value of the float, rounded to the nearest tenth,
    ties to the even one. *)
Definition fmt_1f (x : number) : string :=
  let q := number_value x in
  let n := Z.abs (Qnum q) in
  let d := Z.pos (Qden q) in
  let t := round_half_even (10 * n) d in
  (if (Qnum q <? 0)%Z then "-" else "") +:+
  str_of_Z (t / 10) +:+ "." +:+ str_of_Z (t mod 10).

(** [str(v)] as an f-string renders it (the escapes of [repr] aside). *)
Definition py_str (v : value) : string :=
  match v with
  | VStr s => s
  | VInt z => str_of_Z z
  | VList l => "[" +:+ join ", " (map (fun s => "'" +:+ s +:+ "'") l) +:+ "]"
  end.

(** [v[0]] *)
Definition first_item (v : value) : prog string :=
  match v with
  | VList (x :: _) => Ret x
  | VList [] => Raise IndexError
  | VStr (String c _) => Ret (String c EmptyString)
  | VStr EmptyString => Raise IndexError
  | VInt _ => Raise TypeError
  end.

Definition some_truthy (o : option string) : bool :=
  match o with Some s => truthy s | None => false end.

Record DebateTopic : Type := mkTopic {
  t_title : string;
  t_question : string;
  t_options : list string
}.

(** The shapes of the [data] dict of a reply. *)
Inductive payload : Type :=
| DataMovies (movies : list Movie) (genre : option string)
| DataDetails (movie : Details)
| DataMovie (movie : Movie) (debate_type : option string)
| DataPerson (person : Person)
| DataDirector (director : Person)
| DataDebateTopic (debate_topic : DebateTopic).

(** [@dataclass class ChatResponse] *)
Record ChatResponse : Type := mkChatResponse {
  content : string;
  data : option payload;
  suggestions : option (list string);
  response_type : option string
}.

Definition greeting_responses : list string :=
  [ "Hello! 🎬 I'm your movie discovery assistant. I can help you find great films, share movie trivia, or discuss your favorite genres. What are you in the mood for?";
    "Hey there! 🎭 Ready to dive into the world of cinema? I can recommend movies, share fascinating facts, or help you explore new genres. What sounds interesting?";
    "Hi! 🍿 I'm here to help you discover amazing movies. Whether you want recommendations, trivia, or just want to chat about films, I'm ready! What can I help you with?" ].

Definition unknown_responses : list string :=
  [ "I'm not sure I understood. You can ask for recommendations, trivia, or details about a movie!";
    "Try asking things like: 'Recommend me a comedy', 'Tell me about Inception', 'Who stars in Titanic', or 'Give me a fun fact about movies.'";
    "Need help? Try: 'What should I watch tonight?', 'Show me trending movies', 'Tell me something interesting about movies.'" ].

Definition _handle_greeting : prog ChatResponse :=
  let* content := choice greeting_responses in
  Ret (mkChatResponse content None
         (Some [ "Recommend me a movie";
                 "Tell me some movie trivia";
                 "Find action movies from 2023";
                 "What's a good comedy to watch?" ])
         None).

Definition _handle_unknown : prog ChatResponse :=
  let* content := choice unknown_responses in
  Ret (mkChatResponse content None
         (Some [ "Recommend a movie";
                 "Show me trending movies";
                 "Tell me about [movie title]";
                 "Who stars in [movie title]";
                 "Tell me movie trivia";
                 "Find movies by genre";
                 "Give me a classic movie" ])
         None).

(** The lines [f"{i}. **{title}** ({year}) - ⭐ {rating:.1f}/10\n"] and
    [f"   {overview[:cut]}...\n\n"] for [enumerate(movies, i)]. *)
Fixpoint movie_lines (cut i : nat) (movies : list Movie) : string :=
  match movies with
  | [] => ""
  | movie :: rest =>
      str_of_nat i +:+ ". **" +:+ mv_title movie +:+ "** (" +:+ mv_year movie +:+
      ") - ⭐ " +:+ fmt_1f (mv_rating movie) +:+ "/10" +:+ nl +:+
      "   " +:+ py_take cut (mv_overview movie) +:+ "..." +:+ nl +:+ nl +:+
      movie_lines cut (S i) rest
  end.

Definition first_title (movies : list Movie) : string :=
  match movies with
  | m :: _ => mv_title m
  | [] => ""
  end.

(** The tail of [_handle_recommendation]: generic recommendations. *)
Definition generic_recommendations : prog ChatResponse :=
  let* popular_movies := await (get_genre_recommendations "action" None 3) in
  match popular_movies with
  | _ :: _ =>
      Ret (mkChatResponse
             ("Here are some popular movies you might enjoy:" +:+ nl +:+ nl +:+
              movie_lines 100 1 popular_movies +:+
              "What genre are you in the mood for? I can give you more specific recommendations!")
             None
             (Some [ "Comedy movies"; "Horror films"; "Romantic movies"; "Sci-fi recommendations" ])
             (Some "recommendations"))
  | [] =>
      Ret (mkChatResponse
             "I'd love to recommend some movies! What genre are you interested in? Action, comedy, drama, or something else? 🎬"
             None
             (Some [ "Action movies"; "Comedy films"; "Drama recommendations" ])
             (Some "recommendations"))
  end.

Definition _handle_recommendation (intent_result : IntentResult) : prog ChatResponse :=
  let ents := entities intent_result in
  match ents !! "genres" with
  | Some gs =>
      let* genre := first_item gs in
      let* year_range :=
        match ents !! "year" with
        | Some (VInt year) => Ret (Some (year - 2, year + 2)%Z)
        | Some _ => Raise TypeError
        | None => Ret None
        end in
      let* movies := await (get_genre_recommendations genre year_range 3) in
      match movies with
      | _ :: _ =>
          Ret (mkChatResponse
                 ("Here are some great " +:+ genre +:+ " movies I recommend:" +:+ nl +:+ nl +:+
                  movie_lines 100 1 movies +:+
                  "Would you like more " +:+ genre +:+
                  " recommendations or details about any of these movies?")
                 (Some (DataMovies movies (Some genre)))
                 (Some [ "Tell me more about " +:+ first_title movies;
                         "More " +:+ genre +:+ " movies";
                         "Different genre recommendations" ])
                 (Some "recommendations"))
      | [] => generic_recommendations
      end
  | None => generic_recommendations
  end.

Definition search_no_title : ChatResponse :=
  mkChatResponse
    "What movie are you looking for? Please tell me the title and I'll find it for you! 🔍"
    None None None.

Definition _handle_search (intent_result : IntentResult) : prog ChatResponse :=
  let ents := entities intent_result in
  match ents !! "movie_title" with
  | Some title =>
      let year := ents !! "year" in
      let not_found :=
        Ret (mkChatResponse
               ("I couldn't find any movies matching '" +:+ py_str title +:+
                "'. Could you check the spelling or try a different title? 🎬")
               None None None) in
      let* movies := await (search_movies title year 3) in
      match movies with
      | [] => not_found
      | [movie] =>
          let* details := await (get_movie_details (mv_id movie)) in
          match details with
          | Some details =>
              Ret (mkChatResponse
                     ("**" +:+ d_title details +:+ "** (" +:+ d_year details +:+ ")" +:+ nl +:+ nl +:+
                      "⭐ Rating: " +:+ fmt_1f (d_rating_tmdb details) +:+ "/10 (TMDb)" +:+
                      (if some_truthy (d_rating_imdb details)
                       then " | " +:+ default "" (d_rating_imdb details) +:+ "/10 (IMDb)"
                       else "") +:+
                      nl +:+ nl +:+ "📽️ **Director:** " +:+ d_director details +:+ nl +:+
                      "🎭 **Cast:** " +:+ join ", " (map fst (firstn 3 (d_cast details))) +:+ nl +:+
                      "🏷️ **Genres:** " +:+ join ", " (d_genres details) +:+ nl +:+
                      "⏱️ **Runtime:** " +:+ str_of_Z (d_runtime details) +:+ " minutes" +:+ nl +:+ nl +:+
                      "**Plot:** " +:+ d_overview details)
                     (Some (DataDetails details))
                     (Some [ "Movies like " +:+ d_title details;
                             "More " +:+ d_director details +:+ " films";
                             "Trivia about this movie" ])
                     None)
          | None => not_found
          end
      | _ =>
          Ret (mkChatResponse
                 ("I found several movies matching '" +:+ py_str title +:+ "':" +:+ nl +:+ nl +:+
                  movie_lines 80 1 movies +:+
                  "Which one are you interested in?")
                 (Some (DataMovies movies None))
                 (Some (map (fun movie => "Tell me about " +:+ mv_title movie) (firstn 3 movies)))
                 None)
      end
  | None => Ret search_no_title
  end.

(** The tail of [_handle_trivia]: trivia about a popular movie picked at
    random, else a fixed question. *)
Definition random_trivia : prog ChatResponse :=
  let ask :=
    Ret (mkChatResponse
           "I'd love to share some movie trivia! Which movie are you curious about? 🎭"
           None None (Some "trivia")) in
  let* popular_movies := await (get_genre_recommendations "action" None 5) in
  match popular_movies with
  | _ :: _ =>
      let* random_movie := choice popular_movies in
      let* trivia := await (get_movie_trivia (mv_id random_movie)) in
      match trivia with
      | fact :: _ =>
          Ret (mkChatResponse
                 ("🎬 **Did you know?** (About " +:+ mv_title random_movie +:+ ")" +:+ nl +:+ nl +:+ fact)
                 None
                 (Some [ "More movie trivia";
                         "Tell me about " +:+ mv_title random_movie;
                         "Random movie facts" ])
                 (Some "trivia"))
      | [] => ask
      end
  | [] => ask
  end.

(** The numbered facts [f"{i}. {fact}\n\n"]. *)
Fixpoint fact_lines (i : nat) (trivia : list string) : string :=
  match trivia with
  | [] => ""
  | fact :: rest => str_of_nat i +:+ ". " +:+ fact +:+ nl +:+ nl +:+ fact_lines (S i) rest
  end.

Definition _handle_trivia (intent_result : IntentResult) : prog ChatResponse :=
  let ents := entities intent_result in
  match ents !! "movie_title" with
  | Some title =>
      let* movies := await (search_movies title None 1) in
      match movies with
      | movie :: _ =>
          let* trivia := await (get_movie_trivia (mv_id movie)) in
          match trivia with
          | _ :: _ =>
              Ret (mkChatResponse
                     ("🎬 **Fun facts about " +:+ mv_title movie +:+ ":**" +:+ nl +:+ nl +:+
                      fact_lines 1 trivia)
                     None
                     (Some [ "More about " +:+ mv_title movie;
                             "Random movie trivia";
                             "Movies like " +:+ mv_title movie ])
                     (Some "trivia"))
          | [] => random_trivia
          end
      | [] => random_trivia
      end
  | None => random_trivia
  end.

Definition some_text (o : option string) : string := default "" o.

(** The lines of [person_data["popular_movies"][:3]]. *)
Definition role_lines (roles : list (string * string * string)) : string :=
  String.concat ""
    (map (fun '(title, year, character) =>
            "• " +:+ title +:+ " (" +:+ year +:+ ")" +:+
            (if truthy character then " as " +:+ character else "") +:+ nl)
         roles).

Definition _handle_actor_info (intent_result : IntentResult) : prog ChatResponse :=
  let ents := entities intent_result in
  let ask :=
    Ret (mkChatResponse
           "Which actor are you interested in learning about? Please tell me their name! 🎭"
           None None None) in
  match ents !! "person_names" with
  | Some names =>
      let* actor_name := first_item names in
      let* person_data := await (search_person actor_name) in
      match person_data with
      | Some person_data =>
          Ret (mkChatResponse
                 ("🎭 **" +:+ p_name person_data +:+ "**" +:+ nl +:+ nl +:+
                  (if truthy (p_biography person_data)
                   then py_take 200 (p_biography person_data) +:+ "..." +:+ nl +:+ nl
                   else "") +:+
                  (if some_truthy (p_birthday person_data)
                   then "📅 **Born:** " +:+ some_text (p_birthday person_data) +:+
                        (if some_truthy (p_place_of_birth person_data)
                         then " in " +:+ some_text (p_place_of_birth person_data)
                         else "") +:+
                        nl +:+ nl
                   else "") +:+
                  (match p_popular_movies person_data with
                   | [] => ""
                   | roles => "🎬 **Popular Movies:**" +:+ nl +:+ role_lines (firstn 3 roles)
                   end))
                 (Some (DataPerson person_data))
                 (Some [ "More " +:+ p_name person_data +:+ " movies";
                         "Tell me about their latest film";
                         "Other popular actors" ])
                 None)
      | None => ask
      end
  | None => ask
  end.

Definition film_lines (films : list (string * string)) : string :=
  String.concat ""
    (map (fun '(title, year) => "• " +:+ title +:+ " (" +:+ year +:+ ")" +:+ nl) films).

Definition _handle_director_info (intent_result : IntentResult) : prog ChatResponse :=
  let ents := entities intent_result in
  let ask :=
    Ret (mkChatResponse
           "Which director would you like to know about? Please tell me their name! 🎥"
           None None None) in
  match ents !! "person_names" with
  | Some names =>
      let* director_name := first_item names in
      let* person_data := await (search_person director_name) in
      match person_data with
      | Some person_data =>
          match p_directed_movies person_data with
          | [] => ask
          | films =>
              Ret (mkChatResponse
                     ("🎬 **" +:+ p_name person_data +:+ "** (Director)" +:+ nl +:+ nl +:+
                      (if truthy (p_biography person_data)
                       then py_take 200 (p_biography person_data) +:+ "..." +:+ nl +:+ nl
                       else "") +:+
                      "🎥 **Directed Films:**" +:+ nl +:+
                      film_lines (firstn 5 films))
                     (Some (DataDirector person_data))
                     (Some [ "More " +:+ p_name person_data +:+ " films";
                             "Tell me about their best movie";
                             "Other famous directors" ])
                     None)
          end
      | None => ask
      end
  | None => ask
  end.

(** [str.title]: a capital after anything that is not a letter. *)
Fixpoint title_chars (after_letter : bool) (l : list ascii) : list ascii :=
  match l with
  | [] => []
  | c :: l' =>
      (if after_letter then lower_char c else upper_char c)
      :: title_chars (is_upper c || is_lower c) l'
  end.

Definition py_title (s : string) : string := text_of (title_chars false (chars s)).

Definition _handle_genre_query (intent_result : IntentResult) : prog ChatResponse :=
  let ents := entities intent_result in
  let ask :=
    Ret (mkChatResponse
           "What genre are you interested in? Action, comedy, horror, romance, sci-fi, or something else? 🎭"
           None None (Some "recommendations")) in
  match ents !! "genres" with
  | Some gs =>
      let* genre := first_item gs in
      let* movies := await (get_genre_recommendations genre None 5) in
      match movies with
      | _ :: _ =>
          Ret (mkChatResponse
                 ("🎬 **Great " +:+ py_title genre +:+ " Movies:**" +:+ nl +:+ nl +:+
                  movie_lines 80 1 (firstn 3 movies) +:+
                  "Would you like more " +:+ genre +:+
                  " recommendations or details about any of these?")
                 (Some (DataMovies movies (Some genre)))
                 (Some [ "More " +:+ genre +:+ " movies";
                         "Best " +:+ genre +:+ " movies of 2023";
                         "Different genre" ])
                 (Some "recommendations"))
      | [] => ask
      end
  | None => ask
  end.

Definition plot_no_title : ChatResponse :=
  mkChatResponse
    "Which movie's plot would you like to know about? Please tell me the title! 📖"
    None None None.

Definition _handle_plot_query (intent_result : IntentResult) : prog ChatResponse :=
  let ents := entities intent_result in
  match ents !! "movie_title" with
  | Some title =>
      let* movies := await (search_movies title None 1) in
      match movies with
      | movie :: _ =>
          Ret (mkChatResponse
                 ("**" +:+ mv_title movie +:+ "** (" +:+ mv_year movie +:+ ")" +:+ nl +:+ nl +:+
                  "📖 **Plot:** " +:+ mv_overview movie)
                 None
                 (Some [ "Cast of " +:+ mv_title movie;
                         "Movies like " +:+ mv_title movie;
                         "More details about this movie" ])
                 None)
      | [] => Ret plot_no_title
      end
  | None => Ret plot_no_title
  end.

Definition rating_no_title : ChatResponse :=
  mkChatResponse
    "Which movie's rating would you like to know? Please tell me the title! ⭐"
    None None None.

Definition _handle_rating_query (intent_result : IntentResult) : prog ChatResponse :=
  let ents := entities intent_result in
  match ents !! "movie_title" with
  | Some title =>
      let* movies := await (search_movies title None 1) in
      match movies with
      | movie :: _ =>
          let* details := await (get_movie_details (mv_id movie)) in
          match details with
          | Some details =>
              let tmdb_rating := number_value (d_rating_tmdb details) in
              Ret (mkChatResponse
                     ("**" +:+ d_title details +:+ "** (" +:+ d_year details +:+ ") Ratings:" +:+ nl +:+ nl +:+
                      "⭐ **TMDb:** " +:+ fmt_1f (d_rating_tmdb details) +:+ "/10" +:+ nl +:+
                      (if some_truthy (d_rating_imdb details)
                       then "🎬 **IMDb:** " +:+ some_text (d_rating_imdb details) +:+ "/10" +:+ nl
                       else "") +:+
                      (if some_truthy (d_rating_rt details)
                       then "🍅 **Rotten Tomatoes:** " +:+ some_text (d_rating_rt details) +:+ nl
                       else "") +:+
                      (if Qle_bool 8 tmdb_rating
                       then nl +:+ "🏆 This is considered an excellent movie!"
                       else if Qle_bool 7 tmdb_rating
                       then nl +:+ "👍 This is a well-rated movie!"
                       else if Qle_bool 6 tmdb_rating
                       then nl +:+ "👌 This movie has decent ratings."
                       else nl +:+ "📝 This movie has mixed reviews."))
                     None
                     (Some [ "Tell me more about " +:+ d_title details;
                             "Movies like " +:+ d_title details;
                             "Other highly rated movies" ])
                     None)
          | None => Ret rating_no_title
          end
      | [] => Ret rating_no_title
      end
  | None => Ret rating_no_title
  end.

Definition debate_topics : list DebateTopic :=
  [ mkTopic "Marvel vs DC: Which has better movies?"
      ("🦸‍♂️ **Marvel vs DC Debate**" +:+ nl +:+ nl +:+
       "Which cinematic universe do you think creates better superhero movies and why?")
      [ "Marvel has better storytelling"; "DC has more depth"; "Both are great in different ways" ];
    mkTopic "Sequels vs Originals: Do sequels ruin franchises?"
      ("🎬 **Sequels Debate**" +:+ nl +:+ nl +:+
       "Do you think sequels generally enhance or diminish the original movie's legacy?")
      [ "Sequels often ruin originals"; "Good sequels enhance the story"; "It depends on the execution" ];
    mkTopic "Streaming vs Cinema: Is the theater experience dying?"
      ("🎭 **Cinema Experience Debate**" +:+ nl +:+ nl +:+
       "With streaming platforms, do you think the traditional movie theater experience is still important?")
      [ "Nothing beats the cinema"; "Streaming is more convenient"; "Both have their place" ];
    mkTopic "CGI vs Practical Effects: Which creates better movies?"
      ("🎨 **Effects Debate**" +:+ nl +:+ nl +:+
       "Do you prefer movies with practical effects or modern CGI, and why?")
      [ "Practical effects feel more real"; "CGI allows more creativity"; "Best when combined well" ] ].

(** The tail of [_handle_debate]: a topic picked at random from the table. *)
Definition random_debate : prog ChatResponse :=
  let* topic := choice debate_topics in
  Ret (mkChatResponse (t_question topic)
         (Some (DataDebateTopic topic))
         (Some (t_options topic ++ ["Different debate topic"]))
         (Some "debate")).

Definition _handle_debate (intent_result : IntentResult) : prog ChatResponse :=
  let ents := entities intent_result in
  match ents !! "movie_title" with
  | Some title =>
      let* movies := await (search_movies title None 1) in
      match movies with
      | movie :: _ =>
          Ret (mkChatResponse
                 ("🎬 **Let's debate about " +:+ mv_title movie +:+ "!**" +:+ nl +:+ nl +:+
                  "This " +:+ mv_year movie +:+ " film has a " +:+ fmt_1f (mv_rating movie) +:+
                  "/10 rating. " +:+
                  "What's your take on it? Is it overrated, underrated, or perfectly rated?" +:+ nl +:+ nl +:+
                  "**" +:+ mv_title movie +:+ "** - What do you think?")
                 (Some (DataMovie movie (Some "movie_rating")))
                 (Some [ mv_title movie +:+ " is overrated";
                         mv_title movie +:+ " is underrated";
                         mv_title movie +:+ " is perfectly rated";
                         "Compare it to similar movies" ])
                 (Some "debate"))
      | [] => random_debate
      end
  | None => random_debate
  end.

Definition dispatch (intent_result : IntentResult) : prog ChatResponse :=
  match intent intent_result with
  | GREETING => _handle_greeting
  | RECOMMEND => _handle_recommendation intent_result
  | SEARCH => _handle_search intent_result
  | TRIVIA => _handle_trivia intent_result
  | DEBATE => _handle_debate intent_result
  | ACTOR_INFO => _handle_actor_info intent_result
  | DIRECTOR_INFO => _handle_director_info intent_result
  | GENRE_QUERY => _handle_genre_query intent_result
  | PLOT_QUERY => _handle_plot_query intent_result
  | RATING_QUERY => _handle_rating_query intent_result
  | _ => _handle_unknown
  end.

(** [generate_response]: any exception of a handler turns into the
    reply for an unknown intent. *)
Definition generate_response (intent_result : IntentResult) : prog ChatResponse :=
  catch (dispatch intent_result) (fun _ => _handle_unknown).

(* ================================================================== *)
(** * main.py *)
(* ================================================================== *)

(** [class ChatRequest(BaseModel)] *)
Record ChatRequest : Type := mkChatRequest {
  rq_message : string;
  rq_conversation_id : option string
}.

(** [class ChatResponseModel(BaseModel)], without [processing_time]. *)
Record ChatResponseModel : Type := mkChatResponseModel {
  rs_response : string;
  rs_conversation_id : string;
  rs_suggestions : option (list string);
  rs_data : option payload;
  rs_intent : option string;
  rs_response_type : option string
}.

(** An entry of the message log: a user turn or a bot reply. *)
Inductive Message : Type :=
| UserMessage (user : string) (intent_tag : string) (ents : gmap string value)
| BotMessage (bot : string).

Record Context : Type := mkContext {
  recent_titles : list string;
  recent_genres : list string
}.

(** A value of the global dict [conversations]. *)
Record Conversation : Type := mkConversation {
  messages : list Message;
  context : Context
}.

Definition new_conversation : Conversation := mkConversation [] (mkContext [] []).

(** [l[-n:]] *)
Definition last_n {A : Type} (n : nat) (l : list A) : list A := skipn (length l - n) l.

(** [request.conversation_id or "default"] *)
Definition conversation_id_of (request : ChatRequest) : string :=
  match rq_conversation_id request with
  | Some s => if truthy s then s else "default"
  | None => "default"
  end.

Definition vague_phrases : list string :=
  [ "tell me more about these movies"; "tell me more"; "more info on these";
    "details on these movies"; "what else?"; "anything else?"; "more info";
    "more details"; "elaborate"; "expand"; "explain" ].

(** [str(x)] of a float written as the decimal [q]: its decimal
    expansion, with at least one and at most sixteen digits after the
    point. *)
Fixpoint frac_digits (fuel : nat) (rem d : Z) : string :=
  match fuel with
  | 0 => ""
  | S f =>
      str_of_Z (10 * rem / d) +:+
      (if ((10 * rem) mod d =? 0)%Z then "" else frac_digits f ((10 * rem) mod d) d)
  end.

Definition str_of_Q (q : Q) : string :=
  let n := Z.abs (Qnum q) in
  let d := Z.pos (Qden q) in
  (if (Qnum q <? 0)%Z then "-" else "") +:+
  str_of_Z (n / d) +:+ "." +:+ frac_digits 16 (n mod d) d.

(** [str(x)] of a number: an [int] prints without a point. *)
Definition str_of_number (x : number) : string :=
  match x with
  | NInt z => str_of_Z z
  | NFloat q => str_of_Q q
  end.

(** The reply of the direct movie-info path. The dicts of
    [search_movies] hold no [plot], [cast] or [director] key, so the
    defaults of [movie.get] are what is rendered. *)
Definition movie_info_reply (conversation_id : string) (movie : Movie) : ChatResponseModel :=
  mkChatResponseModel
    ("🎬 **" +:+ mv_title movie +:+ "** (" +:+ mv_year movie +:+ ")" +:+ nl +:+ nl +:+
     "**Rating:** " +:+ str_of_number (mv_rating movie) +:+ "/10" +:+ nl +:+ nl +:+
     "**Plot:** " +:+ "Plot information not available." +:+ nl +:+ nl)
    conversation_id
    (Some [ "More movies like " +:+ mv_title movie;
            "Trivia about " +:+ mv_title movie;
            "Recommend something else" ])
    (Some (DataMovie movie None))
    (Some "movie_info")
    (Some "movie_info").

(** The [try] block under [if movie_title:]: a reply, or [None] to let
    normal processing continue. *)
Definition direct_movie_info (conversation_id movie_title : string)
    : prog (option ChatResponseModel) :=
  catch
    (let* movies := await (search_movies (VStr movie_title) None 1) in
     match movies with
     | movie :: _ => Ret (Some (movie_info_reply conversation_id movie))
     | [] => Ret None
     end)
    (fun _ => Ret None).

(** The title the direct path settles on: the capture of the lead
    phrase, else, for a message of at most three words, the first recent
    title that holds the message or is held by it. *)
Definition direct_title (user_message : string) (recent : list string) : option string :=
  match re_search true tell_about_pattern user_message with
  | Some m => Some (strip (m_group user_message m 1))
  | None =>
      if word_count user_message <=? 3
      then find (fun title =>
                   py_in (lower user_message) (lower title) ||
                   py_in (lower title) (lower user_message))
                recent
      else None
  end.

(** The three replies of the vague follow-up branch. *)
Definition clarification (conversation_id : string) (ctx : Context) : ChatResponseModel :=
  match recent_titles ctx, recent_genres ctx with
  | _ :: _, _ =>
      mkChatResponseModel
        ("Would you like more details about one of these movies: " +:+
         join ", " (recent_titles ctx) +:+ "? Please specify the title! 📖")
        conversation_id
        (Some (map (fun t => "Tell me about " +:+ t) (recent_titles ctx)))
        None (Some "clarification") None
  | [], _ :: _ =>
      mkChatResponseModel
        ("Are you interested in more movies from these genres: " +:+
         join ", " (recent_genres ctx) +:+
         "? You can ask for recommendations or details! 🎬")
        conversation_id
        (Some (map (fun g => "Recommend more " +:+ g +:+ " movies") (recent_genres ctx)))
        None (Some "clarification") None
  | [], [] =>
      mkChatResponseModel
        "Which movie or genre would you like to know more about? Please specify! 📖"
        conversation_id None None (Some "clarification") None
  end.

(** The update of the rolling windows from the entities of the turn
    (the extractor stores only text under title and genre). *)
Definition track_entities (ents : gmap string value) (ctx : Context) : Context :=
  let titles :=
    match ents !! "title" with
    | Some (VStr t) => if truthy t then last_n 5 (recent_titles ctx ++ [t]) else recent_titles ctx
    | _ => recent_titles ctx
    end in
  let genres :=
    match ents !! "genre" with
    | Some (VStr g) => if truthy g then last_n 5 (recent_genres ctx ++ [g]) else recent_genres ctx
    | _ => recent_genres ctx
    end in
  mkContext titles genres.

(** What the log keeps of a reply. *)
Definition logged (reply : string) : string :=
  if 100 <? py_len reply then py_take 100 reply +:+ "..." else reply.

(** Normal processing: from "Update conversation context" to the final
    [return] of the [try] block. *)
Definition normal_path (conversations : gmap string Conversation)
    (conversation_id user_message : string) (intent_result : IntentResult)
    : prog (ChatResponseModel * gmap string Conversation) :=
  let conv := default new_conversation (conversations !! conversation_id) in
  let ents := entities intent_result in
  let ctx := track_entities ents (context conv) in
  let log :=
    last_n 10
      (messages conv ++ [UserMessage user_message (intent_value (intent intent_result)) ents]) in
  let* chat_response := generate_response intent_result in
  let log := log ++ [BotMessage (logged (content chat_response))] in
  Ret (mkChatResponseModel (content chat_response) conversation_id
         (suggestions chat_response) (data chat_response)
         (Some (intent_value (intent intent_result)))
         (response_type chat_response),
       <[conversation_id := mkConversation log ctx]> conversations).

(** The body of the [try] block of [chat_endpoint]. The loop that looks
    up [last_bot_message] is left out: the value is never read. *)
Definition chat_try (conversations : gmap string Conversation) (request : ChatRequest)
    : prog (ChatResponseModel * gmap string Conversation) :=
  let user_message := strip (rq_message request) in
  let conversation_id := conversation_id_of request in
  if negb (truthy user_message)
  then Raise (HTTPException 400 "Message cannot be empty")
  else
    let intent_result := classify user_message in
    let conversations :=
      match conversations !! conversation_id with
      | Some _ => conversations
      | None => <[conversation_id := new_conversation]> conversations
      end in
    let conv := default new_conversation (conversations !! conversation_id) in
    let normal := normal_path conversations conversation_id user_message intent_result in
    match direct_title user_message (recent_titles (context conv)) with
    | Some (String _ _ as movie_title) =>
        let* reply := direct_movie_info conversation_id movie_title in
        match reply with
        | Some r => Ret (r, conversations)
        | None => normal
        end
    | _ =>
        if existsb (String.eqb (lower user_message)) vague_phrases
        then
          if value_truthy (entities intent_result !! "title") then normal
          else Ret (clarification conversation_id (context conv), conversations)
        else normal
    end.

Definition apology (request : ChatRequest) : ChatResponseModel :=
  mkChatResponseModel
    "I'm sorry, but I encountered an error processing your request. Please try again! 🎬"
    (conversation_id_of request)
    (Some [ "Try a different question"; "Search for a movie"; "Ask for recommendations" ])
    None (Some "error") None.

(** [chat_endpoint]: whatever the [try] block raises is caught by
    [except Exception] and answered with the apology. The only [raise]
    of the block comes before it touches [conversations]. *)
Definition chat_endpoint (conversations : gmap string Conversation) (request : ChatRequest)
    : prog (ChatResponseModel * gmap string Conversation) :=
  catch (chat_try conversations request)
        (fun _ => Ret (apology request, conversations)).

(** What the caller of an endpoint sees: the body of a normal reply, or
    the error status of an [HTTPException] that leaves the handler. *)
Inductive http_result (A : Type) : Type :=
| Http200 (body : A)
| HttpError (status_code : nat) (detail : string).

Arguments Http200 {A} body.
Arguments HttpError {A} status_code detail.

Definition served {A : Type} (r : exn + A) : http_result A :=
  match r with
  | inr a => Http200 a
  | inl (HTTPException code detail) => HttpError code detail
  | inl _ => HttpError 500 "Internal Server Error"
  end.

(** [get_movie_details] of main.py, a sibling endpoint: its
    [except HTTPException: raise] lets the status of a client error
    through. *)
Definition movie_details_endpoint (movie_id : Z) : prog Details :=
  catch
    (let* movie := await (get_movie_details movie_id) in
     match movie with
     | Some movie => Ret movie
     | None => Raise (HTTPException 404 "Movie not found")
     end)
    (fun e =>
       match e with
       | HTTPException _ _ => Raise e
       | _ => Raise (HTTPException 500 "Error fetching movie details")
       end).

(** [clear_conversation] *)
Definition clear_conversation (conversations : gmap string Conversation)
    (conversation_id : string) : (exn + string) * gmap string Conversation :=
  match conversations !! conversation_id with
  | Some _ =>
      (inr ("Conversation " +:+ conversation_id +:+ " cleared"),
       delete conversation_id conversations)
  | None => (inl (HTTPException 404 "Conversation not found"), conversations)
  end.

(** The states of [conversations] the endpoints produce from the empty
    dict when the requests are served one after another, each turn
    running from its start to its end before the next request begins,
    whatever the catalog and [random.choice] answer. *)
Inductive reachable : gmap string Conversation -> Prop :=
| reach_start : reachable ∅
| reach_chat st request reply st' :
    reachable st ->
    returns (chat_endpoint st request) (reply, st') ->
    reachable st'
| reach_clear st conversation_id :
    reachable st ->
    reachable (snd (clear_conversation st conversation_id)).

(** A world in which the catalog finds nothing and [random.choice]
    picks the first element. *)
Definition quiet_world (c : call) : answer c :=
  match c with
  | search_movies _ _ _ => []
  | get_movie_details _ => None
  | get_genre_recommendations _ _ _ => []
  | search_person _ => None
  | get_movie_trivia _ => []
  | random_choice _ => 0
  end.

(** A sequence of turns in one world, from a given state. *)
Fixpoint chat_turns (world : forall c, answer c) (st : gmap string Conversation)
    (turns : list ChatRequest) : gmap string Conversation :=
  match turns with
  | [] => st
  | request :: rest =>
      match run_with world (chat_endpoint st request) with
      | inr (_, st') => chat_turns world st' rest
      | inl _ => chat_turns world st rest
      end
  end.

(* ================================================================== *)
(** * movie_api_service.py: the genre table *)
(* ================================================================== *)

(** [genre_map] of [_get_genre_id], in the order of the dict literal. *)
Definition genre_map : list (string * Z) :=
  [ ("action", 28%Z);
    ("adventure", 12%Z);
    ("animation", 16%Z);
    ("comedy", 35%Z);
    ("crime", 80%Z);
    ("documentary", 99%Z);
    ("drama", 18%Z);
    ("family", 10751%Z);
    ("fantasy", 14%Z);
    ("history", 36%Z);
    ("horror", 27%Z);
    ("music", 10402%Z);
    ("mystery", 9648%Z);
    ("romance", 10749%Z);
    ("science fiction", 878%Z);
    ("sci-fi", 878%Z);
    ("thriller", 53%Z);
    ("war", 10752%Z);
    ("western", 37%Z) ].

(** [dict.get] on a dict literal with text keys: the value of the first
    entry with that key (the keys of [genre_map] are distinct). *)
Fixpoint table_get {V : Type} (k : string) (d : list (string * V)) : option V :=
  match d with
  | [] => None
  | (k', v) :: d' => if String.eqb k' k then Some v else table_get k d'
  end.

(** [_get_genre_id]: [genre_map.get(genre_name.lower())] *)
Definition _get_genre_id (genre_name : string) : option Z :=
  table_get (lower genre_name) genre_map.

(* ================================================================== *)
(** * main.py: the other endpoints *)
(* ================================================================== *)

(** [get_conversation] *)
Definition get_conversation (conversations : gmap string Conversation)
    (conversation_id : string) : exn + (string * Conversation) :=
  match conversations !! conversation_id with
  | Some conv => inr (conversation_id, conv)
  | None => inl (HTTPException 404 "Conversation not found")
  end.

(** The counters of [get_stats]. *)
Record Stats : Type := mkStats {
  active_conversations : nat;
  total_messages : nat
}.

Definition get_stats (conversations : gmap string Conversation) : Stats :=
  mkStats (size conversations)
          (list_sum (map (fun conv => length (messages conv))
                         (map snd (map_to_list conversations)))).

(** The handlers [except HTTPException: raise] followed by
    [except Exception: raise HTTPException(500, detail)]. *)
Definition reraise_http {A : Type} (detail : string) (e : exn) : prog A :=
  match e with
  | HTTPException _ _ => Raise e
  | _ => Raise (HTTPException 500 detail)
  end.

(** [search_person] of main.py *)
Definition person_endpoint (name : string) : prog Person :=
  catch
    (let* person := await (search_person name) in
     match person with
     | Some person => Ret person
     | None => Raise (HTTPException 404 "Person not found")
     end)
    (reraise_http "Error searching for person").

(** [class TriviaRequest(BaseModel)] *)
Record TriviaRequest : Type := mkTriviaRequest {
  tq_movie_id : option Z;
  tq_movie_title : option string
}.

(** The dict [get_trivia] returns. *)
Record TriviaReply : Type := mkTriviaReply {
  tr_trivia : list string;
  tr_id : Z;
  tr_title : string;
  tr_year : string
}.

(** Truth value of an optional [int]. *)
Definition id_truthy (o : option Z) : bool :=
  match o with
  | Some z => negb (z =? 0)%Z
  | None => false
  end.

(** [get_trivia] of main.py *)
Definition get_trivia (request : TriviaRequest) : prog TriviaReply :=
  catch
    (let* movie_id :=
       if negb (id_truthy (tq_movie_id request)) && some_truthy (tq_movie_title request)
       then
         let* movies :=
           await (search_movies (VStr (some_text (tq_movie_title request))) None 1) in
         match movies with
         | movie :: _ => Ret (Some (mv_id movie))
         | [] => Ret (tq_movie_id request)
         end
       else Ret (tq_movie_id request) in
     if negb (id_truthy movie_id)
     then Raise (HTTPException 400 "Movie ID or title required")
     else
       let movie_id := default 0%Z movie_id in
       let* trivia := await (get_movie_trivia movie_id) in
       let* movie_details := await (get_movie_details movie_id) in
       Ret (mkTriviaReply trivia movie_id
              (match movie_details with Some d => d_title d | None => "Unknown" end)
              (match movie_details with Some d => d_year d | None => "Unknown" end)))
    (reraise_http "Error fetching trivia").

(* ================================================================== *)
(** * Notions used to state the properties *)
(* ================================================================== *)

(** Some rule of some intent category matches the (lowered, trimmed)
    message. *)
Definition any_rule_matches (table : list (Intent * list string)) (message_lower : string)
    : bool :=
  existsb
    (fun '(_, pats) => existsb (fun p => matched (re_search false p message_lower)) pats)
    table.

(** The rule-hit count of an intent: how many of its rules match. *)
Definition hits (message_lower : string) (pats : list string) : nat :=
  length (List.filter (fun p => matched (re_search false p message_lower)) pats).

(** The bag as it stands when the title heuristics are tried: the quoted
    title and the single genre. *)
Definition bag_before_title (message : string) : gmap string value :=
  let ents : gmap string value := ∅ in
  let ents :=
    match re_findall false quoted_pattern message with
    | q :: _ => <["title" := VStr q]> ents
    | [] => ents
    end in
  match re_search true genre_pattern message with
  | Some m => <["genre" := VStr (lower (m_group message m 1))]> ents
  | None => ents
  end.

(** One of the three [return entities] inside the title heuristics is
    taken. *)
Definition returns_early (message : string) (i : Intent) : bool :=
  matched (re_search true tell_about_pattern message) ||
  short_with_capital message i ||
  capital_initial (bag_before_title message) message.

(** The rule-hit count of intent [k] according to a pattern table, and
    the total over all the intents of the table. *)
Fixpoint hits_of (table : list (Intent * list string)) (message_lower : string)
    (k : Intent) : nat :=
  match table with
  | [] => 0
  | (i, pats) :: rest =>
      if decide (i = k) then hits message_lower pats else hits_of rest message_lower k
  end.

Definition total_hits (table : list (Intent * list string)) (message_lower : string)
    : nat :=
  fold_right Nat.add 0 (map (fun '(_, pats) => hits message_lower pats) table).

(** Every raised exception of [p] satisfies [P]. *)
Fixpoint all_raise {A : Type} (P : exn -> Prop) (p : prog A) : Prop :=
  match p with
  | Ret _ => True
  | Raise e => P e
  | Call c k => forall x, all_raise P (k x)
  end.

(** The entries of the score table as the scoring loops leave it: the
    intents with a hit, in the order of the pattern table, each with its
    hit count. *)
Definition scored (message_lower : string) (table : list (Intent * list string))
    : list (Intent * nat) :=
  flat_map
    (fun '(i, pats) =>
       if hits message_lower pats =? 0 then [] else [(i, hits message_lower pats)])
    table.

(** The double quote as a character. *)
Definition dqc : ascii := ascii_of_nat 34.

(** Every value [p] can return satisfies [P]. *)
Fixpoint all_ret {A : Type} (P : A -> Prop) (p : prog A) : Prop :=
  match p with
  | Ret a => P a
  | Raise _ => True
  | Call c k => forall x, all_ret P (k x)
  end.

(** The bounds the rolling windows and the message log keep between
    turns. *)
Definition conv_bounded (log_max : nat) (conv : Conversation) : Prop :=
  length (recent_titles (context conv)) <= 5 /\
  length (recent_genres (context conv)) <= 5 /\
  length (messages conv) <= log_max.

Definition store_bounded (log_max : nat) (st : gmap string Conversation) : Prop :=
  forall id conv, st !! id = Some conv -> conv_bounded log_max conv.

(** What closes a lead-phrase capture stands at position [q]: a
    question mark, a period, or the end of the text. *)
Definition closes_at (text : list ascii) (q : nat) : Prop :=
  nth_error text q = Some "?"%char \/ nth_error text q = Some "."%char \/
  at_eol text q = true.

(** The text ends with a question mark or a period. *)
Definition ends_with_mark (s : string) : bool :=
  match last (chars s) with
  | Some c => Ascii.eqb c "?" || Ascii.eqb c "."
  | None => false
  end.

(** The keys [_extract_entities] writes. *)
Definition entity_keys : list string :=
  ["title"; "genre"; "year"; "genres"; "person_names"].

(** ** Notions for the further properties *)

(** What the extractor keeps true of a bag: text under title and genre,
    a year between 1900 and 2099, a non-empty list of distinct keys of
    [genre_patterns] under genres, a non-empty list under person_names. *)
Definition bag_well_formed (ents : gmap string value) : Prop :=
  (forall v, ents !! "title" = Some v -> exists s, v = VStr s) /\
  (forall v, ents !! "genre" = Some v -> exists s, v = VStr s) /\
  (forall v, ents !! "year" = Some v ->
             exists y, v = VInt y /\ (1900 <= y <= 2099)%Z) /\
  (forall v, ents !! "genres" = Some v ->
             exists g gs, v = VList (g :: gs) /\ NoDup (g :: gs) /\
                          forall x, In x (g :: gs) -> In x (map fst genre_patterns)) /\
  (forall v, ents !! "person_names" = Some v -> exists n ns, v = VList (n :: ns)).

(** [p] makes at most [n] calls on any of its paths. *)
Inductive calls_le {A : Type} : nat -> prog A -> Prop :=
| calls_ret n a : calls_le n (Ret a)
| calls_raise n e : calls_le n (Raise e)
| calls_call n c k : (forall x, calls_le n (k x)) -> calls_le (S n) (Call c k).

(** The conversation of [id], created if it is not there. *)
Definition ensure (id : string) (st : gmap string Conversation)
    : gmap string Conversation :=
  match st !! id with
  | Some _ => st
  | None => <[id := new_conversation]> st
  end.

Definition is_bot (m : Message) : bool :=
  match m with BotMessage _ => true | UserMessage _ _ _ => false end.

(** User and bot entries alternate. *)
Fixpoint alternating (log : list Message) : Prop :=
  match log with
  | a :: (b :: _) as rest => is_bot a <> is_bot b /\ alternating rest
  | _ => True
  end.

(** The shape the message log keeps: alternating entries, the last one a
    bot reply; user texts not empty, bot texts of at most 103 code
    points. *)
Definition log_shaped (log : list Message) : Prop :=
  alternating log /\
  (log = [] \/ exists b, last log = Some (BotMessage b)) /\
  Forall (fun m => match m with
                   | UserMessage u _ _ => u <> ""
                   | BotMessage b => py_len b <= 103
                   end) log.

(** The number of calls [p] makes when the outside answers as [world]. *)
Fixpoint count_calls {A : Type} (world : forall c, answer c) (p : prog A) : nat :=
  match p with
  | Call c k => S (count_calls world (k (world c)))
  | _ => 0
  end.

(** The values [response_type] takes in the replies of the handlers. *)
Definition handler_response_types : list (option string) :=
  [None; Some "recommendations"; Some "trivia"; Some "debate"].

(** A reply of the response generator with a text and a known type. *)
Definition good_reply (cr : ChatResponse) : Prop :=
  truthy (content cr) = true /\ In (response_type cr) handler_response_types.

(** The intent tags a chat reply can carry: the value of an intent, or
    one of the three tags of the endpoint itself. *)
Definition reply_intents : list (option string) :=
  map (fun i => Some (intent_value i))
      [GREETING; RECOMMENDATION; RECOMMEND; SEARCH; TRIVIA; DEBATE; ACTOR_INFO; DIRECTOR_INFO;
       GENRE_QUERY; YEAR_QUERY; RATING_QUERY; PLOT_QUERY; UNKNOWN]
  ++ [Some "movie_info"; Some "clarification"; Some "error"].

(** The four ways a chat turn ends, with the state it leaves: the
    apology for a blank message, the direct movie-info reply, the
    clarification, or the reply of the response generator. *)
Definition turn_outcome (st : gmap string Conversation) (request : ChatRequest)
    (reply : ChatResponseModel) (st' : gmap string Conversation) : Prop :=
  let id := conversation_id_of request in
  let umsg := strip (rq_message request) in
  let conv := default new_conversation (ensure id st !! id) in
  let r := classify umsg in
  (umsg = EmptyString /\ reply = apology request /\ st' = st) \/
  (umsg <> EmptyString /\ (exists movie, reply = movie_info_reply id movie) /\
   st' = ensure id st) \/
  (umsg <> EmptyString /\ reply = clarification id (context conv) /\ st' = ensure id st) \/
  (umsg <> EmptyString /\
   exists cr,
     good_reply cr /\
     reply = mkChatResponseModel (content cr) id (suggestions cr) (data cr)
               (Some (intent_value (intent r))) (response_type cr) /\
     st' = <[id := mkConversation
                     (last_n 10 (messages conv ++
                                 [UserMessage umsg (intent_value (intent r)) (entities r)])
                      ++ [BotMessage (logged (content cr))])
                     (track_entities (entities r) (context conv))]> (ensure id st)).

(** What a stored conversation keeps between turns besides its bounds:
    a shaped log and windows of non-empty texts. *)
Definition conv_shaped (conv : Conversation) : Prop :=
  log_shaped (messages conv) /\
  Forall (fun t => t <> EmptyString) (recent_titles (context conv)) /\
  Forall (fun g => g <> EmptyString) (recent_genres (context conv)).

(** Every stored conversation is shaped. *)
Definition store_shaped (st : gmap string Conversation) : Prop :=
  forall id conv, st !! id = Some conv -> conv_shaped conv.

(* ================================================================== *)
(** * Properties of the entity bag and of the handlers *)
(* ================================================================== *)

Lemma extract_unfold message i :
  _extract_entities message i =
  match re_search true tell_about_pattern message with
  | Some m => <["title" := VStr (strip (m_group message m 1))]> (bag_before_title message)
  | None =>
      if short_with_capital message i
      then <["title" := VStr (strip message)]> (bag_before_title message)
      else if capital_initial (bag_before_title message) message
      then <["title" := VStr (strip message)]> (bag_before_title message)
      else
        extract_rest message
          (if title_like (bag_before_title message) message
           then <["title" := VStr (strip message)]> (bag_before_title message)
           else bag_before_title message)
  end.
Proof. reflexivity. Qed.

Lemma bag_before_title_keys message k :
  is_Some (bag_before_title message !! k) -> k = "title" \/ k = "genre".
Proof.
  unfold bag_before_title.
  repeat case_match; intros [v Hv];
    repeat (apply lookup_insert_Some in Hv as [[<- _]|[_ Hv]]; [tauto|]);
    by rewrite lookup_empty in Hv.
Qed.

Lemma extract_rest_keys message ents k :
  is_Some (extract_rest message ents !! k) ->
  is_Some (ents !! k) \/ k = "year" \/ k = "genres" \/ k = "person_names".
Proof.
  unfold extract_rest.
  repeat case_match; intros [v Hv];
    repeat (apply lookup_insert_Some in Hv as [[<- _]|[_ Hv]]; [tauto|]);
    eauto.
Qed.

Lemma extract_keys message i k :
  is_Some (_extract_entities message i !! k) -> In k entity_keys.
Proof.
  rewrite (extract_unfold message i). unfold entity_keys.
  assert (Hb : forall v, is_Some (<["title" := v]> (bag_before_title message) !! k) ->
                         k = "title" \/ k = "genre").
  { intros v Hv. destruct (decide ("title" = k)) as [<-|Hne]; [tauto|].
    rewrite lookup_insert_ne in Hv by done.
    by apply (bag_before_title_keys message). }
  intros Hk.
  assert (k = "title" \/ k = "genre" \/ k = "year" \/ k = "genres" \/ k = "person_names")
    as Hcases; [|simpl; intuition congruence].
  repeat case_match; try (apply Hb in Hk; tauto).
  - apply extract_rest_keys in Hk as [Hk|Hk]; [|tauto].
    apply Hb in Hk; tauto.
  - apply extract_rest_keys in Hk as [Hk|Hk]; [|tauto].
    apply bag_before_title_keys in Hk; tauto.
Qed.

Lemma extract_no_movie_title message i :
  _extract_entities message i !! "movie_title" = None.
Proof.
  apply eq_None_not_Some. intros Hk.
  apply extract_keys in Hk. unfold entity_keys in Hk. simpl in Hk.
  repeat destruct Hk as [Hk|Hk]; try discriminate Hk. exact Hk.
Qed.

Lemma no_search_bind {A B} (p : prog A) (f : A -> prog B) :
  no_search p -> (forall a, no_search (f a)) -> no_search (bind p f).
Proof.
  induction 1 as [a|e|c k Hc Hk IH]; intros Hf; simpl.
  - apply Hf.
  - constructor.
  - constructor; [exact Hc|]. intros x. by apply IH.
Qed.

Lemma no_search_catch {A} (p : prog A) (h : exn -> prog A) :
  no_search p -> (forall e, no_search (h e)) -> no_search (catch p h).
Proof.
  induction 1 as [a|e|c k Hc Hk IH]; intros Hh; simpl.
  - constructor.
  - apply Hh.
  - constructor; [exact Hc|]. intros x. by apply IH.
Qed.

Lemma no_search_await {A} (c : call) (f : answer c -> prog A) :
  (forall q y l, c <> search_movies q y l) ->
  (forall x, no_search (f x)) ->
  no_search (bind (await c) f).
Proof. intros Hc Hf. simpl. by constructor. Qed.

Lemma no_search_choice {A} (l : list A) : no_search (choice l).
Proof.
  destruct l as [|d l]; [constructor|].
  unfold choice. apply no_search_await; [discriminate|]. intros x. constructor.
Qed.

Lemma random_trivia_no_search : no_search random_trivia.
Proof.
  unfold random_trivia. apply no_search_await; [discriminate|].
  intros [|m ms]; [constructor|].
  apply no_search_bind; [apply no_search_choice|]. intros movie.
  apply no_search_await; [discriminate|].
  intros [|fact facts]; constructor.
Qed.

Lemma random_debate_no_search : no_search random_debate.
Proof.
  unfold random_debate. apply no_search_bind; [apply no_search_choice|].
  intros topic. constructor.
Qed.

Lemma handle_unknown_no_search : no_search _handle_unknown.
Proof.
  unfold _handle_unknown. apply no_search_bind; [apply no_search_choice|].
  intros c. constructor.
Qed.

(** C1. Whatever the message, the bag that [classify] hands to the
    response generator has its keys among title, genre, year, genres and
    person_names and holds nothing under "movie_title"; so the handlers
    for Search, PlotQuery and RatingQuery answer with their fixed
    clarifying question, those for Trivia and Debate run their generic
    branch, and none of the five (nor [generate_response] on these
    intents) ever calls [search_movies]. *)
Theorem extracted_title_never_reaches_handlers (message : string) :
  let r := classify message in
  (forall k, is_Some (entities r !! k) -> In k entity_keys) /\
  entities r !! "movie_title" = None /\
  _handle_search r = Ret search_no_title /\
  _handle_plot_query r = Ret plot_no_title /\
  _handle_rating_query r = Ret rating_no_title /\
  _handle_trivia r = random_trivia /\
  _handle_debate r = random_debate /\
  no_search (_handle_trivia r) /\
  no_search (_handle_debate r) /\
  match intent r with
  | SEARCH | TRIVIA | DEBATE | PLOT_QUERY | RATING_QUERY => no_search (generate_response r)
  | _ => True
  end.
Proof.
  intros r.
  assert (Hnone : entities r !! "movie_title" = None)
    by apply extract_no_movie_title.
  assert (Hs : _handle_search r = Ret search_no_title)
    by (unfold _handle_search; by rewrite Hnone).
  assert (Hp : _handle_plot_query r = Ret plot_no_title)
    by (unfold _handle_plot_query; by rewrite Hnone).
  assert (Hr : _handle_rating_query r = Ret rating_no_title)
    by (unfold _handle_rating_query; by rewrite Hnone).
  assert (Ht : _handle_trivia r = random_trivia)
    by (unfold _handle_trivia; by rewrite Hnone).
  assert (Hd : _handle_debate r = random_debate)
    by (unfold _handle_debate; by rewrite Hnone).
  split; [intros k; apply extract_keys|].
  repeat split; try assumption.
  - rewrite Ht. apply random_trivia_no_search.
  - rewrite Hd. apply random_debate_no_search.
  - unfold generate_response, dispatch.
    destruct (intent r); try exact I;
      apply no_search_catch; try (intros; apply handle_unknown_no_search).
    + rewrite Hs. constructor.
    + rewrite Ht. apply random_trivia_no_search.
    + rewrite Hd. apply random_debate_no_search.
    + rewrite Hr. constructor.
    + rewrite Hp. constructor.
Qed.

(* ================================================================== *)
(** * Properties of the intent scorer *)
(* ================================================================== *)

Section Scores.
Variable msg : string.

Lemma dict_incr_fresh i acc :
  ~ In i (map fst acc) -> dict_incr i acc = acc ++ [(i, 1)].
Proof.
  induction acc as [|[k v] acc IH]; simpl; intros Hi; [done|].
  destruct (decide (k = i)) as [->|Hne]; [tauto|].
  rewrite IH; [done|tauto].
Qed.

Lemma dict_incr_last i n acc :
  ~ In i (map fst acc) -> dict_incr i (acc ++ [(i, n)]) = acc ++ [(i, S n)].
Proof.
  induction acc as [|[k v] acc IH]; simpl; intros Hi.
  - by destruct (decide (i = i)).
  - destruct (decide (k = i)) as [->|Hne]; [tauto|].
    rewrite IH; [done|tauto].
Qed.

Lemma score_patterns_last i n pats acc :
  ~ In i (map fst acc) ->
  score_patterns msg i pats (acc ++ [(i, n)]) = acc ++ [(i, n + hits msg pats)].
Proof.
  intros Hi. revert n. unfold score_patterns, hits.
  induction pats as [|p pats IH]; intros n; simpl.
  - by rewrite Nat.add_0_r.
  - destruct (matched (re_search false p msg)); simpl.
    + rewrite dict_incr_last by done. rewrite IH. do 3 f_equal. simpl. lia.
    + apply IH.
Qed.

(** One intent adds one entry, at the end, when it has a hit. *)
Lemma score_patterns_fresh i pats acc :
  ~ In i (map fst acc) ->
  score_patterns msg i pats acc =
  acc ++ (if hits msg pats =? 0 then [] else [(i, hits msg pats)]).
Proof.
  intros Hi. unfold hits.
  induction pats as [|p pats IH]; simpl.
  - by rewrite app_nil_r.
  - unfold score_patterns. simpl.
    destruct (matched (re_search false p msg)) eqn:Hp; simpl.
    + rewrite dict_incr_fresh by done.
      fold (score_patterns msg i pats (acc ++ [(i, 1)])).
      by rewrite score_patterns_last.
    + exact IH.
Qed.

Lemma scored_keys table k :
  In k (map fst (scored msg table)) -> In k (map fst table).
Proof.
  induction table as [|[i pats] table IH]; simpl; [done|].
  rewrite map_app, in_app_iff. intros [Hk|Hk]; [|right; by apply IH].
  destruct (hits msg pats =? 0); simpl in Hk; tauto.
Qed.

Lemma score_fold_spec table acc :
  NoDup (map fst table) ->
  (forall k, In k (map fst acc) -> ~ In k (map fst table)) ->
  fold_left (fun sc '(i, pats) => score_patterns msg i pats sc) table acc =
  acc ++ scored msg table.
Proof.
  revert acc. induction table as [|[i pats] table IH]; simpl; intros acc Hnd Hacc.
  - by rewrite app_nil_r.
  - apply NoDup_cons in Hnd as [Hi Hnd].
    rewrite score_patterns_fresh by (intros Hin; apply (Hacc _ Hin); by left).
    rewrite IH, <- app_assoc; [done|done|].
    intros k. rewrite map_app, in_app_iff. intros [Hk|Hk] Hk'.
    + apply (Hacc _ Hk). by right.
    + destruct (hits msg pats =? 0); simpl in Hk; [done|].
      destruct Hk as [<-|[]]. apply Hi. by apply list_elem_of_In.
Qed.

Lemma score_table_spec table :
  NoDup (map fst table) -> score_table table msg = scored msg table.
Proof. intros Hnd. unfold score_table. by rewrite score_fold_spec. Qed.

Lemma scored_no_match table :
  any_rule_matches table msg = false -> scored msg table = [].
Proof.
  unfold any_rule_matches.
  induction table as [|[i pats] table IH]; simpl; [done|].
  intros [Hp Ht]%orb_false_iff. rewrite (IH Ht), app_nil_r.
  assert (hits msg pats = 0) as ->; [|done].
  unfold hits. clear -Hp.
  induction pats as [|p pats IH]; simpl in *; [done|].
  apply orb_false_iff in Hp as [-> Hp]. by apply IH.
Qed.
End Scores.

Lemma patterns_nodup : NoDup (map fst patterns).
Proof. apply (bool_decide_unpack _). vm_compute. reflexivity. Qed.

(** Every pattern of the program is one [re.compile] accepts. *)
Lemma patterns_compile :
  forallb (fun p => matched (compile p))
    (concat (map snd patterns) ++ map snd genre_patterns ++
     [quoted_pattern; genre_pattern; tell_about_pattern; year_pattern; name_pattern;
      "[A-Z]"; "^[A-Z]"]) = true.
Proof. vm_compute. reflexivity. Qed.

(** What [any_rule_matches] decides. *)
Lemma no_rule_matches_spec table msg :
  any_rule_matches table msg = false <->
  (forall i pats p, In (i, pats) table -> In p pats -> re_search false p msg = None).
Proof.
  unfold any_rule_matches. split.
  - intros H i pats p Hi Hp.
    destruct (re_search false p msg) eqn:Hm; [|done].
    assert (existsb
              (fun '(_, pats) => existsb (fun p => matched (re_search false p msg)) pats)
              table = true) as Hex; [|congruence].
    apply existsb_exists. exists (i, pats). split; [done|].
    apply existsb_exists. exists p. by rewrite Hm.
  - intros H. apply not_true_is_false. intros Hex.
    apply existsb_exists in Hex as [[i pats] [Hi Hex]].
    apply existsb_exists in Hex as [p [Hp Hm]].
    by rewrite (H i pats p Hi Hp) in Hm.
Qed.

(** C6. A message on which no rule of any intent category matches is
    classified Unknown, with confidence 0. *)
Theorem classify_no_match_unknown (message : string) :
  any_rule_matches patterns (strip (lower message)) = false ->
  intent (classify message) = UNKNOWN /\ confidence (classify message) = 0%Q.
Proof.
  intros H. unfold classify. cbn [intent confidence].
  rewrite (score_table_spec _ _ patterns_nodup), (scored_no_match _ _ H).
  split; reflexivity.
Qed.

Lemma classify_no_match_unknown_witness :
  any_rule_matches patterns (strip (lower "xyzzy")) = false /\
  intent (classify "xyzzy") = UNKNOWN /\ confidence (classify "xyzzy") = 0%Q.
Proof.
  split; [vm_compute; reflexivity|].
  apply (classify_no_match_unknown "xyzzy"). vm_compute. reflexivity.
Defined.

Lemma dict_get_absent k d : ~ In k (map fst d) -> dict_get k d = None.
Proof.
  induction d as [|[k' v] d IH]; simpl; intros Hk; [done|].
  destruct (decide (k' = k)) as [->|Hne]; [tauto|]. apply IH. tauto.
Qed.

Lemma score_of_scored msg table k :
  NoDup (map fst table) -> score_of (scored msg table) k = hits_of table msg k.
Proof.
  unfold score_of.
  induction table as [|[i pats] table IH]; simpl; intros Hnd; [done|].
  apply NoDup_cons in Hnd as [Hi Hnd].
  destruct (hits msg pats =? 0) eqn:Hz; simpl.
  - destruct (decide (i = k)) as [->|Hne]; [|by apply IH].
    apply Nat.eqb_eq in Hz. rewrite Hz.
    rewrite dict_get_absent; [done|].
    intros Hin. apply Hi. apply list_elem_of_In. by apply (scored_keys msg).
  - destruct (decide (i = k)) as [->|Hne]; [done|by apply IH].
Qed.

Lemma sum_values_scored msg table : sum_values (scored msg table) = total_hits table msg.
Proof.
  unfold sum_values, total_hits.
  induction table as [|[i pats] table IH]; simpl; [done|].
  rewrite map_app, fold_right_app.
  destruct (hits msg pats =? 0) eqn:Hz; simpl.
  - apply Nat.eqb_eq in Hz. by rewrite Hz, IH.
  - by rewrite IH.
Qed.

Lemma hits_of_le_total table msg k : hits_of table msg k <= total_hits table msg.
Proof.
  unfold total_hits. induction table as [|[i pats] table IH]; simpl; [done|].
  destruct (decide (i = k)); lia.
Qed.

(** C7. The confidence is the rule-hit count of the winner over the
    total rule-hit count of all the intents, the denominator being taken
    as at least 1; it is never negative and never exceeds 1. *)
Theorem classify_confidence_bounds (message : string) :
  let msg := strip (lower message) in
  confidence (classify message) =
    (Z.of_nat (hits_of patterns msg (intent (classify message)))
       # Pos.of_nat (Nat.max 1 (total_hits patterns msg))) /\
  (0 <= confidence (classify message))%Q /\
  (confidence (classify message) <= 1)%Q.
Proof.
  intros msg.
  assert (Heq : confidence (classify message) =
                (Z.of_nat (hits_of patterns msg (intent (classify message)))
                   # Pos.of_nat (Nat.max 1 (total_hits patterns msg)))).
  { unfold classify. cbn [intent confidence]. fold msg.
    rewrite (score_table_spec msg patterns patterns_nodup).
    by rewrite (score_of_scored msg patterns _ patterns_nodup), sum_values_scored. }
  split; [exact Heq|]. rewrite Heq.
  pose proof (hits_of_le_total patterns msg (intent (classify message))) as Hle.
  unfold Qle. cbn [Qnum Qden]. split; [lia|].
  rewrite Z.mul_1_r.
  destruct (Nat.max_spec 1 (total_hits patterns msg)) as [[Hlt ->]|[Hge ->]].
  - rewrite <- (positive_nat_Z (Pos.of_nat (total_hits patterns msg))).
    rewrite Nat2Pos.id by lia. lia.
  - change (Pos.of_nat 1) with 1%positive. lia.
Qed.

Section MaxBy.
Context {A : Type} (key : A -> nat).

Lemma max_by_stays best l :
  Forall (fun y => key y <= key best) l -> max_by key best l = best.
Proof.
  induction 1 as [|y l Hy Hl IH]; simpl; [done|].
  destruct (key best <? key y) eqn:Hlt; [apply Nat.ltb_lt in Hlt; lia|done].
Qed.

Lemma max_by_below n best l :
  key best < n -> Forall (fun y => key y < n) l -> key (max_by key best l) < n.
Proof.
  intros Hb Hl. revert best Hb.
  induction Hl as [|y l Hy Hl IH]; simpl; intros best Hb; [done|].
  apply IH. by destruct (key best <? key y).
Qed.

Lemma max_by_app best l1 l2 :
  max_by key best (l1 ++ l2) = max_by key (max_by key best l1) l2.
Proof. revert best. induction l1 as [|y l1 IH]; simpl; intros best; [done|apply IH]. Qed.

(** [max] returns the first element whose key is the largest. *)
Lemma max_by_first l1 x l2 :
  Forall (fun y => key y < key x) l1 ->
  Forall (fun y => key y <= key x) l2 ->
  match l1 ++ x :: l2 with
  | [] => True
  | k :: ks => max_by key k ks = x
  end.
Proof.
  intros H1 H2. destruct l1 as [|k l1]; simpl.
  - by apply max_by_stays.
  - apply Forall_cons in H1 as [Hk H1].
    rewrite max_by_app. simpl.
    pose proof (max_by_below (key x) k l1 Hk H1) as Hlt.
    apply Nat.ltb_lt in Hlt. rewrite Hlt. by apply max_by_stays.
Qed.
End MaxBy.

Lemma dict_get_in k v d :
  NoDup (map fst d) -> In (k, v) d -> dict_get k d = Some v.
Proof.
  induction d as [|[k' v'] d IH]; simpl; intros Hnd Hin; [done|].
  apply NoDup_cons in Hnd as [Hk Hnd].
  destruct Hin as [Heq|Hin].
  - injection Heq as -> ->. by destruct (decide (k = k)).
  - destruct (decide (k' = k)) as [->|Hne]; [|by apply IH].
    exfalso. apply Hk. apply list_elem_of_In. apply in_map_iff. by exists (k, v).
Qed.

Lemma scored_app msg t1 t2 : scored msg (t1 ++ t2) = scored msg t1 ++ scored msg t2.
Proof. unfold scored. apply flat_map_app. Qed.

Lemma scored_nodup msg table : NoDup (map fst table) -> NoDup (map fst (scored msg table)).
Proof.
  induction table as [|[i pats] table IH]; simpl; intros Hnd; [constructor|].
  apply NoDup_cons in Hnd as [Hi Hnd].
  destruct (hits msg pats =? 0); simpl; [by apply IH|].
  apply NoDup_cons. split; [|by apply IH].
  intros Hin. apply Hi. apply list_elem_of_In. apply (scored_keys msg).
  by apply list_elem_of_In.
Qed.

Lemma scored_values msg table (P : nat -> Prop) :
  Forall (fun '(_, pats) => P (hits msg pats)) table ->
  Forall (fun e => P (snd e)) (scored msg table).
Proof.
  induction 1 as [|[i pats] table Hp Ht IH]; simpl; [constructor|].
  destruct (hits msg pats =? 0); simpl; [done|by constructor].
Qed.

(** C8. The intent returned is the first one, in the order of the
    pattern table, whose rule-hit count is the largest: if an intent has
    a positive count, every intent before it in the table has a smaller
    count and no intent after it has a larger one (ties included), then
    [classify] returns it. *)
Theorem classify_first_of_tied (message : string) before i pats after :
  patterns = before ++ (i, pats) :: after ->
  0 < hits (strip (lower message)) pats ->
  Forall (fun '(_, ps) => hits (strip (lower message)) ps
                          < hits (strip (lower message)) pats) before ->
  Forall (fun '(_, ps) => hits (strip (lower message)) ps
                          <= hits (strip (lower message)) pats) after ->
  intent (classify message) = i.
Proof.
  intros Htab Hpos Hbefore Hafter.
  unfold classify. cbn [intent].
  set (msg := strip (lower message)) in *.
  rewrite (score_table_spec msg patterns patterns_nodup).
  pose proof (scored_nodup msg patterns patterns_nodup) as Hnd.
  assert (Hsc : scored msg patterns =
                scored msg before ++ (i, hits msg pats) :: scored msg after).
  { rewrite Htab, scored_app. simpl.
    destruct (hits msg pats =? 0) eqn:Hz; [apply Nat.eqb_eq in Hz; lia|done]. }
  set (L := scored msg patterns) in *.
  assert (Hkey : forall k v, In (k, v) L -> score_of L k = v).
  { intros k v Hin. unfold score_of. by rewrite (dict_get_in k v L Hnd Hin). }
  unfold best_of.
  assert (Hi : score_of L i = hits msg pats).
  { apply Hkey. rewrite Hsc. apply in_app_iff. right. by left. }
  pose proof (max_by_first (score_of L) (map fst (scored msg before)) i
                (map fst (scored msg after))) as Hmax.
  replace (map fst L) with (map fst (scored msg before) ++ i :: map fst (scored msg after))
    by (rewrite Hsc, map_app; done).
  destruct (map fst (scored msg before) ++ i :: map fst (scored msg after)) as [|k ks] eqn:Hk.
  { by destruct (map fst (scored msg before)). }
  apply Hmax.
  - apply List.Forall_forall. intros k' Hk'. apply in_map_iff in Hk' as [[k'' v] [<- Hin]].
    simpl. rewrite Hi.
    rewrite (Hkey k'' v) by (rewrite Hsc; apply in_app_iff; by left).
    pose proof (scored_values msg before (fun n => n < hits msg pats) Hbefore) as Hv.
    rewrite List.Forall_forall in Hv. apply (Hv (k'', v) Hin).
  - apply List.Forall_forall. intros k' Hk'. apply in_map_iff in Hk' as [[k'' v] [<- Hin]].
    simpl. rewrite Hi.
    rewrite (Hkey k'' v) by (rewrite Hsc; apply in_app_iff; right; by right).
    pose proof (scored_values msg after (fun n => n <= hits msg pats) Hafter) as Hv.
    rewrite List.Forall_forall in Hv. apply (Hv (k'', v) Hin).
Qed.

Lemma classify_first_of_tied_witness :
  let m := strip (lower "best") in
  hits m (snd (nth 4 patterns (UNKNOWN, []))) = 1 /\
  hits m (snd (nth 9 patterns (UNKNOWN, []))) = 1 /\
  intent (classify "best") = DEBATE.
Proof.
  split; [vm_compute; reflexivity|].
  split; [vm_compute; reflexivity|].
  apply (classify_first_of_tied "best" (firstn 4 patterns) DEBATE
           (snd (nth 4 patterns (UNKNOWN, []))) (skipn 5 patterns)).
  - reflexivity.
  - vm_compute. lia.
  - unfold patterns. cbn [firstn nth snd].
    repeat first [apply Forall_nil_2 | apply Forall_cons_2]; vm_compute; lia.
  - unfold patterns. cbn [skipn nth snd].
    repeat first [apply Forall_nil_2 | apply Forall_cons_2]; vm_compute; lia.
Defined.

(* ================================================================== *)
(** * Properties of the matcher *)
(* ================================================================== *)

Section MatcherFacts.
Variable icase : bool.
Variable text : list ascii.

Lemma in_step_if ok s s' :
  In s' (step_if text ok s) ->
  exists c, nth_error text (pos s) = Some c /\ ok c = true /\
            s' = MState (S (pos s)) (caps s).
Proof.
  unfold step_if. destruct (nth_error text (pos s)) as [c|]; [|intros []].
  destruct (ok c) eqn:Hok; [|intros []].
  intros [<-|[]]. by exists c.
Qed.

Lemma step_if_cases ok s :
  step_if text ok s = [] \/ step_if text ok s = [MState (S (pos s)) (caps s)].
Proof.
  unfold step_if. destruct (nth_error text (pos s)) as [c|]; [|by left].
  destruct (ok c); [by right|by left].
Qed.

Lemma in_guard b s s' : In s' (guard b s) -> b = true /\ s' = s.
Proof. destruct b; simpl; [intros [<-|[]]; done|intros []]. Qed.

(** A repetition never moves backwards. *)
Lemma star_pos body greedy fuel s s' :
  In s' (star body greedy fuel s) -> pos s <= pos s'.
Proof.
  revert s. induction fuel as [|n IH]; simpl; intros s.
  - intros [<-|[]]. done.
  - assert (Hmore : In s' (flat_map (star body greedy n)
                                    (List.filter (fun s1 => pos s <? pos s1) (body s))) ->
                    pos s <= pos s').
    { intros Hin. apply in_flat_map in Hin as [s1 [Hs1 Hin]].
      apply filter_In in Hs1 as [_ Hlt]. apply Nat.ltb_lt in Hlt.
      apply IH in Hin. lia. }
    destruct greedy.
    + intros Hin. apply in_app_iff in Hin as [Hin|[<-|[]]]; [by apply Hmore|done].
    + intros [<-|Hin]; [done|by apply Hmore].
Qed.

(** The match that [first_from] reports is the head of a [run]. *)
Lemma first_from_in r starts m :
  first_from icase text r starts = Some m ->
  exists p s, In s (run icase text r (MState p [])) /\
              m = RMatch p (pos s) (caps s).
Proof.
  induction starts as [|p ps IH]; simpl; [done|].
  destruct (run icase text r (MState p [])) as [|s l] eqn:Hrun; [exact IH|].
  intros [= <-]. exists p, s. rewrite Hrun. split; [by left|done].
Qed.

Lemma slice_head a b c :
  nth_error text a = Some c -> a < b ->
  exists rest, slice text a b = String c rest.
Proof.
  intros Hc Hab. unfold slice.
  destruct (nth_error_split text a Hc) as (l1 & l2 & Htext & Hlen).
  rewrite Htext, <- Hlen, drop_app_length.
  destruct (b - length l1) as [|k] eqn:Hk; [lia|].
  simpl. by eexists.
Qed.

(** A property of every match of [r] holds of all that [findall]
    collects. *)
Lemma findall_from_all r (P : string -> Prop) :
  (forall p s, In s (run icase text r (MState p [])) ->
               P (group text 1 (RMatch p (pos s) (caps s)))) ->
  forall fuel start, Forall P (findall_from icase text r fuel start).
Proof.
  intros HP. induction fuel as [|f IH]; simpl; intros start; [constructor|].
  destruct (search_from icase text r start) as [m|] eqn:Hm; [|constructor].
  constructor; [|apply IH].
  apply first_from_in in Hm as (p & s & Hin & ->). by apply HP.
Qed.
(** The same, keeping that the match is the head. *)
Lemma first_from_hd r starts m :
  first_from icase text r starts = Some m ->
  exists p s, hd_error (run icase text r (MState p [])) = Some s /\
              m = RMatch p (pos s) (caps s).
Proof.
  induction starts as [|p ps IH]; simpl; [done|].
  destruct (run icase text r (MState p [])) as [|s l] eqn:Hrun; [exact IH|].
  intros [= <-]. exists p, s. by rewrite Hrun.
Qed.

(** The lazy repetition of [.] from [s] lists the positions after [s]
    one by one: before any of its results come all the shorter ones. *)
Lemma lazy_any_between fuel s l1 x l2 :
  star (step_if text any_match) false fuel s = l1 ++ x :: l2 ->
  caps x = caps s /\
  forall q, pos s <= q < pos x -> exists y, In y l1 /\ pos y = q /\ caps y = caps s.
Proof.
  revert s l1. induction fuel as [|n IH]; intros s l1; cbn [star].
  - destruct l1 as [|y l1]; intros [= <- Hl].
    + split; [done|]. intros q Hq. lia.
    + by destruct l1.
  - destruct l1 as [|y l1]; intros [= <- Hl].
    + split; [done|]. intros q Hq. lia.
    + destruct (step_if_cases any_match s) as [Hs|Hs];
        rewrite Hs in Hl; [by destruct l1|].
      cbn [List.filter pos] in Hl.
      replace (pos s <? S (pos s)) with true in Hl by (symmetry; apply Nat.ltb_lt; lia).
      cbn [flat_map] in Hl. rewrite app_nil_r in Hl.
      destruct (IH _ _ Hl) as [Hcaps Hbetween]. cbn [pos caps] in *.
      split; [done|]. intros q Hq.
      destruct (decide (q = pos s)) as [->|Hne].
      * exists s. split; [by left|done].
      * destruct (Hbetween q) as (y & Hy & Hpos & Hc); [lia|].
        exists y. split; [by right|done].
Qed.
End MatcherFacts.

Lemma hd_flat_map {A B} (f : A -> list B) (l : list A) (b : B) :
  hd_error (flat_map f l) = Some b ->
  exists l1 x l2, l = l1 ++ x :: l2 /\ (forall y, In y l1 -> f y = []) /\
                  hd_error (f x) = Some b.
Proof.
  induction l as [|a l IH]; simpl; [done|].
  destruct (f a) as [|b' bs] eqn:Hfa; simpl.
  - intros H. destruct (IH H) as (l1 & x & l2 & -> & Hl1 & Hx).
    exists (a :: l1), x, l2. split; [done|]. split; [|done].
    intros y [<-|Hy]; [done|by apply Hl1].
  - intros [= <-]. exists [], a, l. split; [done|]. split; [intros y []|].
    by rewrite Hfa.
Qed.

Lemma hd_error_in {A} (l : list A) (a : A) : hd_error l = Some a -> In a l.
Proof. destruct l as [|b l]; [done|]. intros [= <-]. by left. Qed.

Lemma flat_map_map {A B C} (f : B -> list C) (g : A -> B) (l : list A) :
  flat_map f (map g l) = flat_map (fun a => f (g a)) l.
Proof. induction l as [|a l IH]; simpl; [done|by rewrite IH]. Qed.

Lemma quoted_pattern_shape :
  compile quoted_pattern =
  Some (Seq (Chr dqc)
          (Seq (Group 1 (Seq (Cls true [IChar dqc]) (Star true (Cls true [IChar dqc]))))
             (Chr dqc))).
Proof. vm_compute. reflexivity. Qed.

(** A quoted span found by [findall] is never empty. *)
Lemma quoted_truthy message :
  Forall (fun q => truthy q = true) (re_findall false quoted_pattern message).
Proof.
  unfold re_findall. rewrite quoted_pattern_shape.
  apply findall_from_all. intros p s Hin.
  cbn [run] in Hin.
  apply in_flat_map in Hin as (s1 & Hs1 & Hin).
  apply in_step_if in Hs1 as (c1 & _ & _ & ->).
  apply in_flat_map in Hin as (s2 & Hs2 & Hin).
  apply in_map_iff in Hs2 as (s3 & <- & Hs3).
  apply in_flat_map in Hs3 as (s4 & Hs4 & Hs3).
  apply in_step_if in Hs4 as (c & Hc & _ & ->).
  apply star_pos in Hs3. cbn [pos] in Hs3, Hc.
  apply in_step_if in Hin as (c2 & _ & _ & ->).
  unfold group. cbn [m_caps caps pos assoc Nat.eqb].
  destruct (slice_head (chars message) (S p) (pos s3) c Hc) as [rest ->]; [lia|done].
Qed.

Lemma tell_about_pattern_shape :
  exists lead,
    compile tell_about_pattern =
    Some (Seq lead
            (Seq (plus true (Cls false [ISpace]))
               (Seq (Group 1 (plus false Any))
                  (Alt (Chr "?") (Alt Eol (Chr ".")))))).
Proof. eexists. vm_compute. reflexivity. Qed.

Lemma chr_match_question c : chr_match true "?" c = true -> c = "?"%char.
Proof.
  destruct c as [[] [] [] [] [] [] [] []]; vm_compute; intros H;
    first [reflexivity | discriminate H].
Qed.

Lemma chr_match_period c : chr_match true "." c = true -> c = "."%char.
Proof.
  destruct c as [[] [] [] [] [] [] [] []]; vm_compute; intros H;
    first [reflexivity | discriminate H].
Qed.

Lemma chr_match_refl c : chr_match true c c = true.
Proof. unfold chr_match. apply Ascii.eqb_refl. Qed.

Lemma closer_fails text s :
  run true text (Alt (Chr "?") (Alt Eol (Chr "."))) s = [] -> ~ closes_at text (pos s).
Proof.
  cbn [run]. intros H.
  apply app_eq_nil in H as [Hq H]. apply app_eq_nil in H as [He Hp].
  unfold step_if in Hq, Hp. unfold guard in He. unfold closes_at.
  intros [Hc|[Hc|Hc]]; rewrite Hc in *.
  - by rewrite chr_match_refl in Hq.
  - by rewrite chr_match_refl in Hp.
  - done.
Qed.

(** Where the capture of a lead-phrase match stands: it is not empty,
    what closes it (a question mark, a period, or the end of the text)
    comes right after it, outside the group, and nothing that could
    close it stands inside it after its first character. *)
Lemma tell_about_capture message m :
  re_search true tell_about_pattern message = Some m ->
  exists a b,
    assoc 1 (m_caps m) = Some (a, b) /\ a < b /\
    ((at_eol (chars message) b = true /\ m_end m = b) \/
     ((nth_error (chars message) b = Some "?"%char \/
       nth_error (chars message) b = Some "."%char) /\ m_end m = S b)) /\
    (forall q, a < q < b -> ~ closes_at (chars message) q).
Proof.
  unfold re_search. destruct tell_about_pattern_shape as [lead ->].
  intros H. apply first_from_hd in H as (p & s & Hhd & ->).
  unfold plus in Hhd. cbn [run] in Hhd.
  apply hd_flat_map in Hhd as (_ & s1 & _ & _ & _ & Hhd).
  apply hd_flat_map in Hhd as (_ & s2 & _ & _ & _ & Hhd).
  rewrite flat_map_map in Hhd.
  apply hd_flat_map in Hhd as (l1 & s4 & l2 & Hl & Hl1 & Hhd).
  destruct (step_if_cases (chars message) any_match s2) as [Hs|Hs];
    rewrite Hs in Hl; [by destruct l1|].
  cbn [flat_map] in Hl. rewrite app_nil_r in Hl.
  assert (Hlt : pos s2 < pos s4).
  { assert (Hin : In s4 (l1 ++ s4 :: l2)) by (apply in_app_iff; right; by left).
    rewrite <- Hl in Hin. apply star_pos in Hin. cbn [pos] in Hin. lia. }
  apply lazy_any_between in Hl as [Hcaps Hbetween]. cbn [pos caps] in Hcaps, Hbetween.
  assert (Hinside : forall q, pos s2 < q < pos s4 -> ~ closes_at (chars message) q).
  { intros q Hq. destruct (Hbetween q) as (y & Hy & <- & _); [lia|].
    apply Hl1 in Hy. by apply closer_fails in Hy. }
  apply hd_error_in in Hhd as Hin. clear Hhd.
  exists (pos s2), (pos s4). cbn [m_caps m_end].
  apply in_app_iff in Hin as [Hin|Hin]; [|apply in_app_iff in Hin as [Hin|Hin]].
  - apply in_step_if in Hin as (c' & Hc' & Hm & ->). cbn [pos caps assoc Nat.eqb] in *.
    apply chr_match_question in Hm as ->.
    split; [done|]. split; [lia|]. split; [right; tauto|exact Hinside].
  - apply in_guard in Hin as [Heol ->]. cbn [pos caps assoc Nat.eqb] in *.
    split; [done|]. split; [lia|]. split; [left; tauto|exact Hinside].
  - apply in_step_if in Hin as (c' & Hc' & Hm & ->). cbn [pos caps assoc Nat.eqb] in *.
    apply chr_match_period in Hm as ->.
    split; [done|]. split; [lia|]. split; [right; tauto|exact Hinside].
Qed.

(* ================================================================== *)
(** * Properties of title extraction *)
(* ================================================================== *)

Ltac rest_cases :=
  unfold extract_rest; cbv zeta;
  destruct (re_findall false year_pattern _);
  destruct (detected_genres _);
  destruct (re_findall false name_pattern _);
  repeat first [ rewrite lookup_insert_eq
               | rewrite lookup_insert_ne by first [discriminate | congruence] ];
  try reflexivity.

Lemma extract_rest_other message ents k :
  k <> "year" -> k <> "genres" -> k <> "person_names" ->
  extract_rest message ents !! k = ents !! k.
Proof. intros H1 H2 H3. rest_cases. Qed.

Lemma bag_before_title_quoted message q rest :
  re_findall false quoted_pattern message = q :: rest ->
  bag_before_title message !! "title" = Some (VStr q).
Proof.
  intros Hq. unfold bag_before_title. rewrite Hq.
  destruct (re_search true genre_pattern message);
    rewrite ?lookup_insert_ne by discriminate; apply lookup_insert_eq.
Qed.

(** ** The lead phrase *)

Lemma chars_text_of l : chars (text_of l) = l.
Proof. apply list_ascii_of_string_of_list_ascii. Qed.

Lemma text_of_chars s : text_of (chars s) = s.
Proof. apply string_of_list_ascii_of_string. Qed.

Lemma lstrip_split l :
  exists pre, l = pre ++ lstrip_chars l /\ forallb is_space pre = true.
Proof.
  induction l as [|c l (pre & Hl & Hpre)]; simpl; [by exists []|].
  destruct (is_space c) eqn:Hc.
  - exists (c :: pre). simpl. rewrite Hc, Hpre. split; [by rewrite <- Hl|done].
  - by exists [].
Qed.

Lemma lstrip_head l c t : lstrip_chars l = c :: t -> is_space c = false.
Proof.
  induction l as [|a l IH]; simpl; [done|].
  destruct (is_space a) eqn:Ha; [exact IH|]. by intros [= <- _].
Qed.

Lemma slice_cons text a b c :
  nth_error text a = Some c -> a < b ->
  slice text a b = String c (slice text (S a) b).
Proof.
  intros Hc Hab. unfold slice.
  destruct (nth_error_split text a Hc) as (l1 & l2 & -> & <-).
  rewrite drop_app_length.
  replace (l1 ++ c :: l2) with ((l1 ++ [c]) ++ l2) by (by rewrite <- app_assoc).
  replace (S (length l1)) with (length (l1 ++ [c])) by (rewrite length_app; simpl; lia).
  rewrite drop_app_length, length_app. cbn [length].
  destruct (b - length l1) as [|k] eqn:Hk; [lia|].
  replace (b - (length l1 + 1)) with k by lia. reflexivity.
Qed.

Lemma slice_chars text a b : chars (slice text a b) = firstn (b - a) (skipn a text).
Proof. unfold slice. apply chars_text_of. Qed.

Lemma slice_in text a b c :
  In c (chars (slice text a b)) -> exists q, a <= q < b /\ nth_error text q = Some c.
Proof.
  rewrite slice_chars. intros Hin.
  apply In_nth_error in Hin as [i Hi].
  assert (Hlt : i < b - a).
  { assert (Hsome : nth_error (firstn (b - a) (skipn a text)) i <> None) by congruence.
    apply nth_error_Some in Hsome. rewrite length_firstn in Hsome. lia. }
  rewrite nth_error_firstn in Hi.
  destruct (Nat.ltb_spec i (b - a)) as [_|Hge]; [|lia].
  rewrite nth_error_skipn in Hi.
  exists (a + i). split; [lia|exact Hi].
Qed.

(** When the trimmed text ends with a character that stands nowhere
    after the first position, the trimmed text is that character. *)
Lemma strip_last_first c0 rest x :
  Forall (fun c => c <> x) rest ->
  last (strip_chars (c0 :: rest)) = Some x -> strip_chars (c0 :: rest) = [x].
Proof.
  intros Hrest. unfold strip_chars.
  destruct (lstrip_split (c0 :: rest)) as (pre & Hl & _).
  destruct (lstrip_split (rev (lstrip_chars (c0 :: rest)))) as (pre2 & HA & _).
  destruct (lstrip_chars (rev (lstrip_chars (c0 :: rest)))) as [|y B].
  { intros H. discriminate H. }
  cbn [rev]. rewrite last_snoc. intros [= ->].
  assert (HA' : lstrip_chars (c0 :: rest) = rev B ++ x :: rev pre2).
  { rewrite <- (rev_involutive (lstrip_chars (c0 :: rest))), HA, rev_app_distr.
    cbn [rev]. by rewrite <- app_assoc. }
  rewrite HA', app_assoc in Hl.
  destruct (pre ++ rev B) as [|h t] eqn:E.
  - apply app_eq_nil in E as [_ ->]. reflexivity.
  - cbn [app] in Hl. injection Hl as _ Hr.
    rewrite List.Forall_forall in Hrest. exfalso.
    apply (Hrest x); [|reflexivity]. rewrite Hr. apply in_or_app. right. by left.
Qed.

Lemma mark_cases c : Ascii.eqb c "?" || Ascii.eqb c "." = true -> c = "?"%char \/ c = "."%char.
Proof.
  intros H. apply orb_true_iff in H as [H|H]; apply Ascii.eqb_eq in H; auto.
Qed.

(** A capture that holds no question mark or period after its first
    character gives a title that ends with one only when the title is
    that single character. *)
Lemma capture_title_mark text a b :
  a < b -> b <= length text ->
  (forall q, a < q < b -> ~ closes_at text q) ->
  ends_with_mark (strip (slice text a b)) = true ->
  strip (slice text a b) = "?" \/ strip (slice text a b) = ".".
Proof.
  intros Hab Hb Hin.
  destruct (nth_error text a) as [c0|] eqn:Hc0;
    [|apply nth_error_None in Hc0; lia].
  assert (Hrest : Forall (fun c => c <> "?"%char /\ c <> "."%char)
                    (chars (slice text (S a) b))).
  { apply List.Forall_forall. intros c Hc.
    apply slice_in in Hc as (q & Hq & Hnth).
    split; intros ->; apply (Hin q); try lia; unfold closes_at; auto. }
  unfold ends_with_mark, strip. rewrite chars_text_of.
  rewrite (slice_cons text a b c0 Hc0 Hab).
  change (chars (String c0 (slice text (S a) b)))
    with (c0 :: chars (slice text (S a) b)).
  destruct (last (strip_chars (c0 :: chars (slice text (S a) b)))) as [x|] eqn:Hlast;
    [|intros H; discriminate H].
  intros Hx. apply mark_cases in Hx.
  assert (Hone : strip_chars (c0 :: chars (slice text (S a) b)) = [x]).
  { apply strip_last_first; [|exact Hlast].
    eapply Forall_impl; [exact Hrest|]. intros c [H1 H2] ->.
    destruct Hx as [->| ->]; [by apply H1|by apply H2]. }
  rewrite Hone. destruct Hx as [->| ->]; [by left|by right].
Qed.

Lemma closed_within text b :
  (at_eol text b = true \/ nth_error text b = Some "?"%char \/
   nth_error text b = Some "."%char) -> b <= length text.
Proof.
  intros [H|[H|H]].
  - unfold at_eol in H. apply orb_true_iff in H as [H|H].
    + apply Nat.eqb_eq in H. lia.
    + apply andb_true_iff in H as [H _]. apply Nat.eqb_eq in H. lia.
  - assert (Hs : nth_error text b <> None) by congruence.
    apply nth_error_Some in Hs. lia.
  - assert (Hs : nth_error text b <> None) by congruence.
    apply nth_error_Some in Hs. lia.
Qed.

(** C10, as amended. When the lead-phrase pattern matches, the title is
    its trimmed capture, whatever the short-message heuristics would
    give. The capture is not empty; the question mark, period or end of
    text that closes it comes right after it and is not part of it; and
    no question mark or period stands inside it after its first
    character. Its first character can be one: the title ends with a
    question mark or a period only when it is that single character.
    On [about The Matrix?] the title is [The Matrix]. *)
Theorem lead_phrase_wins (message : string) (i : Intent) (m : rmatch) :
  re_search true tell_about_pattern message = Some m ->
  _extract_entities message i !! "title" = Some (VStr (strip (m_group message m 1))) /\
  (exists a b,
     assoc 1 (m_caps m) = Some (a, b) /\ a < b /\
     m_group message m 1 = slice (chars message) a b /\
     ((at_eol (chars message) b = true /\ m_end m = b) \/
      ((nth_error (chars message) b = Some "?"%char \/
        nth_error (chars message) b = Some "."%char) /\ m_end m = S b)) /\
     (forall q, a < q < b -> ~ closes_at (chars message) q)) /\
  (ends_with_mark (strip (m_group message m 1)) = true ->
   strip (m_group message m 1) = "?" \/ strip (m_group message m 1) = ".") /\
  entities (classify "about The Matrix?") !! "title" = Some (VStr "The Matrix").
Proof.
  intros Hm.
  destruct (tell_about_capture message m Hm) as (a & b & Hab & Hlt & Hend & Hin).
  assert (Hg : m_group message m 1 = slice (chars message) a b).
  { unfold m_group, group. by rewrite Hab. }
  split; [|split; [|split]].
  - rewrite (extract_unfold message i), Hm. apply lookup_insert_eq.
  - exists a, b. split; [exact Hab|]. split; [exact Hlt|].
    split; [exact Hg|]. split; [exact Hend|exact Hin].
  - rewrite Hg. apply capture_title_mark; [exact Hlt| |exact Hin].
    apply closed_within. destruct Hend as [[H _]|[H _]]; [by left|right; exact H].
  - vm_compute. reflexivity.
Qed.

Lemma lead_phrase_wins_witness :
  matched (re_search true tell_about_pattern "about The Matrix?") = true /\
  short_with_capital "about The Matrix?" PLOT_QUERY = true /\
  _extract_entities "about The Matrix?" PLOT_QUERY !! "title" = Some (VStr "The Matrix").
Proof.
  split; [vm_compute; reflexivity|].
  split; [vm_compute; reflexivity|].
  destruct (re_search true tell_about_pattern "about The Matrix?") as [m|] eqn:Hm;
    [|vm_compute in Hm; discriminate Hm].
  destruct (lead_phrase_wins "about The Matrix?" PLOT_QUERY m Hm) as (Ht & _ & _).
  rewrite Ht. vm_compute in Hm. injection Hm as <-. vm_compute. reflexivity.
Defined.

(** C10, the claim as written. A lead phrase followed by a lone question
    mark or period gives that mark as the title: on these inputs the
    title ends with a question mark or a period. *)
Theorem lead_phrase_keeps_lone_mark :
  matched (re_search true tell_about_pattern "about ?") = true /\
  entities (classify "about ?") !! "title" = Some (VStr "?") /\
  entities (classify "plot of .") !! "title" = Some (VStr ".") /\
  entities (classify "tell me about ?!") !! "title" = Some (VStr "?!").
Proof. repeat apply conj; vm_compute; reflexivity. Qed.

(** C2, as amended. In a message that holds a quoted span, the title is
    the trimmed capture of the lead phrase when that pattern matches,
    else the whole trimmed message when the short-message heuristic
    fires, else the first quoted span. On
    [Tell me about "Inception" please] the lead phrase wins and the
    title is ["Inception" please], quotes included. *)
Theorem quoted_title_unless_overridden (message : string) (i : Intent) q rest :
  re_findall false quoted_pattern message = q :: rest ->
  _extract_entities message i !! "title" =
    match re_search true tell_about_pattern message with
    | Some m => Some (VStr (strip (m_group message m 1)))
    | None =>
        if short_with_capital message i then Some (VStr (strip message))
        else Some (VStr q)
    end /\
  entities (classify ("Tell me about " +:+ dq +:+ "Inception" +:+ dq +:+ " please"))
    !! "title" = Some (VStr (dq +:+ "Inception" +:+ dq +:+ " please")).
Proof.
  intros Hq. split; [|vm_compute; reflexivity].
  rewrite (extract_unfold message i).
  destruct (re_search true tell_about_pattern message) as [m|]; [apply lookup_insert_eq|].
  destruct (short_with_capital message i); [apply lookup_insert_eq|].
  pose proof (bag_before_title_quoted message q rest Hq) as Htitle.
  pose proof (quoted_truthy message) as Htruthy.
  rewrite Hq in Htruthy. apply Forall_cons in Htruthy as [Htruthy _].
  unfold capital_initial, title_like. rewrite Htitle. cbn [value_truthy].
  rewrite Htruthy. cbn [negb andb].
  rewrite extract_rest_other by discriminate. exact Htitle.
Qed.

Lemma quoted_title_unless_overridden_witness :
  let message := "I really loved " +:+ dq +:+ "Inception" +:+ dq +:+ " so much lately" in
  re_findall false quoted_pattern message = ["Inception"] /\
  _extract_entities message SEARCH !! "title" = Some (VStr "Inception").
Proof.
  intros message.
  assert (Hq : re_findall false quoted_pattern message = ["Inception"])
    by (vm_compute; reflexivity).
  split; [exact Hq|].
  destruct (quoted_title_unless_overridden message SEARCH "Inception" [] Hq) as [-> _].
  vm_compute. reflexivity.
Defined.

(** The claim C2 fails as stated: on [Tell me about "Inception" please]
    the first quoted span is [Inception], yet the title is the capture
    of the lead phrase, ["Inception" please]. *)
Lemma quoted_title_overridden :
  let message := "Tell me about " +:+ dq +:+ "Inception" +:+ dq +:+ " please" in
  re_findall false quoted_pattern message = ["Inception"] /\
  entities (classify message) !! "title" <> Some (VStr "Inception").
Proof.
  intros message. split; [vm_compute; reflexivity|].
  vm_compute. intros H. discriminate H.
Qed.

(* ================================================================== *)
(** * Properties of the other entity fields *)
(* ================================================================== *)

Lemma bag_before_title_genre message :
  bag_before_title message !! "genre" =
  match re_search true genre_pattern message with
  | Some m => Some (VStr (lower (m_group message m 1)))
  | None => None
  end.
Proof.
  unfold bag_before_title.
  repeat case_match; rewrite ?lookup_insert_eq, ?lookup_insert_ne by discriminate;
    reflexivity.
Qed.

Lemma bag_before_title_other message k :
  k <> "title" -> k <> "genre" -> bag_before_title message !! k = None.
Proof.
  intros H1 H2. apply eq_None_not_Some. intros Hk.
  apply bag_before_title_keys in Hk. tauto.
Qed.

Lemma extract_rest_year message ents :
  extract_rest message ents !! "year" =
  match re_findall false year_pattern message with
  | y :: _ => Some (VInt (py_int y))
  | [] => ents !! "year"
  end.
Proof. rest_cases. Qed.

Lemma extract_rest_genres message ents :
  extract_rest message ents !! "genres" =
  match detected_genres message with
  | [] => ents !! "genres"
  | gs => Some (VList gs)
  end.
Proof. rest_cases. Qed.

Lemma extract_rest_names message ents :
  extract_rest message ents !! "person_names" =
  match re_findall false name_pattern message with
  | [] => ents !! "person_names"
  | names => Some (VList names)
  end.
Proof. rest_cases. Qed.

(** C4, as amended. The single genre is extracted whether or not a title
    heuristic succeeded. The year, the genre list and the person names
    are extracted only when no title heuristic returns early (the lead
    phrase, the short message with a capital, the capital-initial
    message of one to four words): then the year is the first
    qualifying token, and the names are the capitalised spans found;
    after an early return the bag holds none of the three. *)
Theorem fields_after_title_heuristics (message : string) (i : Intent) :
  let ents := _extract_entities message i in
  ents !! "genre" =
    match re_search true genre_pattern message with
    | Some m => Some (VStr (lower (m_group message m 1)))
    | None => None
    end /\
  if returns_early message i
  then ents !! "year" = None /\ ents !! "genres" = None /\ ents !! "person_names" = None
  else
    ents !! "year" =
      match re_findall false year_pattern message with
      | y :: _ => Some (VInt (py_int y))
      | [] => None
      end /\
    ents !! "genres" =
      match detected_genres message with
      | [] => None
      | gs => Some (VList gs)
      end /\
    ents !! "person_names" =
      match re_findall false name_pattern message with
      | [] => None
      | names => Some (VList names)
      end.
Proof.
  intros ents. unfold ents, returns_early.
  rewrite (extract_unfold message i).
  pose proof (bag_before_title_genre message) as Hg.
  pose proof (bag_before_title_other message "year") as Hy.
  pose proof (bag_before_title_other message "genres") as Hgs.
  pose proof (bag_before_title_other message "person_names") as Hn.
  destruct (re_search true tell_about_pattern message) as [m|]; cbn [matched orb].
  { rewrite !lookup_insert_ne by discriminate.
    rewrite Hy, Hgs, Hn by discriminate. repeat apply conj; first [exact Hg | reflexivity]. }
  destruct (short_with_capital message i); cbn [orb].
  { rewrite !lookup_insert_ne by discriminate.
    rewrite Hy, Hgs, Hn by discriminate. repeat apply conj; first [exact Hg | reflexivity]. }
  destruct (capital_initial (bag_before_title message) message).
  { rewrite !lookup_insert_ne by discriminate.
    rewrite Hy, Hgs, Hn by discriminate. repeat apply conj; first [exact Hg | reflexivity]. }
  rewrite extract_rest_other by discriminate.
  rewrite extract_rest_year, extract_rest_genres, extract_rest_names.
  destruct (title_like (bag_before_title message) message);
    rewrite ?lookup_insert_ne by discriminate;
    rewrite Hy, Hgs, Hn by discriminate; repeat apply conj; first [exact Hg | reflexivity].
Qed.

(** The claim C4 fails as stated: after a lead phrase the year token and
    the capitalised name are found in the text but the bag holds neither
    a year nor person names. *)
Lemma fields_skipped_after_title :
  re_findall false year_pattern "Tell me about Titanic 1997" = ["1997"] /\
  entities (classify "Tell me about Titanic 1997") !! "title" = Some (VStr "Titanic 1997") /\
  entities (classify "Tell me about Titanic 1997") !! "year" = None /\
  re_findall false name_pattern "about Christopher Nolan" = ["Christopher Nolan"] /\
  entities (classify "about Christopher Nolan") !! "person_names" = None.
Proof. repeat apply conj; vm_compute; reflexivity. Qed.

(* ================================================================== *)
(** * Properties of the chat endpoint *)
(* ================================================================== *)

Lemma tell_me_more_facts :
  strip "tell me more" = "tell me more" /\
  entities (classify "tell me more") !! "title" = None /\
  direct_title "tell me more" ["Inception"; "Titanic"] = None /\
  existsb (String.eqb (lower "tell me more")) vague_phrases = true.
Proof. repeat apply conj; vm_compute; reflexivity. Qed.

(** C9. In a conversation whose recent titles are Inception and Titanic,
    the message [tell me more], from which no title is extracted, is
    answered at once, without any call, by the clarification reply whose
    suggestions are [Tell me about Inception] and
    [Tell me about Titanic]; the conversation is left as it was. *)
Theorem vague_follow_up_clarifies
    (conversations : gmap string Conversation) (request : ChatRequest)
    (conv : Conversation) :
  rq_message request = "tell me more" ->
  conversations !! conversation_id_of request = Some conv ->
  recent_titles (context conv) = ["Inception"; "Titanic"] ->
  let reply := clarification (conversation_id_of request) (context conv) in
  entities (classify "tell me more") !! "title" = None /\
  chat_endpoint conversations request = Ret (reply, conversations) /\
  no_call (chat_endpoint conversations request) /\
  rs_intent reply = Some "clarification" /\
  rs_suggestions reply = Some ["Tell me about Inception"; "Tell me about Titanic"].
Proof.
  intros Hmsg Hconv Htitles reply.
  destruct tell_me_more_facts as (Hstrip & Hent & Hdirect & Hvague).
  assert (Hrun : chat_endpoint conversations request = Ret (reply, conversations)).
  { unfold chat_endpoint, chat_try. cbv zeta.
    rewrite Hmsg, Hstrip. cbn [truthy negb].
    rewrite Hconv. rewrite Hconv. cbn [default from_option id].
    rewrite Htitles, Hdirect, Hvague, Hent. reflexivity. }
  split; [exact Hent|]. split; [exact Hrun|]. split; [by rewrite Hrun|].
  unfold reply, clarification. rewrite Htitles. split; reflexivity.
Qed.

Lemma vague_follow_up_clarifies_witness :
  let conv := mkConversation [] (mkContext ["Inception"; "Titanic"] ["horror"]) in
  let conversations : gmap string Conversation := {[ "c1" := conv ]} in
  let request := mkChatRequest "tell me more" (Some "c1") in
  chat_endpoint conversations request =
    Ret (clarification "c1" (context conv), conversations) /\
  rs_suggestions (clarification "c1" (context conv)) =
    Some ["Tell me about Inception"; "Tell me about Titanic"].
Proof.
  intros conv conversations request.
  destruct (vague_follow_up_clarifies conversations request conv)
    as (_ & Hrun & _ & _ & Hsug); [reflexivity|reflexivity|reflexivity|].
  split; [exact Hrun|exact Hsug].
Defined.

(** C5, on the code. A blank message raises the 400 error inside the
    [try] block, where [except Exception] catches it: the caller gets
    the apology as a normal reply, not a bad-request status. *)
Theorem blank_message_gets_apology
    (conversations : gmap string Conversation) (request : ChatRequest)
    (world : forall c, answer c) :
  strip (rq_message request) = "" ->
  chat_try conversations request = Raise (HTTPException 400 "Message cannot be empty") /\
  served (run_with world (chat_endpoint conversations request)) =
    Http200 (apology request, conversations).
Proof.
  intros Hblank. unfold chat_endpoint, chat_try. cbv zeta.
  rewrite Hblank. split; reflexivity.
Qed.

Lemma blank_message_gets_apology_witness :
  let request := mkChatRequest "   " None in
  strip (rq_message request) = "" /\
  served (run_with quiet_world (chat_endpoint ∅ request)) = Http200 (apology request, ∅).
Proof.
  intros request. split; [vm_compute; reflexivity|].
  apply (blank_message_gets_apology ∅ request quiet_world). vm_compute. reflexivity.
Defined.

(** The sibling endpoint lets its client error through. *)
Lemma movie_details_endpoint_not_found (movie_id : Z) :
  served (run_with quiet_world (movie_details_endpoint movie_id)) =
    HttpError 404 "Movie not found".
Proof. reflexivity. Qed.

(** ** Where the endpoint can raise *)

Lemma all_raise_bind {A B} (P : exn -> Prop) (p : prog A) (f : A -> prog B) :
  all_raise P p -> (forall a, all_raise P (f a)) -> all_raise P (bind p f).
Proof. induction p as [a|e|c k IH]; simpl; auto. Qed.

Lemma all_raise_catch {A} (P : exn -> Prop) (p : prog A) (h : exn -> prog A) :
  (forall e, all_raise P (h e)) -> all_raise P (catch p h).
Proof. induction p as [a|e|c k IH]; simpl; auto. Qed.

Lemma handle_unknown_never_raises (P : exn -> Prop) : all_raise P _handle_unknown.
Proof. unfold _handle_unknown. simpl. done. Qed.

(** [generate_response] catches whatever a handler raises. *)
Lemma generate_response_never_raises (P : exn -> Prop) r :
  all_raise P (generate_response r).
Proof.
  unfold generate_response. apply all_raise_catch.
  intros e. apply handle_unknown_never_raises.
Qed.

(** The [try] block of [chat_endpoint] raises only for a blank message,
    before it has touched [conversations]. *)
Lemma chat_try_raises_only_blank st request :
  all_raise
    (fun e => e = HTTPException 400 "Message cannot be empty" /\
              strip (rq_message request) = "")
    (chat_try st request).
Proof.
  unfold chat_try. cbv zeta.
  destruct (strip (rq_message request)) as [|c rest] eqn:Hmsg; cbn [truthy negb].
  { cbn [all_raise]. done. }
  set (P := fun e => _).
  assert (Hnormal : forall st' id msg r, all_raise P (normal_path st' id msg r)).
  { intros st' id msg r. unfold normal_path. cbv zeta.
    apply all_raise_bind; [apply generate_response_never_raises|].
    intros a. exact I. }
  destruct (direct_title _ _) as [[|c' title]|].
  - destruct (existsb _ _); [|apply Hnormal].
    destruct (value_truthy _); [apply Hnormal|exact I].
  - apply all_raise_bind.
    + unfold direct_movie_info. apply all_raise_catch. intros e. exact I.
    + intros [reply|]; [exact I|apply Hnormal].
  - destruct (existsb _ _); [|apply Hnormal].
    destruct (value_truthy _); [apply Hnormal|exact I].
Qed.

(** ** The bounds of the stored state *)

Lemma all_ret_intro {A} (P : A -> Prop) (p : prog A) : (forall a, P a) -> all_ret P p.
Proof. intros HP. induction p as [a|e|c k IH]; simpl; auto. Qed.

Lemma all_ret_bind {A B} (P : B -> Prop) (p : prog A) (f : A -> prog B) :
  all_ret (fun a => all_ret P (f a)) p -> all_ret P (bind p f).
Proof. induction p as [a|e|c k IH]; simpl; auto. Qed.

Lemma all_ret_catch {A} (P : A -> Prop) (p : prog A) (h : exn -> prog A) :
  all_ret P p -> (forall e, all_ret P (h e)) -> all_ret P (catch p h).
Proof. induction p as [a|e|c k IH]; simpl; auto. Qed.

Lemma returns_all_ret {A} (P : A -> Prop) (p : prog A) a :
  returns p a -> all_ret P p -> P a.
Proof. induction 1 as [a|c k x a Hr IH]; simpl; auto. Qed.

Lemma run_with_returns {A} world (p : prog A) a :
  run_with world p = inr a -> returns p a.
Proof.
  induction p as [b|e|c k IH]; simpl; intros H.
  - injection H as ->. constructor.
  - discriminate H.
  - econstructor. by apply IH.
Qed.

Lemma last_n_length {A} n (l : list A) : length (last_n n l) <= n.
Proof. unfold last_n. rewrite length_skipn. lia. Qed.

Lemma track_entities_bounded ents ctx :
  length (recent_titles ctx) <= 5 -> length (recent_genres ctx) <= 5 ->
  length (recent_titles (track_entities ents ctx)) <= 5 /\
  length (recent_genres (track_entities ents ctx)) <= 5.
Proof.
  intros Ht Hg. unfold track_entities. cbn [recent_titles recent_genres]. split.
  - destruct (ents !! "title") as [[t| |]|]; try done.
    destruct (truthy t); [apply last_n_length|done].
  - destruct (ents !! "genre") as [[g| |]|]; try done.
    destruct (truthy g); [apply last_n_length|done].
Qed.

Lemma new_conversation_bounded n : conv_bounded n new_conversation.
Proof. unfold conv_bounded. simpl. lia. Qed.

Lemma store_bounded_default n st id :
  store_bounded n st -> conv_bounded n (default new_conversation (st !! id)).
Proof.
  intros Hst. destruct (st !! id) as [conv|] eqn:Hc; simpl.
  - by apply (Hst id).
  - apply new_conversation_bounded.
Qed.

Lemma store_bounded_insert n st id conv :
  store_bounded n st -> conv_bounded n conv -> store_bounded n (<[id := conv]> st).
Proof.
  intros Hst Hc id' conv' Hl.
  apply lookup_insert_Some in Hl as [[_ <-]|[_ Hl]]; [done|by apply (Hst id')].
Qed.

Lemma normal_path_bounded st id user_message r :
  store_bounded 11 st ->
  all_ret (fun out => store_bounded 11 (snd out)) (normal_path st id user_message r).
Proof.
  intros Hst. unfold normal_path. cbv zeta.
  apply all_ret_bind, all_ret_intro. intros chat_response. cbn [all_ret snd].
  apply store_bounded_insert; [done|].
  destruct (store_bounded_default 11 st id Hst) as (Ht & Hg & _).
  destruct (track_entities_bounded (entities r) _ Ht Hg) as [Ht' Hg'].
  unfold conv_bounded. cbn [context messages].
  split; [done|]. split; [done|].
  rewrite length_app. cbn [length].
  pose proof (last_n_length 10
    (messages (default new_conversation (st !! id)) ++
     [UserMessage user_message (intent_value (intent r)) (entities r)])).
  lia.
Qed.

Lemma chat_endpoint_bounded st request :
  store_bounded 11 st ->
  all_ret (fun out => store_bounded 11 (snd out)) (chat_endpoint st request).
Proof.
  intros Hst. unfold chat_endpoint.
  apply all_ret_catch; [|intros e; exact Hst].
  unfold chat_try. cbv zeta.
  destruct (negb (truthy (strip (rq_message request)))); [exact I|].
  set (id := conversation_id_of request).
  set (st1 := match st !! id with
              | Some _ => st
              | None => <[id := new_conversation]> st
              end).
  assert (Hst1 : store_bounded 11 st1).
  { unfold st1. destruct (st !! id); [done|].
    apply store_bounded_insert; [done|apply new_conversation_bounded]. }
  pose proof (normal_path_bounded st1 id (strip (rq_message request))
                (classify (strip (rq_message request))) Hst1) as Hnormal.
  destruct (direct_title _ _) as [[|c title]|].
  - destruct (existsb _ _); [|exact Hnormal].
    destruct (value_truthy _); [exact Hnormal|exact Hst1].
  - apply all_ret_bind. unfold direct_movie_info.
    apply all_ret_catch; [|intros e; exact Hnormal].
    cbn [bind await all_ret]. intros [|movie movies]; cbn [all_ret]; [exact Hnormal|exact Hst1].
  - destruct (existsb _ _); [|exact Hnormal].
    destruct (value_truthy _); [exact Hnormal|exact Hst1].
Qed.

(** Between turns, in every reachable state, the two rolling windows
    hold at most 5 entries and the message log at most 11. *)
Lemma reachable_bounded st : reachable st -> store_bounded 11 st.
Proof.
  induction 1 as [|st request reply st' Hr IH Hret|st id Hr IH].
  - intros id conv Hl. by rewrite lookup_empty in Hl.
  - apply (returns_all_ret _ _ _ Hret (chat_endpoint_bounded st request IH)).
  - unfold clear_conversation. destruct (st !! id); [|exact IH].
    intros id' conv Hl. cbn [snd] in Hl.
    apply lookup_delete_Some in Hl as [_ Hl]. by apply (IH id').
Qed.

Lemma chat_turns_reachable world turns st :
  reachable st -> reachable (chat_turns world st turns).
Proof.
  revert st. induction turns as [|request turns IH]; simpl; intros st Hst; [done|].
  destruct (run_with world (chat_endpoint st request)) as [e|[reply st']] eqn:Hrun.
  - by apply IH.
  - apply IH. apply (reach_chat st request reply st' Hst).
    by apply (run_with_returns world).
Qed.

(** C3, on the code. Six turns of [hi] in a fresh conversation leave a
    reachable state whose message log holds 11 entries: the log is cut
    to 10 after the user message is appended, and the bot reply is
    appended after the cut. The two rolling windows stay within 5. *)
Theorem message_log_holds_eleven :
  let st := chat_turns quiet_world ∅ (repeat (mkChatRequest "hi" None) 6) in
  reachable st /\
  exists conv,
    st !! "default" = Some conv /\
    length (messages conv) = 11 /\
    length (recent_titles (context conv)) <= 5 /\
    length (recent_genres (context conv)) <= 5.
Proof.
  intros st. split; [apply chat_turns_reachable; constructor|].
  assert (Hlen : option_map (fun conv => length (messages conv)) (st !! "default") = Some 11)
    by (vm_compute; reflexivity).
  destruct (st !! "default") as [conv|] eqn:Hconv; [|discriminate Hlen].
  exists conv. injection Hlen as Hlen.
  assert (Hb : store_bounded 11 st)
    by (apply reachable_bounded, chat_turns_reachable; constructor).
  destruct (Hb "default" conv Hconv) as (Ht & Hg & _).
  by repeat split.
Qed.

(* ================================================================== *)
(** * Further properties of the intent scorer *)
(* ================================================================== *)

Lemma max_by_ge {A} (key : A -> nat) best l :
  key best <= key (max_by key best l) /\
  forall y, In y l -> key y <= key (max_by key best l).
Proof.
  revert best. induction l as [|x l IH]; simpl; intros best; [split; [done|intros y []]|].
  destruct (IH (if key best <? key x then x else best)) as [Hb Hl].
  destruct (key best <? key x) eqn:Hlt.
  - apply Nat.ltb_lt in Hlt. split; [lia|]. intros y [<-|Hy]; [done|by apply Hl].
  - apply Nat.ltb_ge in Hlt. split; [done|]. intros y [<-|Hy]; [lia|by apply Hl].
Qed.

Lemma max_by_in {A} (key : A -> nat) best l : In (max_by key best l) (best :: l).
Proof.
  revert best. induction l as [|x l IH]; simpl; intros best; [by left|].
  destruct (IH (if key best <? key x then x else best)) as [Heq|Hin].
  - rewrite <- Heq. destruct (key best <? key x); [right; by left|by left].
  - right. by right.
Qed.

Lemma scored_pos msg table k v : In (k, v) (scored msg table) -> 0 < v.
Proof.
  induction table as [|[i pats] table IH]; simpl; [done|].
  rewrite in_app_iff. intros [Hin|Hin]; [|by apply IH].
  destruct (hits msg pats =? 0) eqn:Hz; simpl in Hin; [done|].
  destruct Hin as [[= <- <-]|[]]. apply Nat.eqb_neq in Hz. lia.
Qed.

Lemma scored_some_match msg table :
  any_rule_matches table msg = true -> scored msg table <> [].
Proof.
  unfold any_rule_matches.
  induction table as [|[i pats] table IH]; simpl; [done|].
  intros [Hp|Ht]%orb_true_iff.
  - assert (hits msg pats <> 0) as Hne.
    { unfold hits. clear -Hp. induction pats as [|p pats IH]; simpl in *; [done|].
      destruct (matched (re_search false p msg)); simpl; [done|by apply IH]. }
    apply Nat.eqb_neq in Hne. rewrite Hne. done.
  - intros Happ. apply app_eq_nil in Happ as [_ Hnil]. by apply IH.
Qed.

Lemma best_of_in_keys d : d <> [] -> In (best_of d) (map fst d).
Proof.
  unfold best_of. destruct d as [|[k v] d]; [done|]. intros _.
  cbn [map fst]. apply max_by_in.
Qed.

Lemma classify_intent message :
  intent (classify message) = best_of (scored (strip (lower message)) patterns).
Proof.
  unfold classify. cbn [intent].
  by rewrite (score_table_spec _ patterns patterns_nodup).
Qed.

Lemma classify_confidence message :
  confidence (classify message) =
  (Z.of_nat (hits_of patterns (strip (lower message)) (intent (classify message)))
     # Pos.of_nat (Nat.max 1 (total_hits patterns (strip (lower message))))).
Proof.
  unfold classify. cbn [intent confidence].
  rewrite (score_table_spec _ patterns patterns_nodup).
  by rewrite (score_of_scored _ patterns _ patterns_nodup), sum_values_scored.
Qed.

Lemma unknown_not_in_table : ~ In UNKNOWN (map fst patterns).
Proof. vm_compute. intuition discriminate. Qed.

Lemma recommendation_not_in_table : ~ In RECOMMENDATION (map fst patterns).
Proof. vm_compute. intuition discriminate. Qed.

(** The winner is an intent of the pattern table with at least one
    hit, or Unknown. *)
Lemma classify_winner message :
  let msg := strip (lower message) in
  (any_rule_matches patterns msg = false /\ intent (classify message) = UNKNOWN) \/
  (any_rule_matches patterns msg = true /\
   In (intent (classify message)) (map fst patterns) /\
   0 < hits_of patterns msg (intent (classify message))).
Proof.
  intros msg. rewrite classify_intent. fold msg.
  destruct (any_rule_matches patterns msg) eqn:Hany.
  - right. split; [done|].
    pose proof (best_of_in_keys _ (scored_some_match msg patterns Hany)) as Hin.
    split; [by apply (scored_keys msg)|].
    rewrite <- (score_of_scored msg patterns _ patterns_nodup).
    apply in_map_iff in Hin as ([k v] & Hk & Hin). cbn [fst] in Hk. subst k.
    unfold score_of.
    rewrite (dict_get_in _ v _ (scored_nodup msg patterns patterns_nodup) Hin).
    by apply (scored_pos msg patterns (best_of (scored msg patterns))).
  - left. split; [done|]. by rewrite (scored_no_match msg patterns Hany).
Qed.

(** X1. [classify] answers Unknown exactly when no rule of the table
    matches the lowered, trimmed message; its confidence is positive
    exactly when some rule matches; and it never answers with the alias
    RECOMMENDATION, which has no rules. *)
Theorem classify_unknown_iff_no_match (message : string) :
  let msg := strip (lower message) in
  (intent (classify message) = UNKNOWN <-> any_rule_matches patterns msg = false) /\
  ((0 < confidence (classify message))%Q <-> any_rule_matches patterns msg = true) /\
  intent (classify message) <> RECOMMENDATION.
Proof.
  intros msg.
  pose proof (classify_confidence message) as Hconf. fold msg in Hconf.
  destruct (classify_winner message) as [[Hany Hi]|(Hany & Hin & Hpos)]; fold msg in Hany.
  - split; [rewrite Hany, Hi; split; reflexivity|].
    split; [|rewrite Hi; discriminate].
    rewrite Hany, Hconf, Hi. unfold Qlt. cbn [Qnum Qden].
    change (hits_of patterns msg UNKNOWN) with 0.
    split; [|discriminate]. change (Z.of_nat 0) with 0%Z. lia.
  - fold msg in Hpos. split; [|split].
    + rewrite Hany. split; [|discriminate]. intros Hu. rewrite Hu in Hin.
      destruct (unknown_not_in_table Hin).
    + rewrite Hany, Hconf. unfold Qlt. cbn [Qnum Qden].
      split; [reflexivity|]. intros _. lia.
    + intros Hr. rewrite Hr in Hin. exact (recommendation_not_in_table Hin).
Qed.

(** X2. The intent returned has the largest rule-hit count: no intent
    of the table has more hits than the winner. *)
Theorem classify_winner_has_most_hits (message : string) (k : Intent) :
  hits_of patterns (strip (lower message)) k
  <= hits_of patterns (strip (lower message)) (intent (classify message)).
Proof.
  set (msg := strip (lower message)).
  rewrite classify_intent. fold msg.
  rewrite <- !(score_of_scored msg patterns _ patterns_nodup).
  set (L := scored msg patterns).
  unfold score_of at 1.
  destruct (dict_get k L) as [v|] eqn:Hk; [|simpl; lia]. simpl.
  assert (Hin : In k (map fst L)).
  { clear -Hk. induction L as [|[k' v'] L IH]; simpl in *; [done|].
    destruct (decide (k' = k)); [by left|right; by apply IH]. }
  assert (Hv : score_of L k = v) by (unfold score_of; by rewrite Hk).
  rewrite <- Hv. unfold best_of.
  destruct (map fst L) as [|k0 ks]; [done|].
  destruct (max_by_ge (score_of L) k0 ks) as [H0 Hks].
  destruct Hin as [<-|Hin]; [done|by apply Hks].
Qed.

Lemma scored_zero msg table :
  Forall (fun '(_, ps) => hits msg ps = 0) table -> scored msg table = [].
Proof.
  induction 1 as [|[i ps] table Hz Ht IH]; simpl; [done|].
  by rewrite Hz, IH.
Qed.

(** X3. When the rules that match all belong to one intent category,
    that category is returned, with confidence 1. *)
Theorem classify_single_category (message : string) before i pats after :
  patterns = before ++ (i, pats) :: after ->
  0 < hits (strip (lower message)) pats ->
  Forall (fun '(_, ps) => hits (strip (lower message)) ps = 0) before ->
  Forall (fun '(_, ps) => hits (strip (lower message)) ps = 0) after ->
  intent (classify message) = i /\ (confidence (classify message) == 1)%Q.
Proof.
  intros Htab Hpos Hb Ha.
  set (msg := strip (lower message)) in *.
  assert (Hsc : scored msg patterns = [(i, hits msg pats)]).
  { rewrite Htab, scored_app, (scored_zero msg before Hb). simpl.
    rewrite (scored_zero msg after Ha).
    destruct (hits msg pats =? 0) eqn:Hz; [apply Nat.eqb_eq in Hz; lia|done]. }
  unfold classify. cbn [intent confidence]. fold msg.
  rewrite (score_table_spec msg patterns patterns_nodup), Hsc.
  split; [reflexivity|]. clearbody msg.
  unfold best_of, score_of, sum_values. cbn [map fst snd dict_get fold_right max_by].
  destruct (decide (i = i)); [|done]. cbn [default from_option id].
  rewrite Nat.add_0_r. unfold Qeq. cbn [Qnum Qden].
  rewrite Nat.max_r by lia.
  rewrite <- (positive_nat_Z (Pos.of_nat (hits msg pats))), Nat2Pos.id by lia. lia.
Qed.

Lemma classify_single_category_witness :
  intent (classify "hello there") = GREETING /\
  (confidence (classify "hello there") == 1)%Q.
Proof.
  apply (classify_single_category "hello there" [] GREETING
           (snd (nth 0 patterns (UNKNOWN, []))) (skipn 1 patterns)).
  - reflexivity.
  - vm_compute. lia.
  - apply Forall_nil_2.
  - unfold patterns. cbn [skipn].
    repeat first [apply Forall_nil_2 | apply Forall_cons_2]; vm_compute; reflexivity.
Defined.

(** ** Letter case and surrounding blanks *)

Lemma lower_char_idem c : lower_char (lower_char c) = lower_char c.
Proof. destruct c as [[] [] [] [] [] [] [] []]; vm_compute; reflexivity. Qed.

Lemma lower_char_space c : is_space (lower_char c) = is_space c.
Proof. destruct c as [[] [] [] [] [] [] [] []]; vm_compute; reflexivity. Qed.

Lemma lower_idem s : lower (lower s) = lower s.
Proof.
  unfold lower. rewrite chars_text_of, map_map.
  f_equal. apply map_ext. intros c. apply lower_char_idem.
Qed.

Lemma lstrip_map_lower l :
  lstrip_chars (map lower_char l) = map lower_char (lstrip_chars l).
Proof.
  induction l as [|c l IH]; simpl; [done|].
  rewrite lower_char_space. by destruct (is_space c).
Qed.

Lemma strip_lower s : strip (lower s) = lower (strip s).
Proof.
  unfold strip, lower, strip_chars. rewrite !chars_text_of.
  by rewrite lstrip_map_lower, <- map_rev, lstrip_map_lower, <- map_rev.
Qed.

(** What [lstrip] removes is a run of blanks, and what it leaves does
    not start with one. *)
Lemma lstrip_fixed l :
  match l with c :: _ => is_space c = false | [] => True end -> lstrip_chars l = l.
Proof. destruct l as [|c l]; simpl; [done|]. by intros ->. Qed.

Lemma strip_chars_idem l : strip_chars (strip_chars l) = strip_chars l.
Proof.
  unfold strip_chars.
  set (A := lstrip_chars l). set (B := lstrip_chars (rev A)).
  assert (HB : lstrip_chars (rev B) = rev B).
  { apply lstrip_fixed.
    destruct (rev B) as [|c t] eqn:HrB; [done|].
    destruct (lstrip_split (rev A)) as (pre & Hsplit & _). fold B in Hsplit.
    assert (HA : A = rev B ++ rev pre).
    { rewrite <- (rev_involutive A), Hsplit, rev_app_distr. done. }
    rewrite HrB in HA. simpl in HA.
    apply (lstrip_head l c (t ++ rev pre)). exact HA. }
  rewrite HB, rev_involutive.
  assert (HB' : lstrip_chars B = B).
  { apply lstrip_fixed. destruct B as [|c t] eqn:HBe; [done|].
    by apply (lstrip_head (rev A) c t). }
  by rewrite HB'.
Qed.

Lemma strip_idem s : strip (strip s) = strip s.
Proof. unfold strip. by rewrite chars_text_of, strip_chars_idem. Qed.

(** X4. The intent and the confidence depend on the message only
    through its lowered, trimmed text: lowering the message or trimming
    its blanks beforehand changes neither. *)
Theorem classify_ignores_case_and_blanks (message : string) :
  intent (classify (lower message)) = intent (classify message) /\
  confidence (classify (lower message)) = confidence (classify message) /\
  intent (classify (strip message)) = intent (classify message) /\
  confidence (classify (strip message)) = confidence (classify message).
Proof.
  assert (Hl : strip (lower (lower message)) = strip (lower message))
    by (by rewrite lower_idem).
  assert (Hs : strip (lower (strip message)) = strip (lower message))
    by (by rewrite <- strip_lower, strip_idem).
  rewrite !classify_confidence, !classify_intent, Hl, Hs.
  repeat apply conj; reflexivity.
Qed.

(* ================================================================== *)
(** * Further properties of the entity bag *)
(* ================================================================== *)

Lemma slice_empty text a : slice text a a = EmptyString.
Proof. unfold slice. by rewrite Nat.sub_diag. Qed.

Lemma year_pattern_shape :
  compile year_pattern =
  Some (Seq WordB
          (Seq (Group 1
                  (Alt (Seq (Chr "1") (Seq (Chr "9")
                          (Seq (Cls false [IDigit]) (Seq (Cls false [IDigit]) Eps))))
                       (Seq (Chr "2") (Seq (Chr "0")
                          (Seq (Cls false [IDigit]) (Seq (Cls false [IDigit]) Eps))))))
             WordB)).
Proof. vm_compute. reflexivity. Qed.

Lemma digit_class c : cls_match false false [IDigit] c = true -> is_digit c = true.
Proof. unfold cls_match. simpl. by rewrite orb_false_r. Qed.

Lemma chr_exact lit c : chr_match false lit c = true -> c = lit.
Proof. unfold chr_match. intros H. apply Ascii.eqb_eq in H. done. Qed.

Lemma py_int_four a b c d :
  py_int (String a (String b (String c (String d EmptyString)))) =
  (1000 * Z.of_nat (code a - 48) + 100 * Z.of_nat (code b - 48)
   + 10 * Z.of_nat (code c - 48) + Z.of_nat (code d - 48))%Z.
Proof. unfold py_int. cbn [chars list_ascii_of_string fold_left]. lia. Qed.

Lemma digit_value c : is_digit c = true -> (0 <= Z.of_nat (code c - 48) <= 9)%Z.
Proof.
  unfold is_digit, between. intros [H1 H2]%andb_true_iff.
  apply Nat.leb_le in H1, H2. lia.
Qed.

(** Four characters matched in a row from [s]: two literals and two
    digits. *)
Lemma run_century text x y s s' :
  In s' (run false text
           (Seq (Chr x) (Seq (Chr y)
              (Seq (Cls false [IDigit]) (Seq (Cls false [IDigit]) Eps)))) s) ->
  exists c d, pos s' = 4 + pos s /\ caps s' = caps s /\
              is_digit c = true /\ is_digit d = true /\
              slice text (pos s) (pos s') =
                String x (String y (String c (String d EmptyString))).
Proof.
  cbn [run]. intros Hin.
  apply in_flat_map in Hin as (s1 & H1 & Hin). apply in_step_if in H1 as (c1 & Hc1 & Hm1 & ->).
  apply in_flat_map in Hin as (s2 & H2 & Hin). apply in_step_if in H2 as (c2 & Hc2 & Hm2 & ->).
  apply in_flat_map in Hin as (s3 & H3 & Hin). apply in_step_if in H3 as (c3 & Hc3 & Hm3 & ->).
  apply in_flat_map in Hin as (s4 & H4 & Hin). apply in_step_if in H4 as (c4 & Hc4 & Hm4 & ->).
  destruct Hin as [<-|[]]. cbn [pos caps] in *.
  apply chr_exact in Hm1 as ->. apply chr_exact in Hm2 as ->.
  exists c3, c4. split; [lia|]. split; [done|].
  split; [by apply digit_class|]. split; [by apply digit_class|].
  rewrite (slice_cons text _ _ x Hc1) by lia.
  rewrite (slice_cons text _ _ y Hc2) by lia.
  rewrite (slice_cons text _ _ c3 Hc3) by lia.
  rewrite (slice_cons text _ _ c4 Hc4) by lia.
  by rewrite slice_empty.
Qed.

(** Every year token that [findall] collects reads as a number between
    1900 and 2099. *)
Lemma year_tokens_in_range message :
  Forall (fun y => (1900 <= py_int y <= 2099)%Z) (re_findall false year_pattern message).
Proof.
  unfold re_findall. rewrite year_pattern_shape.
  apply findall_from_all. intros p s Hin.
  cbn [run] in Hin.
  apply in_flat_map in Hin as (s1 & Hs1 & Hin).
  apply in_guard in Hs1 as [_ ->].
  apply in_flat_map in Hin as (s2 & Hs2 & Hin).
  apply in_guard in Hin as [_ ->].
  apply in_map_iff in Hs2 as (s3 & <- & Hs3).
  unfold group. cbn [m_caps caps pos assoc Nat.eqb].
  apply in_app_iff in Hs3 as [Hs3|Hs3];
    apply run_century in Hs3 as (c & d & _ & _ & Hc & Hd & Hsl);
    cbn [pos] in Hsl; rewrite Hsl, py_int_four;
    pose proof (digit_value c Hc); pose proof (digit_value d Hd);
    vm_compute (code "1"); vm_compute (code "9");
    vm_compute (code "2"); vm_compute (code "0"); lia.
Qed.

Lemma nodup_filter_keys {V} (f : string * V -> bool) (l : list (string * V)) :
  NoDup (map fst l) -> NoDup (map fst (List.filter f l)).
Proof.
  induction l as [|[k v] l IH]; simpl; intros Hnd; [constructor|].
  apply NoDup_cons in Hnd as [Hk Hnd].
  destruct (f (k, v)); simpl; [|by apply IH].
  apply NoDup_cons. split; [|by apply IH].
  intros Hin. apply Hk. apply list_elem_of_In. apply list_elem_of_In in Hin.
  apply in_map_iff in Hin as ([k' v'] & Heq & Hin). apply filter_In in Hin as [Hin _].
  apply in_map_iff. by exists (k', v').
Qed.

Lemma genre_patterns_nodup : NoDup (map fst genre_patterns).
Proof. apply (bool_decide_unpack _). vm_compute. reflexivity. Qed.

Lemma detected_genres_spec message :
  NoDup (detected_genres message) /\
  forall g, In g (detected_genres message) -> In g (map fst genre_patterns).
Proof.
  unfold detected_genres. split.
  - apply nodup_filter_keys, genre_patterns_nodup.
  - intros g Hin. apply in_map_iff in Hin as ([k v] & <- & Hin).
    apply filter_In in Hin as [Hin _]. apply in_map_iff. by exists (k, v).
Qed.

Lemma extract_rest_well_formed message ents :
  bag_well_formed ents -> bag_well_formed (extract_rest message ents).
Proof.
  intros (Ht & Hg & Hy & Hgs & Hn).
  unfold bag_well_formed.
  rewrite (extract_rest_other message ents "title") by discriminate.
  rewrite (extract_rest_other message ents "genre") by discriminate.
  rewrite extract_rest_year, extract_rest_genres, extract_rest_names.
  split; [exact Ht|]. split; [exact Hg|]. split; [|split].
  - pose proof (year_tokens_in_range message) as Hr.
    destruct (re_findall false year_pattern message) as [|y ys]; [exact Hy|].
    apply Forall_cons in Hr as [Hr _]. intros v [= <-]. by exists (py_int y).
  - destruct (detected_genres_spec message) as [Hnd Hsub].
    destruct (detected_genres message) as [|g gs]; [exact Hgs|].
    intros v [= <-]. by exists g, gs.
  - destruct (re_findall false name_pattern message) as [|n ns]; [exact Hn|].
    intros v [= <-]. by exists n, ns.
Qed.

Lemma bag_before_title_well_formed message : bag_well_formed (bag_before_title message).
Proof.
  unfold bag_well_formed.
  rewrite (bag_before_title_other message "year") by discriminate.
  rewrite (bag_before_title_other message "genres") by discriminate.
  rewrite (bag_before_title_other message "person_names") by discriminate.
  rewrite bag_before_title_genre.
  split; [|split; [|split; [discriminate|split; discriminate]]].
  - unfold bag_before_title. intros v.
    destruct (re_findall false quoted_pattern message) as [|q qs];
      destruct (re_search true genre_pattern message);
      rewrite ?lookup_insert_ne by discriminate;
      rewrite ?lookup_insert_eq, ?lookup_empty; intros [= <-]; by eexists.
  - intros v. destruct (re_search true genre_pattern message); intros [= <-]. by eexists.
Qed.

Lemma insert_title_well_formed t ents :
  bag_well_formed ents -> bag_well_formed (<["title" := VStr t]> ents).
Proof.
  intros (Ht & Hg & Hy & Hgs & Hn). unfold bag_well_formed.
  rewrite lookup_insert_eq, !lookup_insert_ne by discriminate.
  repeat apply conj; try assumption. intros v [= <-]. by exists t.
Qed.

Lemma extract_well_formed message i : bag_well_formed (_extract_entities message i).
Proof.
  rewrite (extract_unfold message i).
  pose proof (bag_before_title_well_formed message) as Hb.
  destruct (re_search true tell_about_pattern message);
    [by apply insert_title_well_formed|].
  destruct (short_with_capital message i); [by apply insert_title_well_formed|].
  destruct (capital_initial _ message); [by apply insert_title_well_formed|].
  apply extract_rest_well_formed.
  destruct (title_like _ message); [by apply insert_title_well_formed|done].
Qed.

(** X5. Whatever the message and the intent, the bag of
    [_extract_entities] holds text under title and genre, a year between
    1900 and 2099, a non-empty list of distinct canonical genres (keys
    of [genre_patterns]) under genres, and a non-empty list under
    person_names: no key is ever present with an empty list. *)
Theorem extracted_bag_well_formed (message : string) (i : Intent) :
  bag_well_formed (_extract_entities message i) /\
  bag_well_formed (entities (classify message)).
Proof.
  split; [apply extract_well_formed|].
  unfold classify. cbn [entities]. apply extract_well_formed.
Qed.

(** X6. Every genre the extractor can put in the genres list has a
    TMDb id in [genre_map], except musical, for which [_get_genre_id]
    returns [None] (the table has music, not musical). *)
Theorem detected_genre_id (message : string) (g : string) :
  In g (detected_genres message) ->
  (_get_genre_id g = None <-> g = "musical").
Proof.
  intros Hin. apply detected_genres_spec in Hin.
  vm_compute in Hin.
  repeat (destruct Hin as [<-|Hin];
          [vm_compute; split; intros H; first [reflexivity | discriminate H]|]).
  destruct Hin.
Qed.

Lemma detected_genre_id_witness :
  In "horror" (detected_genres "a scary movie") /\
  In "musical" (detected_genres "a movie with songs") /\
  _get_genre_id "horror" = Some 27%Z /\ _get_genre_id "musical" = None.
Proof.
  assert (H1 : In "horror" (detected_genres "a scary movie")) by (vm_compute; tauto).
  assert (H2 : In "musical" (detected_genres "a movie with songs")) by (vm_compute; tauto).
  split; [exact H1|]. split; [exact H2|].
  split; [reflexivity|].
  by apply (detected_genre_id "a movie with songs" "musical" H2).
Defined.

(* ================================================================== *)
(** * Further properties of the response generator *)
(* ================================================================== *)

Lemma all_raise_await {A} (P : exn -> Prop) c (f : answer c -> prog A) :
  (forall x, all_raise P (f x)) -> all_raise P (bind (await c) f).
Proof. intros H. simpl. exact H. Qed.

Lemma all_raise_choice {A B} (P : exn -> Prop) (l : list A) (f : A -> prog B) :
  l <> [] -> (forall a, all_raise P (f a)) -> all_raise P (bind (choice l) f).
Proof. destruct l as [|d l]; [done|]. intros _ H. simpl. intros x. apply H. Qed.

Lemma generic_recommendations_never_raises (P : exn -> Prop) :
  all_raise P generic_recommendations.
Proof.
  unfold generic_recommendations. apply all_raise_await.
  intros [|m ms]; exact I.
Qed.

Lemma random_trivia_never_raises (P : exn -> Prop) : all_raise P random_trivia.
Proof.
  unfold random_trivia. apply all_raise_await. intros [|m ms]; [exact I|].
  apply all_raise_choice; [done|]. intros movie.
  apply all_raise_await. intros [|fact facts]; exact I.
Qed.

Lemma random_debate_never_raises (P : exn -> Prop) : all_raise P random_debate.
Proof. unfold random_debate. apply all_raise_choice; [done|]. intros t. exact I. Qed.

(** On a well-formed bag no handler raises. *)
Lemma dispatch_never_raises (P : exn -> Prop) (r : IntentResult) :
  bag_well_formed (entities r) -> all_raise P (dispatch r).
Proof.
  intros (_ & _ & Hy & Hgs & Hn).
  unfold dispatch. destruct (intent r).
  - unfold _handle_greeting. apply all_raise_choice; [done|]. intros c. exact I.
  - apply handle_unknown_never_raises.
  - unfold _handle_recommendation. cbv zeta.
    destruct (entities r !! "genres") as [v|] eqn:Hv;
      [|apply generic_recommendations_never_raises].
    destruct (Hgs v eq_refl) as (g & gs & -> & _). cbn [first_item bind].
    destruct (entities r !! "year") as [y|] eqn:Hyr.
    + destruct (Hy y eq_refl) as (z & -> & _). cbn [bind].
      apply all_raise_await. intros [|m ms];
        [apply generic_recommendations_never_raises|exact I].
    + cbn [bind]. apply all_raise_await. intros [|m ms];
        [apply generic_recommendations_never_raises|exact I].
  - unfold _handle_search. cbv zeta.
    destruct (entities r !! "movie_title"); [|exact I].
    apply all_raise_await. intros [|m [|m' ms]]; [exact I| |exact I].
    apply all_raise_await. intros [d|]; exact I.
  - unfold _handle_trivia. cbv zeta.
    destruct (entities r !! "movie_title"); [|apply random_trivia_never_raises].
    apply all_raise_await. intros [|m ms]; [apply random_trivia_never_raises|].
    apply all_raise_await. intros [|f fs]; [apply random_trivia_never_raises|exact I].
  - unfold _handle_debate. cbv zeta.
    destruct (entities r !! "movie_title"); [|apply random_debate_never_raises].
    apply all_raise_await. intros [|m ms]; [apply random_debate_never_raises|exact I].
  - unfold _handle_actor_info. cbv zeta.
    destruct (entities r !! "person_names") as [v|] eqn:Hv; [|exact I].
    destruct (Hn v eq_refl) as (n & ns & ->). cbn [first_item bind].
    apply all_raise_await. intros [p|]; exact I.
  - unfold _handle_director_info. cbv zeta.
    destruct (entities r !! "person_names") as [v|] eqn:Hv; [|exact I].
    destruct (Hn v eq_refl) as (n & ns & ->). cbn [first_item bind].
    apply all_raise_await. intros [p|]; [|exact I].
    destruct (p_directed_movies p); exact I.
  - unfold _handle_genre_query. cbv zeta.
    destruct (entities r !! "genres") as [v|] eqn:Hv; [|exact I].
    destruct (Hgs v eq_refl) as (g & gs & -> & _). cbn [first_item bind].
    apply all_raise_await. intros [|m ms]; exact I.
  - apply handle_unknown_never_raises.
  - unfold _handle_rating_query. cbv zeta.
    destruct (entities r !! "movie_title"); [|exact I].
    apply all_raise_await. intros [|m ms]; [exact I|].
    apply all_raise_await. intros [d|]; exact I.
  - unfold _handle_plot_query. cbv zeta.
    destruct (entities r !! "movie_title"); [|exact I].
    apply all_raise_await. intros [|m ms]; exact I.
  - apply handle_unknown_never_raises.
Qed.

Lemma catch_safe_run {A} (p : prog A) (h : exn -> prog A) world :
  all_raise (fun _ => False) p -> run_with world (catch p h) = run_with world p.
Proof.
  induction p as [a|e|c k IH]; simpl; intros H.
  - reflexivity.
  - destruct H.
  - apply IH, H.
Qed.

(** X7. For a classified message no handler raises: the bag always has
    a first genre, an integer year and a first person name where a
    handler reads them. The [except] branch of [generate_response] is
    therefore never what answers a classified message: in every world
    its result is the result of the handler. *)
Theorem handlers_never_raise_on_classified (message : string) (world : forall c, answer c) :
  all_raise (fun _ => False) (dispatch (classify message)) /\
  run_with world (generate_response (classify message)) =
    run_with world (dispatch (classify message)) /\
  exists cr, run_with world (generate_response (classify message)) = inr cr.
Proof.
  assert (H : all_raise (fun _ => False) (dispatch (classify message))).
  { apply dispatch_never_raises. unfold classify. cbn [entities].
    apply extract_well_formed. }
  split; [exact H|]. split.
  - unfold generate_response. by apply catch_safe_run.
  - unfold generate_response. rewrite catch_safe_run by exact H.
    clear -H. induction (dispatch (classify message)) as [a|e|c k IH]; simpl in *.
    + by exists a.
    + destruct H.
    + apply IH, H.
Qed.

(** X8. [generate_response] never raises, whatever the intent result:
    an exception of a handler is answered with the unknown-intent
    reply. The handlers do raise on bags the extractor never builds: a
    genres entry holding an empty list makes the genre handler fail on
    its first-element read. *)
Theorem generate_response_catches_all (r : IntentResult) (conf : Q) (msg : string) :
  all_raise (fun _ => False) (generate_response r) /\
  dispatch (mkIntentResult GENRE_QUERY conf {[ "genres" := VList [] ]} msg)
    = Raise IndexError /\
  generate_response (mkIntentResult GENRE_QUERY conf {[ "genres" := VList [] ]} msg)
    = _handle_unknown.
Proof.
  split; [apply generate_response_never_raises|].
  split; reflexivity.
Qed.

Ltac in_list := cbn [In]; repeat first [left; reflexivity | right].
Ltac good := split; [reflexivity | cbn [response_type]; unfold handler_response_types; in_list].

Lemma all_ret_await {A} (P : A -> Prop) c (f : answer c -> prog A) :
  (forall x, all_ret P (f x)) -> all_ret P (bind (await c) f).
Proof. intros H. simpl. exact H. Qed.

Lemma all_ret_choice {A B} (P : B -> Prop) (l : list A) (f : A -> prog B) :
  (forall a, In a l -> all_ret P (f a)) -> all_ret P (bind (choice l) f).
Proof.
  destruct l as [|d l]; [intros _; exact I|]. intros H.
  unfold choice, await. cbn [bind all_ret]. intros x.
  apply H. apply nth_In. apply Nat.mod_upper_bound. cbn [length]. discriminate.
Qed.

Lemma all_ret_first_item {B} (P : B -> Prop) v (f : string -> prog B) :
  (forall g, all_ret P (f g)) -> all_ret P (bind (first_item v) f).
Proof. intros H. destruct v as [[|c s]|z|[|x l]]; simpl; auto. Qed.

Lemma handle_unknown_good : all_ret good_reply _handle_unknown.
Proof.
  unfold _handle_unknown. apply all_ret_choice. intros c Hc.
  cbn [all_ret]. split; [|unfold handler_response_types; cbn [response_type]; in_list].
  cbn [content]. unfold unknown_responses in Hc. cbn [In] in Hc.
  repeat (destruct Hc as [<-|Hc]; [reflexivity|]). destruct Hc.
Qed.

Lemma generic_recommendations_good : all_ret good_reply generic_recommendations.
Proof.
  unfold generic_recommendations. apply all_ret_await.
  intros [|m ms]; cbn [all_ret]; good.
Qed.

Lemma random_trivia_good : all_ret good_reply random_trivia.
Proof.
  unfold random_trivia. apply all_ret_await. intros [|m ms]; [cbn [all_ret]; good|].
  apply all_ret_choice. intros movie _.
  apply all_ret_await. intros [|fact facts]; cbn [all_ret]; good.
Qed.

Lemma random_debate_good : all_ret good_reply random_debate.
Proof.
  unfold random_debate. apply all_ret_choice. intros topic Ht.
  cbn [all_ret]. split; [|unfold handler_response_types; cbn [response_type]; in_list].
  cbn [content]. unfold debate_topics in Ht. cbn [In] in Ht.
  repeat (destruct Ht as [<-|Ht]; [reflexivity|]). destruct Ht.
Qed.

Lemma dispatch_good (r : IntentResult) : all_ret good_reply (dispatch r).
Proof.
  unfold dispatch. destruct (intent r); try apply handle_unknown_good.
  - unfold _handle_greeting. apply all_ret_choice. intros c Hc.
    cbn [all_ret]. split; [|unfold handler_response_types; cbn [response_type]; in_list].
    cbn [content]. unfold greeting_responses in Hc. cbn [In] in Hc.
    repeat (destruct Hc as [<-|Hc]; [reflexivity|]). destruct Hc.
  - unfold _handle_recommendation. cbv zeta.
    destruct (entities r !! "genres") as [v|]; [|apply generic_recommendations_good].
    apply all_ret_first_item. intros genre.
    apply all_ret_bind.
    assert (Hrest : forall yr, all_ret good_reply
              (let* movies := await (get_genre_recommendations genre yr 3) in
               match movies with
               | [] => generic_recommendations
               | _ :: _ =>
                   Ret (mkChatResponse
                          ("Here are some great " +:+ genre +:+ " movies I recommend:" +:+ nl +:+ nl +:+
                           movie_lines 100 1 movies +:+
                           "Would you like more " +:+ genre +:+
                           " recommendations or details about any of these movies?")
                          (Some (DataMovies movies (Some genre)))
                          (Some [ "Tell me more about " +:+ first_title movies;
                                  "More " +:+ genre +:+ " movies";
                                  "Different genre recommendations" ])
                          (Some "recommendations"))
               end)).
    { intros yr. apply all_ret_await.
      intros [|m ms]; [apply generic_recommendations_good|cbn [all_ret]; good]. }
    destruct (entities r !! "year") as [[s|y|l]|]; cbn [all_ret]; first [exact I | apply Hrest].
  - unfold _handle_search. cbv zeta.
    destruct (entities r !! "movie_title"); [|cbn [all_ret]; unfold search_no_title; good].
    apply all_ret_await. intros [|m [|m' ms]]; [cbn [all_ret]; good| |cbn [all_ret]; good].
    apply all_ret_await. intros [d|]; cbn [all_ret]; good.
  - unfold _handle_trivia. cbv zeta.
    destruct (entities r !! "movie_title"); [|apply random_trivia_good].
    apply all_ret_await. intros [|m ms]; [apply random_trivia_good|].
    apply all_ret_await. intros [|f fs]; [apply random_trivia_good|cbn [all_ret]; good].
  - unfold _handle_debate. cbv zeta.
    destruct (entities r !! "movie_title"); [|apply random_debate_good].
    apply all_ret_await. intros [|m ms]; [apply random_debate_good|cbn [all_ret]; good].
  - unfold _handle_actor_info. cbv zeta.
    destruct (entities r !! "person_names"); [|cbn [all_ret]; good].
    apply all_ret_first_item. intros name.
    apply all_ret_await. intros [p|]; cbn [all_ret]; good.
  - unfold _handle_director_info. cbv zeta.
    destruct (entities r !! "person_names"); [|cbn [all_ret]; good].
    apply all_ret_first_item. intros name.
    apply all_ret_await. intros [p|]; [|cbn [all_ret]; good].
    destruct (p_directed_movies p); cbn [all_ret]; good.
  - unfold _handle_genre_query. cbv zeta.
    destruct (entities r !! "genres"); [|cbn [all_ret]; good].
    apply all_ret_first_item. intros genre.
    apply all_ret_await. intros [|m ms]; cbn [all_ret]; good.
  - unfold _handle_rating_query. cbv zeta.
    destruct (entities r !! "movie_title"); [|cbn [all_ret]; unfold rating_no_title; good].
    apply all_ret_await. intros [|m ms]; [cbn [all_ret]; unfold rating_no_title; good|].
    apply all_ret_await. intros [d|]; cbn [all_ret]; [good|unfold rating_no_title; good].
  - unfold _handle_plot_query. cbv zeta.
    destruct (entities r !! "movie_title"); [|cbn [all_ret]; unfold plot_no_title; good].
    apply all_ret_await. intros [|m ms]; cbn [all_ret]; [unfold plot_no_title; good|good].
Qed.

Lemma generate_response_good (r : IntentResult) : all_ret good_reply (generate_response r).
Proof.
  unfold generate_response. apply all_ret_catch; [apply dispatch_good|].
  intros e. apply handle_unknown_good.
Qed.

(** X9. Whatever the intent result and whatever the catalog answers,
    the reply of [generate_response] has a text that is not empty and a
    response type that is absent or one of recommendations, trivia and
    debate. *)
Theorem generate_response_reply_shape (r : IntentResult) (cr : ChatResponse) :
  returns (generate_response r) cr ->
  content cr <> EmptyString /\
  In (response_type cr) [None; Some "recommendations"; Some "trivia"; Some "debate"].
Proof.
  intros Hret.
  destruct (returns_all_ret good_reply _ _ Hret (generate_response_good r)) as [Hc Ht].
  split; [|exact Ht]. intros Hempty. rewrite Hempty in Hc. discriminate Hc.
Qed.

Lemma generate_response_reply_shape_witness :
  exists cr,
    returns (generate_response (classify "recommend a scary movie")) cr /\
    content cr <> EmptyString /\ response_type cr = Some "recommendations".
Proof.
  destruct (run_with quiet_world (generate_response (classify "recommend a scary movie")))
    as [e|cr] eqn:Hrun; [vm_compute in Hrun; discriminate Hrun|].
  exists cr.
  assert (Hret : returns (generate_response (classify "recommend a scary movie")) cr)
    by (by apply (run_with_returns quiet_world)).
  split; [exact Hret|].
  split; [apply (generate_response_reply_shape _ cr Hret)|].
  vm_compute in Hrun. injection Hrun as <-. reflexivity.
Defined.

(** ** The number of outside calls *)

Lemma calls_le_mono {A} n m (p : prog A) : n <= m -> calls_le n p -> calls_le m p.
Proof.
  intros Hle H. revert m Hle. induction H as [n a|n e|n c k Hk IH]; intros m Hle.
  - constructor.
  - constructor.
  - destruct m as [|m]; [lia|]. constructor. intros x. apply IH. lia.
Qed.

Lemma calls_le_bind {A B} n m (p : prog A) (f : A -> prog B) :
  calls_le n p -> (forall a, calls_le m (f a)) -> calls_le (n + m) (bind p f).
Proof.
  intros H Hf. induction H as [n a|n e|n c k Hk IH]; simpl.
  - apply calls_le_mono with m; [lia|apply Hf].
  - constructor.
  - constructor. exact IH.
Qed.

Lemma calls_le_await {A} n c (f : answer c -> prog A) :
  (forall x, calls_le n (f x)) -> calls_le (S n) (bind (await c) f).
Proof. intros H. simpl. by constructor. Qed.

Lemma calls_le_choice {A B} n (l : list A) (f : A -> prog B) :
  (forall a, calls_le n (f a)) -> calls_le (S n) (bind (choice l) f).
Proof.
  intros H. destruct l as [|d l]; simpl; [constructor|].
  constructor. intros x. apply H.
Qed.

(** A [try] whose body does not raise costs what the body costs. *)
Lemma calls_le_catch_safe {A} n (p : prog A) (h : exn -> prog A) :
  all_raise (fun _ => False) p -> calls_le n p -> calls_le n (catch p h).
Proof.
  intros Hsafe H. induction H as [n a|n e|n c k Hk IH]; simpl in *.
  - constructor.
  - destruct Hsafe.
  - constructor. intros x. by apply IH.
Qed.

Lemma calls_le_catch_ret {A} n (p : prog A) (h : exn -> A) :
  calls_le n p -> calls_le n (catch p (fun e => Ret (h e))).
Proof. induction 1 as [n a|n e|n c k Hk IH]; simpl; constructor. exact IH. Qed.

Lemma calls_le_count {A} n (p : prog A) world : calls_le n p -> count_calls world p <= n.
Proof.
  induction 1 as [n a|n e|n c k Hk IH]; simpl; [lia|lia|].
  specialize (IH (world c)). lia.
Qed.

Ltac ret0 := first [apply calls_ret | apply calls_raise].

Lemma random_trivia_calls : calls_le 3 random_trivia.
Proof.
  unfold random_trivia. apply calls_le_await. intros [|m ms]; [ret0|].
  apply calls_le_choice. intros movie.
  apply calls_le_await. intros [|fact facts]; ret0.
Qed.

Lemma generic_recommendations_calls : calls_le 1 generic_recommendations.
Proof.
  unfold generic_recommendations. apply calls_le_await. intros [|m ms]; ret0.
Qed.

(** With a well-formed bag that holds no movie_title, the handlers make
    at most three calls. *)
Lemma dispatch_calls (r : IntentResult) :
  bag_well_formed (entities r) -> entities r !! "movie_title" = None ->
  calls_le 3 (dispatch r).
Proof.
  intros (_ & _ & Hy & Hgs & Hn) Hnone.
  assert (Hunk : calls_le 3 _handle_unknown).
  { unfold _handle_unknown. apply (calls_le_choice 2). intros c. ret0. }
  unfold dispatch. destruct (intent r); try exact Hunk.
  - unfold _handle_greeting. apply (calls_le_choice 2). intros c. ret0.
  - unfold _handle_recommendation. cbv zeta.
    destruct (entities r !! "genres") as [v|] eqn:Hv;
      [|apply calls_le_mono with 1; [lia|apply generic_recommendations_calls]].
    destruct (Hgs v eq_refl) as (g & gs & -> & _). cbn [first_item bind].
    assert (Hrest : forall (k : list Movie -> prog ChatResponse),
              (forall ms, k ms = generic_recommendations \/ exists cr, k ms = Ret cr) ->
              forall yr, calls_le 3 (let* movies := await (get_genre_recommendations g yr 3) in
                                     k movies)).
    { intros k Hk yr. apply (calls_le_await 2). intros ms.
      destruct (Hk ms) as [->|[cr ->]]; [|ret0].
      apply calls_le_mono with 1; [lia|apply generic_recommendations_calls]. }
    destruct (entities r !! "year") as [y|] eqn:Hyr.
    + destruct (Hy y eq_refl) as (z & -> & _). cbn [bind].
      apply Hrest. intros [|m ms]; [by left|right; by eexists].
    + cbn [bind]. apply Hrest. intros [|m ms]; [by left|right; by eexists].
  - unfold _handle_search. rewrite Hnone. ret0.
  - unfold _handle_trivia. rewrite Hnone. apply random_trivia_calls.
  - unfold _handle_debate. rewrite Hnone. unfold random_debate.
    apply (calls_le_choice 2). intros t. ret0.
  - unfold _handle_actor_info. cbv zeta.
    destruct (entities r !! "person_names") as [v|] eqn:Hv; [|ret0].
    destruct (Hn v eq_refl) as (n & ns & ->). cbn [first_item bind].
    apply (calls_le_await 2). intros [p|]; ret0.
  - unfold _handle_director_info. cbv zeta.
    destruct (entities r !! "person_names") as [v|] eqn:Hv; [|ret0].
    destruct (Hn v eq_refl) as (n & ns & ->). cbn [first_item bind].
    apply (calls_le_await 2). intros [p|]; [|ret0].
    destruct (p_directed_movies p); ret0.
  - unfold _handle_genre_query. cbv zeta.
    destruct (entities r !! "genres") as [v|] eqn:Hv; [|ret0].
    destruct (Hgs v eq_refl) as (g & gs & -> & _). cbn [first_item bind].
    apply (calls_le_await 2). intros [|m ms]; ret0.
  - unfold _handle_rating_query. rewrite Hnone. ret0.
  - unfold _handle_plot_query. rewrite Hnone. ret0.
Qed.

Lemma generate_response_calls message : calls_le 3 (generate_response (classify message)).
Proof.
  assert (Hwf : bag_well_formed (entities (classify message)))
    by (unfold classify; cbn [entities]; apply extract_well_formed).
  unfold generate_response. apply calls_le_catch_safe.
  - by apply dispatch_never_raises.
  - apply dispatch_calls; [exact Hwf|].
    unfold classify. cbn [entities]. apply extract_no_movie_title.
Qed.

(** X10. A chat turn makes at most four outside calls, whatever the
    catalog answers: at most one title search by the endpoint and at
    most three calls (catalog or [random.choice]) by the response
    generator. The bound is reached: [about trivia] costs four calls
    when the search finds nothing and the catalog has a popular movie. *)
Theorem chat_turn_calls_at_most_four
    (st : gmap string Conversation) (request : ChatRequest) (world : forall c, answer c) :
  calls_le 4 (chat_endpoint st request) /\
  count_calls world (chat_endpoint st request) <= 4 /\
  count_calls
    (fun c => match c with
              | get_genre_recommendations _ _ _ =>
                  [mkMovie 1 "Heat" "1995" "A heist." (NFloat 8) None []]
              | c' => quiet_world c'
              end)
    (chat_endpoint ∅ (mkChatRequest "about trivia" None)) = 4.
Proof.
  assert (H : calls_le 4 (chat_endpoint st request)).
  { unfold chat_endpoint. apply calls_le_catch_ret.
    unfold chat_try. cbv zeta.
    destruct (negb (truthy (strip (rq_message request)))); [ret0|].
    assert (Hnormal : forall st' id,
              calls_le 3 (normal_path st' id (strip (rq_message request))
                            (classify (strip (rq_message request))))).
    { intros st' id. unfold normal_path. cbv zeta.
      apply (calls_le_bind 3 0); [apply generate_response_calls|]. intros cr. ret0. }
    destruct (direct_title _ _) as [[|c title]|].
    - destruct (existsb _ _); [|apply calls_le_mono with 3; [lia|apply Hnormal]].
      destruct (value_truthy _); [apply calls_le_mono with 3; [lia|apply Hnormal]|ret0].
    - apply (calls_le_bind 1 3).
      + unfold direct_movie_info. apply calls_le_catch_ret.
        apply (calls_le_await 0). intros [|m ms]; ret0.
      + intros [reply|]; [ret0|apply Hnormal].
    - destruct (existsb _ _); [|apply calls_le_mono with 3; [lia|apply Hnormal]].
      destruct (value_truthy _); [apply calls_le_mono with 3; [lia|apply Hnormal]|ret0]. }
  split; [exact H|]. split; [by apply calls_le_count|].
  vm_compute. reflexivity.
Qed.

(* ================================================================== *)
(** * Further properties of the chat endpoint *)
(* ================================================================== *)

Lemma all_ret_mono {A} (P Q : A -> Prop) (p : prog A) :
  (forall a, P a -> Q a) -> all_ret P p -> all_ret Q p.
Proof. intros HPQ. induction p as [a|e|c k IH]; simpl; auto. Qed.

Lemma all_ret_catch_raise {A} (P : A -> Prop) (Q : exn -> Prop) (p : prog A)
    (h : exn -> prog A) :
  all_ret P p -> all_raise Q p -> (forall e, Q e -> all_ret P (h e)) ->
  all_ret P (catch p h).
Proof. induction p as [a|e|c k IH]; simpl; auto. Qed.

Lemma all_raise_false_run {A} (p : prog A) world :
  all_raise (fun _ => False) p -> exists a, run_with world p = inr a.
Proof.
  induction p as [a|e|c k IH]; simpl; intros H.
  - by exists a.
  - destruct H.
  - apply IH, H.
Qed.

Lemma normal_path_outcome st request c rest :
  strip (rq_message request) = String c rest ->
  all_ret (fun out => turn_outcome st request (fst out) (snd out))
    (normal_path (ensure (conversation_id_of request) st) (conversation_id_of request)
       (String c rest) (classify (String c rest))).
Proof.
  intros Hmsg. unfold normal_path. cbv zeta. apply all_ret_bind.
  apply (all_ret_mono good_reply); [|apply generate_response_good].
  intros cr Hgood. cbn [all_ret fst snd]. unfold turn_outcome. cbv zeta.
  rewrite Hmsg. right; right; right. split; [discriminate|].
  exists cr. split; [exact Hgood|]. split; reflexivity.
Qed.

Lemma clarification_outcome st request c rest :
  strip (rq_message request) = String c rest ->
  turn_outcome st request
    (clarification (conversation_id_of request)
       (context (default new_conversation
                   (ensure (conversation_id_of request) st !! conversation_id_of request))))
    (ensure (conversation_id_of request) st).
Proof.
  intros Hmsg. unfold turn_outcome. cbv zeta. rewrite Hmsg.
  right; right; left. split; [discriminate|]. split; reflexivity.
Qed.

Lemma movie_info_outcome st request c rest movie :
  strip (rq_message request) = String c rest ->
  turn_outcome st request (movie_info_reply (conversation_id_of request) movie)
    (ensure (conversation_id_of request) st).
Proof.
  intros Hmsg. unfold turn_outcome. cbv zeta. rewrite Hmsg.
  right; left. split; [discriminate|]. split; [by exists movie|reflexivity].
Qed.

(** The direct path goes on with a movie-info reply or with nothing. *)
Lemma direct_movie_info_cases {A} (P : A -> Prop) id title
    (k : option ChatResponseModel -> prog A) :
  all_ret P (k None) ->
  (forall movie, all_ret P (k (Some (movie_info_reply id movie)))) ->
  all_ret P (bind (direct_movie_info id title) k).
Proof.
  intros Hnone Hsome. unfold direct_movie_info, await. cbn [bind catch all_ret].
  intros [|movie movies]; cbn [bind catch]; [exact Hnone|apply Hsome].
Qed.

(** The ways the [try] block of a turn returns. *)
Lemma chat_try_outcomes st request :
  all_ret (fun out => turn_outcome st request (fst out) (snd out)) (chat_try st request).
Proof.
  unfold chat_try. cbv zeta.
  change (match st !! conversation_id_of request with
          | Some _ => st
          | None => <[conversation_id_of request := new_conversation]> st
          end) with (ensure (conversation_id_of request) st).
  destruct (strip (rq_message request)) as [|c rest] eqn:Hmsg; cbn [truthy negb].
  { exact I. }
  pose proof (normal_path_outcome st request c rest Hmsg) as Hnormal.
  pose proof (clarification_outcome st request c rest Hmsg) as Hclar.
  pose proof (movie_info_outcome st request c rest) as Hinfo.
  destruct (direct_title _ _) as [[|c' title]|].
  - destruct (existsb _ _); [|exact Hnormal].
    destruct (value_truthy _); [exact Hnormal|exact Hclar].
  - apply direct_movie_info_cases; [exact Hnormal|].
    intros movie. exact (Hinfo movie Hmsg).
  - destruct (existsb _ _); [|exact Hnormal].
    destruct (value_truthy _); [exact Hnormal|exact Hclar].
Qed.

(** The ways a turn ends. *)
Lemma chat_endpoint_outcomes st request reply st' :
  returns (chat_endpoint st request) (reply, st') -> turn_outcome st request reply st'.
Proof.
  intros Hret.
  apply (returns_all_ret (fun out => turn_outcome st request (fst out) (snd out))
           _ _ Hret).
  unfold chat_endpoint.
  apply (all_ret_catch_raise _ _ _ _ (chat_try_outcomes st request)
           (chat_try_raises_only_blank st request)).
  intros e [_ Hblank]. cbn [all_ret fst snd]. left. by repeat apply conj.
Qed.

Lemma ensure_lookup_ne id id' st : id' <> id -> ensure id st !! id' = st !! id'.
Proof.
  intros Hne. unfold ensure. destruct (st !! id); [reflexivity|].
  by apply lookup_insert_ne.
Qed.

Lemma ensure_lookup id st :
  ensure id st !! id = Some (default new_conversation (st !! id)).
Proof.
  unfold ensure. destruct (st !! id) as [conv|] eqn:Hc; cbn [default from_option].
  - exact Hc.
  - apply lookup_insert_eq.
Qed.

Lemma some_eq {A} (x y : A) : Some x = Some y -> x = y.
Proof. congruence. Qed.

Lemma intent_value_not_special i :
  intent_value i <> "movie_info" /\ intent_value i <> "clarification" /\
  intent_value i <> "error".
Proof. destruct i; repeat apply conj; discriminate. Qed.

Lemma intent_value_listed i : In (Some (intent_value i)) reply_intents.
Proof. destruct i; unfold reply_intents; cbn [map app intent_value]; in_list. Qed.

(** X11. The chat endpoint never raises: whatever the state, the request
    and the answers of the catalog, the caller gets a normal reply. *)
Theorem chat_endpoint_always_replies
    (st : gmap string Conversation) (request : ChatRequest) (world : forall c, answer c) :
  all_raise (fun _ => False) (chat_endpoint st request) /\
  exists reply st',
    run_with world (chat_endpoint st request) = inr (reply, st') /\
    served (run_with world (chat_endpoint st request)) = Http200 (reply, st').
Proof.
  assert (H : all_raise (fun _ => False) (chat_endpoint st request)).
  { unfold chat_endpoint. apply all_raise_catch. intros e. exact I. }
  split; [exact H|].
  destruct (all_raise_false_run _ world H) as [[reply st'] Hrun].
  exists reply, st'. rewrite Hrun. split; reflexivity.
Qed.

(** X12. Every reply of the chat endpoint carries the conversation id of
    the request (or default), a text that is not empty, an intent tag
    that is the value of an intent or one of movie_info, clarification
    and error, and a response type that is absent or one of
    recommendations, trivia, debate and movie_info. *)
Theorem chat_reply_shape
    (st st' : gmap string Conversation) (request : ChatRequest) (reply : ChatResponseModel) :
  returns (chat_endpoint st request) (reply, st') ->
  rs_conversation_id reply = conversation_id_of request /\
  rs_response reply <> EmptyString /\
  In (rs_intent reply) reply_intents /\
  In (rs_response_type reply) (Some "movie_info" :: handler_response_types).
Proof.
  intros Hret. apply chat_endpoint_outcomes in Hret.
  destruct Hret as [(_ & -> & _)|[(_ & [movie ->] & _)|[(_ & -> & _)|(_ & cr & Hgood & -> & _)]]].
  - repeat apply conj; [reflexivity|discriminate| |];
      unfold reply_intents, handler_response_types; cbn [apology rs_intent rs_response_type map app];
      in_list.
  - repeat apply conj; [reflexivity|discriminate| |];
      unfold reply_intents, handler_response_types;
      cbn [movie_info_reply rs_intent rs_response_type map app]; in_list.
  - unfold clarification.
    destruct (recent_titles _) as [|t ts]; [destruct (recent_genres _) as [|g gs]|];
      (repeat apply conj; [reflexivity|discriminate| |]);
      unfold reply_intents, handler_response_types; cbn [rs_intent rs_response_type map app];
      in_list.
  - destruct Hgood as [Hc Ht]. cbn [rs_conversation_id rs_response rs_intent rs_response_type].
    repeat apply conj.
    + reflexivity.
    + intros He. rewrite He in Hc. discriminate Hc.
    + apply intent_value_listed.
    + right. exact Ht.
Qed.

Lemma chat_reply_shape_witness :
  exists reply st',
    returns (chat_endpoint ∅ (mkChatRequest "hello" (Some "c7"))) (reply, st') /\
    rs_conversation_id reply = "c7" /\
    rs_response reply <> EmptyString.
Proof.
  destruct (run_with quiet_world (chat_endpoint ∅ (mkChatRequest "hello" (Some "c7"))))
    as [e|[reply st']] eqn:Hrun; [vm_compute in Hrun; discriminate Hrun|].
  exists reply, st'.
  assert (Hret : returns (chat_endpoint ∅ (mkChatRequest "hello" (Some "c7"))) (reply, st'))
    by (by apply (run_with_returns quiet_world)).
  split; [exact Hret|].
  destruct (chat_reply_shape ∅ st' _ reply Hret) as (Hid & Htext & _).
  split; [exact Hid|exact Htext].
Defined.

(** X13. A chat turn touches one conversation only: every other
    conversation is left as it was and none disappears; a blank message
    leaves the whole state as it was, and after any other message the
    conversation of the request exists. *)
Theorem chat_turn_touches_one_conversation
    (st st' : gmap string Conversation) (request : ChatRequest) (reply : ChatResponseModel) :
  returns (chat_endpoint st request) (reply, st') ->
  (forall id', id' <> conversation_id_of request -> st' !! id' = st !! id') /\
  (forall id', is_Some (st !! id') -> is_Some (st' !! id')) /\
  (strip (rq_message request) = EmptyString -> st' = st) /\
  (strip (rq_message request) <> EmptyString ->
   is_Some (st' !! conversation_id_of request)).
Proof.
  intros Hret. apply chat_endpoint_outcomes in Hret.
  set (id := conversation_id_of request) in *.
  assert (Hsome : forall id' (m : gmap string Conversation),
            (forall k, k <> id -> m !! k = st !! k) -> is_Some (m !! id) ->
            is_Some (st !! id') -> is_Some (m !! id')).
  { intros id' m Hother Hid Hs. destruct (decide (id' = id)) as [->|Hne]; [exact Hid|].
    by rewrite Hother. }
  assert (Hens : forall k, k <> id -> ensure id st !! k = st !! k)
    by (intros k Hk; by apply ensure_lookup_ne).
  assert (Hensid : is_Some (ensure id st !! id)) by (rewrite ensure_lookup; by eexists).
  destruct Hret as [(Hb & _ & ->)|[(Hnb & _ & ->)|[(Hnb & _ & ->)|(Hnb & cr & _ & _ & ->)]]].
  - repeat apply conj; [reflexivity|tauto|reflexivity|tauto].
  - repeat apply conj; [exact Hens|intros id'; by apply Hsome|tauto|intros _; exact Hensid].
  - repeat apply conj; [exact Hens|intros id'; by apply Hsome|tauto|intros _; exact Hensid].
  - assert (Hins : forall k, k <> id ->
               <[id := mkConversation
                   (last_n 10
                      (messages (default new_conversation (ensure id st !! id)) ++
                       [UserMessage (strip (rq_message request))
                          (intent_value (intent (classify (strip (rq_message request)))))
                          (entities (classify (strip (rq_message request))))]) ++
                    [BotMessage (logged (content cr))])
                   (track_entities (entities (classify (strip (rq_message request))))
                      (context (default new_conversation (ensure id st !! id))))]>
                 (ensure id st) !! k = st !! k).
    { intros k Hk. rewrite lookup_insert_ne by congruence. by apply Hens. }
    repeat apply conj.
    + exact Hins.
    + intros id'. apply Hsome; [exact Hins|]. rewrite lookup_insert_eq. by eexists.
    + tauto.
    + intros _. rewrite lookup_insert_eq. by eexists.
Qed.

Lemma chat_turn_touches_one_conversation_witness :
  exists reply st',
    returns (chat_endpoint {[ "c1" := new_conversation ]}
               (mkChatRequest "hello" (Some "c2"))) (reply, st') /\
    st' !! "c1" = Some new_conversation /\ is_Some (st' !! "c2").
Proof.
  destruct (run_with quiet_world
              (chat_endpoint {[ "c1" := new_conversation ]}
                 (mkChatRequest "hello" (Some "c2"))))
    as [e|[reply st']] eqn:Hrun; [vm_compute in Hrun; discriminate Hrun|].
  exists reply, st'.
  assert (Hret : returns (chat_endpoint {[ "c1" := new_conversation ]}
                            (mkChatRequest "hello" (Some "c2"))) (reply, st'))
    by (by apply (run_with_returns quiet_world)).
  split; [exact Hret|].
  destruct (chat_turn_touches_one_conversation _ st' _ reply Hret) as (Hother & _ & _ & Hid).
  split.
  - rewrite (Hother "c1") by discriminate. reflexivity.
  - apply Hid. vm_compute. discriminate.
Defined.

(** X14. A turn answered by the direct movie-info reply or by the
    clarification records nothing: neither the user message nor the
    reply enters the log and the rolling windows stay as they were; the
    state is the old one, with an empty conversation created for an id
    that was not there. *)
Theorem short_circuit_replies_record_nothing
    (st st' : gmap string Conversation) (request : ChatRequest) (reply : ChatResponseModel) :
  returns (chat_endpoint st request) (reply, st') ->
  rs_intent reply = Some "movie_info" \/ rs_intent reply = Some "clarification" ->
  st' = ensure (conversation_id_of request) st /\
  (forall conv, st !! conversation_id_of request = Some conv -> st' = st).
Proof.
  intros Hret Hint. apply chat_endpoint_outcomes in Hret.
  assert (Hsame : forall conv, st !! conversation_id_of request = Some conv ->
                               ensure (conversation_id_of request) st = st)
    by (intros conv Hc; unfold ensure; by rewrite Hc).
  destruct Hret as [(_ & -> & _)|[(_ & _ & ->)|[(_ & _ & ->)|(_ & cr & _ & -> & _)]]].
  - cbn [apology rs_intent] in Hint. destruct Hint; discriminate.
  - split; [reflexivity|exact Hsame].
  - split; [reflexivity|exact Hsame].
  - cbn [rs_intent] in Hint.
    destruct (intent_value_not_special
                (intent (classify (strip (rq_message request))))) as (H1 & H2 & _).
    exfalso. destruct Hint as [Hi|Hi]; [apply H1|apply H2]; exact (some_eq _ _ Hi).
Qed.

Lemma short_circuit_replies_record_nothing_witness :
  let conv := mkConversation [] (mkContext ["Inception"; "Titanic"] ["horror"]) in
  let st : gmap string Conversation := {[ "c1" := conv ]} in
  exists reply st',
    returns (chat_endpoint st (mkChatRequest "tell me more" (Some "c1"))) (reply, st') /\
    rs_intent reply = Some "clarification" /\ st' = st.
Proof.
  intros conv st.
  destruct (run_with quiet_world (chat_endpoint st (mkChatRequest "tell me more" (Some "c1"))))
    as [e|[reply st']] eqn:Hrun; [vm_compute in Hrun; discriminate Hrun|].
  exists reply, st'.
  assert (Hret : returns (chat_endpoint st (mkChatRequest "tell me more" (Some "c1")))
                   (reply, st'))
    by (by apply (run_with_returns quiet_world)).
  assert (Hint : rs_intent reply = Some "clarification").
  { assert (Hi : option_map (fun out => rs_intent (fst out))
                   (match run_with quiet_world
                            (chat_endpoint st (mkChatRequest "tell me more" (Some "c1"))) with
                    | inr out => Some out
                    | inl _ => None
                    end) = Some (Some "clarification")) by (vm_compute; reflexivity).
    rewrite Hrun in Hi. cbn [option_map fst] in Hi. by injection Hi. }
  split; [exact Hret|]. split; [exact Hint|].
  destruct (short_circuit_replies_record_nothing st st' _ reply Hret (or_intror Hint))
    as [_ Hsame].
  apply (Hsame conv). reflexivity.
Defined.

Lemma last_n_snoc {A} n (l : list A) x : last_n (S n) (l ++ [x]) = last_n n l ++ [x].
Proof.
  unfold last_n. rewrite length_app. cbn [length].
  replace (length l + 1 - S n) with (length l - n) by lia.
  rewrite skipn_app.
  replace (length l - n - length l) with 0 by lia. reflexivity.
Qed.

(** X15. A turn answered by the response generator keeps the last nine
    entries of the old log and appends the pair of the turn: the trimmed
    user message with its intent tag and entities, then the reply text
    cut to 100 code points; the windows are updated from the entities,
    and the reply carries the intent of the classifier. *)
Theorem normal_turn_appends_pair
    (st st' : gmap string Conversation) (request : ChatRequest) (reply : ChatResponseModel) :
  returns (chat_endpoint st request) (reply, st') ->
  rs_intent reply <> Some "movie_info" ->
  rs_intent reply <> Some "clarification" ->
  rs_intent reply <> Some "error" ->
  let id := conversation_id_of request in
  let umsg := strip (rq_message request) in
  let old := default new_conversation (st !! id) in
  rs_intent reply = Some (intent_value (intent (classify umsg))) /\
  exists conv',
    st' !! id = Some conv' /\
    messages conv' =
      last_n 9 (messages old) ++
      [UserMessage umsg (intent_value (intent (classify umsg))) (entities (classify umsg));
       BotMessage (logged (rs_response reply))] /\
    context conv' = track_entities (entities (classify umsg)) (context old).
Proof.
  intros Hret H1 H2 H3 id umsg old. apply chat_endpoint_outcomes in Hret.
  destruct Hret as [(_ & -> & _)|[(_ & [movie ->] & _)|[(_ & Hr & _)|(_ & cr & _ & -> & ->)]]].
  - by destruct H3.
  - by destruct H1.
  - destruct H2. rewrite Hr. unfold clarification.
    destruct (recent_titles _); [destruct (recent_genres _)|]; reflexivity.
  - split; [reflexivity|].
    fold id. fold umsg. rewrite lookup_insert_eq. eexists. split; [reflexivity|].
    cbn [messages context rs_response].
    rewrite ensure_lookup. cbn [default from_option]. fold old.
    rewrite last_n_snoc, <- app_assoc. split; reflexivity.
Qed.

Lemma normal_turn_appends_pair_witness :
  exists reply st' conv',
    returns (chat_endpoint ∅ (mkChatRequest " Hello " None)) (reply, st') /\
    rs_intent reply = Some "greeting" /\
    st' !! "default" = Some conv' /\
    messages conv' =
      [UserMessage "Hello" "greeting" (entities (classify "Hello"));
       BotMessage (logged (rs_response reply))].
Proof.
  destruct (run_with quiet_world (chat_endpoint ∅ (mkChatRequest " Hello " None)))
    as [e|[reply st']] eqn:Hrun; [vm_compute in Hrun; discriminate Hrun|].
  assert (Hret : returns (chat_endpoint ∅ (mkChatRequest " Hello " None)) (reply, st'))
    by (by apply (run_with_returns quiet_world)).
  assert (Hint : rs_intent reply = Some "greeting").
  { assert (Hi : option_map (fun out => rs_intent (fst out))
                   (match run_with quiet_world
                            (chat_endpoint ∅ (mkChatRequest " Hello " None)) with
                    | inr out => Some out
                    | inl _ => None
                    end) = Some (Some "greeting")) by (vm_compute; reflexivity).
    rewrite Hrun in Hi. cbn [option_map fst] in Hi. by injection Hi. }
  destruct (normal_turn_appends_pair ∅ st' _ reply Hret)
    as (_ & conv' & Hconv & Hlog & _); try (rewrite Hint; discriminate).
  exists reply, st', conv'.
  split; [exact Hret|]. split; [exact Hint|]. split; [exact Hconv|].
  rewrite Hlog.
  assert (Hs : strip " Hello " = "Hello") by (vm_compute; reflexivity).
  assert (Hv : intent_value (intent (classify "Hello")) = "greeting")
    by (vm_compute; reflexivity).
  cbn [rq_message]. rewrite Hs, Hv. reflexivity.
Defined.

(** ** The shape of the stored conversations *)

Lemma py_len_app a b : py_len (a +:+ b) = py_len a + py_len b.
Proof.
  induction a as [|c a IH]; [reflexivity|].
  simpl. rewrite IH. destruct (is_cont c); reflexivity.
Qed.

Lemma py_len_take n s : py_len (py_take n s) <= n.
Proof.
  revert n. induction s as [|c s IH]; intros n; cbn [py_take py_len]; [lia|].
  destruct (is_cont c) eqn:Hc.
  - cbn [py_len]. rewrite Hc. apply IH.
  - destruct n as [|n]; cbn [py_len]; [lia|]. rewrite Hc. specialize (IH n). lia.
Qed.

Lemma logged_len s : py_len (logged s) <= 103.
Proof.
  unfold logged. destruct (100 <? py_len s) eqn:Hlong.
  - rewrite py_len_app. pose proof (py_len_take 100 s).
    change (py_len "...") with 3. lia.
  - apply Nat.ltb_ge in Hlong. lia.
Qed.

Lemma alternating_tail a l : alternating (a :: l) -> alternating l.
Proof. destruct l as [|b l]; cbn [alternating]; tauto. Qed.

Lemma log_shaped_tail a l : log_shaped (a :: l) -> log_shaped l.
Proof.
  intros (Halt & Hlast & Hall). split; [by apply alternating_tail in Halt|]. split.
  - destruct l as [|b l]; [by left|right].
    destruct Hlast as [Hnil|[x Hx]]; [discriminate Hnil|].
    exists x. by rewrite last_cons_cons in Hx.
  - by inversion Hall.
Qed.

Lemma log_shaped_skipn k l : log_shaped l -> log_shaped (skipn k l).
Proof.
  revert l. induction k as [|k IH]; intros l Hl; [exact Hl|].
  destruct l as [|a l]; [exact Hl|]. cbn [skipn]. apply IH. by apply log_shaped_tail in Hl.
Qed.

Lemma alternating_pair l u b :
  is_bot u = false -> is_bot b = true ->
  alternating l -> (l = [] \/ exists x, last l = Some x /\ is_bot x = true) ->
  alternating (l ++ [u; b]).
Proof.
  intros Hu Hb. induction l as [|a l IH]; intros Halt Hlast.
  - cbn [app alternating]. rewrite Hu, Hb. split; [discriminate|exact I].
  - destruct l as [|c l].
    + destruct Hlast as [Hnil|[x [Hx Hbot]]]; [discriminate Hnil|].
      cbn [last] in Hx. injection Hx as ->.
      cbn [app alternating]. rewrite Hu, Hb, Hbot. repeat split; discriminate.
    + cbn [alternating] in Halt. destruct Halt as [Hne Halt].
      change ((a :: c :: l) ++ [u; b]) with (a :: c :: (l ++ [u; b])).
      cbn [alternating]. split; [exact Hne|].
      apply IH; [exact Halt|]. right.
      destruct Hlast as [Hnil|[x [Hx Hbot]]]; [discriminate Hnil|].
      exists x. by rewrite last_cons_cons in Hx.
Qed.

Lemma log_shaped_pair l u t e b :
  log_shaped l -> u <> EmptyString -> py_len b <= 103 ->
  log_shaped (l ++ [UserMessage u t e; BotMessage b]).
Proof.
  intros (Halt & Hlast & Hall) Hu Hb. split; [|split].
  - apply alternating_pair; [reflexivity|reflexivity|exact Halt|].
    destruct Hlast as [Hnil|[x Hx]]; [by left|right]. by exists (BotMessage x).
  - right. exists b.
    change [UserMessage u t e; BotMessage b] with ([UserMessage u t e] ++ [BotMessage b]).
    rewrite app_assoc. apply last_snoc.
  - apply Forall_app. split; [exact Hall|].
    apply Forall_cons_2; [exact Hu|]. apply Forall_cons_2; [exact Hb|]. apply Forall_nil_2.
Qed.

Lemma truthy_nonempty s : truthy s = true -> s <> EmptyString.
Proof. intros H ->. discriminate H. Qed.

Lemma window_shaped (l : list string) x :
  Forall (fun t => t <> EmptyString) l -> truthy x = true ->
  Forall (fun t => t <> EmptyString) (last_n 5 (l ++ [x])).
Proof.
  intros Hl Hx. unfold last_n. apply Forall_drop. apply Forall_app. split; [exact Hl|].
  apply Forall_cons_2; [by apply truthy_nonempty|apply Forall_nil_2].
Qed.

Lemma track_entities_shaped ents ctx :
  Forall (fun t => t <> EmptyString) (recent_titles ctx) ->
  Forall (fun g => g <> EmptyString) (recent_genres ctx) ->
  Forall (fun t => t <> EmptyString) (recent_titles (track_entities ents ctx)) /\
  Forall (fun g => g <> EmptyString) (recent_genres (track_entities ents ctx)).
Proof.
  intros Ht Hg. unfold track_entities. cbn [recent_titles recent_genres]. split.
  - destruct (ents !! "title") as [[t| |]|]; try exact Ht.
    destruct (truthy t) eqn:Htt; [by apply window_shaped|exact Ht].
  - destruct (ents !! "genre") as [[g| |]|]; try exact Hg.
    destruct (truthy g) eqn:Hgg; [by apply window_shaped|exact Hg].
Qed.

Lemma new_conversation_shaped : conv_shaped new_conversation.
Proof.
  repeat apply conj; cbn [new_conversation messages context recent_titles recent_genres].
  - exact I.
  - by left.
  - apply Forall_nil_2.
  - apply Forall_nil_2.
  - apply Forall_nil_2.
Qed.

Lemma ensure_shaped id st :
  (forall k conv, st !! k = Some conv -> conv_shaped conv) ->
  forall k conv, ensure id st !! k = Some conv -> conv_shaped conv.
Proof.
  intros Hst k conv. unfold ensure. destruct (st !! id) eqn:Hid; [apply Hst|].
  intros Hl. apply lookup_insert_Some in Hl as [[_ <-]|[_ Hl]].
  - apply new_conversation_shaped.
  - by apply (Hst k).
Qed.

Lemma chat_endpoint_shaped st request reply st' :
  (forall k conv, st !! k = Some conv -> conv_shaped conv) ->
  returns (chat_endpoint st request) (reply, st') ->
  forall k conv, st' !! k = Some conv -> conv_shaped conv.
Proof.
  intros Hst Hret. apply chat_endpoint_outcomes in Hret.
  pose proof (ensure_shaped (conversation_id_of request) st Hst) as Hens.
  destruct Hret as [(_ & _ & ->)|[(_ & _ & ->)|[(_ & _ & ->)|(Hnb & cr & _ & _ & ->)]]];
    try assumption.
  intros k conv Hl. apply lookup_insert_Some in Hl as [[_ <-]|[_ Hl]]; [|by apply (Hens k)].
  assert (Hold : conv_shaped
            (default new_conversation
               (ensure (conversation_id_of request) st !! conversation_id_of request))).
  { rewrite ensure_lookup. cbn [default from_option].
    destruct (st !! conversation_id_of request) as [old|] eqn:Hold; cbn [default from_option].
    - by apply (Hst (conversation_id_of request)).
    - apply new_conversation_shaped. }
  destruct Hold as (Hlog & Ht & Hg).
  destruct (track_entities_shaped (entities (classify (strip (rq_message request))))
              _ Ht Hg) as [Ht' Hg'].
  split; [|split; [exact Ht'|exact Hg']].
  cbn [messages]. rewrite last_n_snoc, <- app_assoc.
  apply log_shaped_pair; [|exact Hnb|apply logged_len].
  unfold last_n. by apply log_shaped_skipn.
Qed.

(** X16. A chat turn that runs from its start to its end with no other
    request served in between keeps the stored conversations shaped:
    if, before the turn, every log alternates between user and bot
    entries and is empty or ends with a bot reply, with user texts that
    are not empty, bot texts of at most 103 code points (100 and the
    dots) and windows without empty text, then the same holds after the
    turn, and still holds after a [clear_conversation]. The statement
    is about one call: the endpoint suspends between logging the user
    message and logging the reply, so a store read or written by
    another request during that wait is outside it. *)
Theorem chat_turn_keeps_conversations_shaped
    (st st' : gmap string Conversation) (request : ChatRequest) (reply : ChatResponseModel) :
  store_shaped st ->
  returns (chat_endpoint st request) (reply, st') ->
  store_shaped st' /\
  forall id, store_shaped (snd (clear_conversation st' id)).
Proof.
  intros Hst Hret.
  assert (Hst' : store_shaped st').
  { intros k conv. by apply (chat_endpoint_shaped st request reply st' Hst Hret). }
  split; [exact Hst'|].
  intros id k conv. unfold clear_conversation.
  destruct (st' !! id); cbn [snd]; [|apply Hst'].
  intros Hl. apply lookup_delete_Some in Hl as [_ Hl]. by apply (Hst' k).
Qed.

Lemma chat_turn_keeps_conversations_shaped_witness :
  let st := chat_turns quiet_world ∅ [mkChatRequest "hello" None] in
  exists reply st' conv,
    returns (chat_endpoint st (mkChatRequest "recommend a comedy" None)) (reply, st') /\
    st' !! "default" = Some conv /\ length (messages conv) = 4 /\ conv_shaped conv.
Proof.
  intros st.
  assert (Hst : store_shaped st).
  { intros k conv Hl. apply (chat_endpoint_shaped ∅ (mkChatRequest "hello" None)
      (match run_with quiet_world (chat_endpoint ∅ (mkChatRequest "hello" None)) with
       | inr out => fst out
       | inl _ => apology (mkChatRequest "hello" None)
       end) st) with k; [| |exact Hl].
    - intros k' conv' Hl'. by rewrite lookup_empty in Hl'.
    - apply (run_with_returns quiet_world). vm_compute. reflexivity. }
  destruct (run_with quiet_world
              (chat_endpoint st (mkChatRequest "recommend a comedy" None)))
    as [e|[reply st']] eqn:Hrun; [vm_compute in Hrun; discriminate Hrun|].
  assert (Hret : returns (chat_endpoint st (mkChatRequest "recommend a comedy" None))
                   (reply, st'))
    by (by apply (run_with_returns quiet_world)).
  destruct (chat_turn_keeps_conversations_shaped st st' _ reply Hst Hret) as [Hst' _].
  assert (Hlen : option_map (fun conv => length (messages conv))
                   (match run_with quiet_world
                            (chat_endpoint st (mkChatRequest "recommend a comedy" None)) with
                    | inr out => snd out !! "default"
                    | inl _ => None
                    end) = Some 4) by (vm_compute; reflexivity).
  rewrite Hrun in Hlen. cbn [snd] in Hlen.
  destruct (st' !! "default") as [conv|] eqn:Hconv; [|discriminate Hlen].
  exists reply, st', conv. split; [exact Hret|]. split; [exact Hconv|].
  split; [by injection Hlen|]. by apply (Hst' "default").
Defined.

(** ** The rolling windows *)

(** X17. The window of recent titles is a queue of at most five: a
    non-empty extracted title is appended (also when it is already in
    the window) and, when the window was full, its oldest entry is
    dropped; a bag without a title leaves the window as it was. *)
Theorem recent_titles_queue (ents : gmap string value) (ctx : Context) :
  length (recent_titles ctx) <= 5 ->
  recent_titles (track_entities ents ctx) =
    match ents !! "title" with
    | Some (VStr (String c t)) =>
        (if length (recent_titles ctx) =? 5
         then tl (recent_titles ctx) else recent_titles ctx) ++ [String c t]
    | _ => recent_titles ctx
    end.
Proof.
  intros Hlen. unfold track_entities. cbn [recent_titles].
  destruct (ents !! "title") as [[[|c t]| |]|]; try reflexivity.
  cbn [truthy]. change 5 with (S 4) at 1. rewrite last_n_snoc. f_equal.
  unfold last_n. destruct (length (recent_titles ctx) =? 5) eqn:Hfull.
  - apply Nat.eqb_eq in Hfull. rewrite Hfull.
    destruct (recent_titles ctx); reflexivity.
  - apply Nat.eqb_neq in Hfull.
    replace (length (recent_titles ctx) - 4) with 0 by lia. reflexivity.
Qed.

Lemma recent_titles_queue_witness :
  recent_titles
    (track_entities {[ "title" := VStr "Heat" ]}
       (mkContext ["Alien"; "Heat"; "Jaws"; "Big"; "Up"] [])) =
  ["Heat"; "Jaws"; "Big"; "Up"; "Heat"].
Proof.
  rewrite (recent_titles_queue {[ "title" := VStr "Heat" ]}
             (mkContext ["Alien"; "Heat"; "Jaws"; "Big"; "Up"] []));
    [reflexivity|cbn [recent_titles length]; lia].
Defined.

(** ** The statistics and the conversation endpoints *)

Lemma list_sum_bound {A} (f : A -> nat) n (l : list A) :
  Forall (fun x => f x <= n) l -> list_sum (map f l) <= n * length l.
Proof.
  induction 1 as [|x l Hx Hl IH]; simpl; [lia|].
  rewrite Nat.mul_succ_r. simpl in IH. lia.
Qed.

Lemma ensure_size id (st : gmap string Conversation) :
  size st <= size (ensure id st) <= S (size st).
Proof.
  unfold ensure. destruct (st !! id) eqn:Hid; [lia|].
  rewrite map_size_insert_None by exact Hid. lia.
Qed.

(** The message total of [get_stats] under a bound on every log. *)
Lemma stats_bound n (st : gmap string Conversation) :
  (forall id conv, st !! id = Some conv -> length (messages conv) <= n) ->
  total_messages (get_stats st) <= n * active_conversations (get_stats st).
Proof.
  intros Hst. unfold get_stats. cbn [total_messages active_conversations].
  rewrite <- length_map_to_list.
  rewrite <- (length_map snd (map_to_list st)).
  apply list_sum_bound. apply List.Forall_forall. intros conv Hin.
  apply in_map_iff in Hin as ([k conv'] & <- & Hin).
  apply list_elem_of_In, elem_of_map_to_list in Hin.
  by apply (Hst k).
Qed.

(** X18. For a store whose logs hold at most 11 entries (and whose
    windows hold at most 5), a chat turn that runs from its start to its
    end with no other request served in between leaves a store on which
    the message total of [get_stats] is at most eleven times its number
    of active conversations; the turn adds at most one active
    conversation and removes none. The statement is about one call, as
    for the shape of the logs. *)
Theorem chat_turn_keeps_stats_bounded
    (st st' : gmap string Conversation) (request : ChatRequest) (reply : ChatResponseModel) :
  store_bounded 11 st ->
  returns (chat_endpoint st request) (reply, st') ->
  total_messages (get_stats st') <= 11 * active_conversations (get_stats st') /\
  active_conversations (get_stats st) <= active_conversations (get_stats st') /\
  active_conversations (get_stats st') <= S (active_conversations (get_stats st)).
Proof.
  intros Hst Hret. split.
  - apply stats_bound. intros id conv Hl.
    pose proof (returns_all_ret _ _ _ Hret (chat_endpoint_bounded st request Hst)) as Hb.
    cbn [snd] in Hb. by destruct (Hb id conv Hl) as (_ & _ & Hlog).
  - apply chat_endpoint_outcomes in Hret.
    unfold get_stats. cbn [active_conversations].
    pose proof (ensure_size (conversation_id_of request) st) as Hens.
    assert (Hsome : is_Some (ensure (conversation_id_of request) st
                              !! conversation_id_of request))
      by (rewrite ensure_lookup; by eexists).
    destruct Hret as [(_ & _ & ->)|[(_ & _ & ->)|[(_ & _ & ->)|(_ & cr & _ & _ & ->)]]].
    + lia.
    + lia.
    + lia.
    + rewrite map_size_insert_Some by exact Hsome. lia.
Qed.

Lemma chat_turn_keeps_stats_bounded_witness :
  let st := chat_turns quiet_world ∅ (repeat (mkChatRequest "hi" None) 6) in
  get_stats st = mkStats 1 11 /\
  exists reply st',
    returns (chat_endpoint st (mkChatRequest "hi" None)) (reply, st') /\
    total_messages (get_stats st') <= 11 * active_conversations (get_stats st').
Proof.
  intros st. split; [vm_compute; reflexivity|].
  assert (Hst : store_bounded 11 st)
    by (apply reachable_bounded, chat_turns_reachable; constructor).
  destruct (run_with quiet_world (chat_endpoint st (mkChatRequest "hi" None)))
    as [e|[reply st']] eqn:Hrun; [vm_compute in Hrun; discriminate Hrun|].
  assert (Hret : returns (chat_endpoint st (mkChatRequest "hi" None)) (reply, st'))
    by (by apply (run_with_returns quiet_world)).
  exists reply, st'. split; [exact Hret|].
  by destruct (chat_turn_keeps_stats_bounded st st' _ reply Hst Hret) as [H _].
Defined.

(** X19. Clearing a conversation removes it and nothing else: a read of
    that id then answers 404, a second clear answers 404, every other
    id reads as before; and clearing answers 404 exactly for an id that
    is not stored, leaving the state as it was. *)
Theorem clear_then_get (st : gmap string Conversation) (id : string) :
  let not_found := HTTPException 404 "Conversation not found" in
  let st' := snd (clear_conversation st id) in
  get_conversation st' id = inl not_found /\
  fst (clear_conversation st' id) = inl not_found /\
  (forall id', id' <> id -> get_conversation st' id' = get_conversation st id') /\
  (fst (clear_conversation st id) = inl not_found <-> st !! id = None) /\
  (st !! id = None -> st' = st).
Proof.
  intros not_found st'. unfold st', clear_conversation, get_conversation.
  destruct (st !! id) as [conv|] eqn:Hid; cbn [fst snd].
  - rewrite lookup_delete_eq. cbn [fst].
    split; [reflexivity|]. split; [reflexivity|]. split; [|split].
    + intros id' Hne. by rewrite lookup_delete_ne.
    + split; intros H; discriminate H.
    + intros H; discriminate H.
  - rewrite Hid. cbn [fst].
    split; [reflexivity|]. split; [reflexivity|]. split; [reflexivity|].
    split; [|reflexivity]. split; reflexivity.
Qed.

(** ** The endpoints that look up the catalog *)

(** X20. The sibling endpoints let their own client errors through
    unchanged: [get_movie_details] answers 404 Movie not found and
    [search_person] 404 Person not found exactly when the catalog finds
    nothing, and the found record otherwise; [get_trivia] can only raise
    400 Movie ID or title required, and a reply of it never carries the
    id 0. *)
Theorem sibling_endpoints_pass_client_errors
    (world : forall c, answer c) (movie_id : Z) (name : string) (request : TriviaRequest) :
  served (run_with world (movie_details_endpoint movie_id)) =
    match world (get_movie_details movie_id) with
    | Some d => Http200 d
    | None => HttpError 404 "Movie not found"
    end /\
  served (run_with world (person_endpoint name)) =
    match world (search_person name) with
    | Some p => Http200 p
    | None => HttpError 404 "Person not found"
    end /\
  all_raise (fun e => e = HTTPException 400 "Movie ID or title required")
    (get_trivia request) /\
  all_ret (fun reply => tr_id reply <> 0%Z) (get_trivia request).
Proof.
  assert (Hnz : forall o, negb (id_truthy o) = false -> default 0%Z o <> 0%Z).
  { intros [z|]; cbn [id_truthy negb default from_option]; [|discriminate].
    destruct (Z.eqb_spec z 0); [discriminate|]. intros _. exact n. }
  split; [|split; [|split]].
  - unfold movie_details_endpoint, await. cbn [bind catch run_with].
    destruct (world (get_movie_details movie_id)); reflexivity.
  - unfold person_endpoint, await. cbn [bind catch run_with].
    destruct (world (search_person name)); reflexivity.
  - unfold get_trivia.
    destruct (negb (id_truthy (tq_movie_id request)) && some_truthy (tq_movie_title request)).
    + unfold await. cbn [bind catch all_raise]. intros [|movie movies]; cbn [bind catch].
      * destruct (negb (id_truthy (tq_movie_id request)));
          cbn [bind catch all_raise reraise_http]; [reflexivity|]. intros t d. exact I.
      * destruct (negb (id_truthy (Some (mv_id movie))));
          cbn [bind catch all_raise reraise_http]; [reflexivity|]. intros t d. exact I.
    + cbn [bind]. destruct (negb (id_truthy (tq_movie_id request)));
        unfold await; cbn [bind catch all_raise reraise_http]; [reflexivity|].
      intros t d. exact I.
  - unfold get_trivia.
    destruct (negb (id_truthy (tq_movie_id request)) && some_truthy (tq_movie_title request)).
    + unfold await. cbn [bind catch all_ret]. intros [|movie movies]; cbn [bind catch].
      * destruct (negb (id_truthy (tq_movie_id request))) eqn:Hid;
          cbn [bind catch all_ret reraise_http]; [exact I|]. intros t d.
        cbn [tr_id]. by apply Hnz.
      * destruct (negb (id_truthy (Some (mv_id movie)))) eqn:Hid;
          cbn [bind catch all_ret reraise_http]; [exact I|]. intros t d.
        cbn [tr_id]. by apply (Hnz (Some (mv_id movie))).
    + cbn [bind]. destruct (negb (id_truthy (tq_movie_id request))) eqn:Hid;
        unfold await; cbn [bind catch all_ret reraise_http]; [exact I|].
      intros t d. cbn [tr_id]. by apply Hnz.
Qed.

(** X21. With a non-zero movie id in the request, [get_trivia] ignores
    the title: it never searches the catalog for it, never raises, and
    answers with that id, after exactly the two calls for the trivia
    and for the details of that id. *)
Theorem get_trivia_with_id (request : TriviaRequest) (movie_id : Z) :
  tq_movie_id request = Some movie_id -> movie_id <> 0%Z ->
  no_search (get_trivia request) /\
  all_raise (fun _ => False) (get_trivia request) /\
  all_ret (fun reply => tr_id reply = movie_id) (get_trivia request) /\
  exists k,
    get_trivia request =
      Call (get_movie_trivia movie_id)
        (fun trivia => Call (get_movie_details movie_id) (k trivia)) /\
    forall trivia details, exists reply, k trivia details = Ret reply.
Proof.
  intros Hid Hnz.
  assert (Htruthy : id_truthy (Some movie_id) = true).
  { cbn [id_truthy]. by destruct (Z.eqb_spec movie_id 0). }
  assert (Hrun : get_trivia request =
            Call (get_movie_trivia movie_id)
              (fun trivia => Call (get_movie_details movie_id)
                 (fun details =>
                    Ret (mkTriviaReply trivia movie_id
                           (match details with Some d => d_title d | None => "Unknown" end)
                           (match details with Some d => d_year d | None => "Unknown" end))))).
  { unfold get_trivia. rewrite Hid, Htruthy. cbn [negb andb bind]. rewrite Htruthy.
    reflexivity. }
  rewrite Hrun. repeat apply conj.
  - constructor; [discriminate|]. intros t. constructor; [discriminate|]. intros d. constructor.
  - intros t d. exact I.
  - intros t d. reflexivity.
  - eexists. split; [reflexivity|]. intros t d. by eexists.
Qed.

Lemma get_trivia_with_id_witness :
  all_ret (fun reply => tr_id reply = 603%Z)
    (get_trivia (mkTriviaRequest (Some 603%Z) (Some "Heat"))).
Proof.
  destruct (get_trivia_with_id (mkTriviaRequest (Some 603%Z) (Some "Heat")) 603%Z)
    as (_ & _ & H & _); [reflexivity|discriminate|exact H].
Defined.

(** ** The lead phrase in the endpoint *)

Lemma tell_about_needs_text : re_search true tell_about_pattern EmptyString = None.
Proof. vm_compute. reflexivity. Qed.

(** X22. A message with a lead phrase whose capture is not blank is
    answered through the catalog: the first thing the endpoint does is
    search, with limit 1, for exactly the title the classifier
    extracted, and when the catalog finds a movie the reply is the
    movie-info reply for it, whatever the intent, with nothing
    recorded. *)
Theorem lead_phrase_searches_extracted_title
    (st : gmap string Conversation) (request : ChatRequest) (m : rmatch) :
  let umsg := strip (rq_message request) in
  let title := strip (m_group umsg m 1) in
  let id := conversation_id_of request in
  re_search true tell_about_pattern umsg = Some m ->
  title <> EmptyString ->
  entities (classify umsg) !! "title" = Some (VStr title) /\
  exists k,
    chat_endpoint st request = Call (search_movies (VStr title) None 1) k /\
    forall movie rest, k (movie :: rest) = Ret (movie_info_reply id movie, ensure id st).
Proof.
  intros umsg title id Hm Htitle. split.
  - unfold classify. cbn [entities]. rewrite extract_unfold. fold umsg. rewrite Hm.
    apply lookup_insert_eq.
  - unfold chat_endpoint, chat_try. cbv zeta. fold umsg. fold id.
    destruct umsg as [|c rest] eqn:Humsg.
    { rewrite tell_about_needs_text in Hm. discriminate Hm. }
    cbn [truthy negb]. unfold direct_title. rewrite Hm. fold title.
    destruct title as [|c' t] eqn:Ht; [by destruct Htitle|].
    unfold direct_movie_info, await. cbn [bind catch].
    eexists. split; [reflexivity|]. intros movie movies. reflexivity.
Qed.

Lemma lead_phrase_searches_extracted_title_witness :
  entities (classify "tell me about Inception") !! "title" = Some (VStr "Inception") /\
  exists k,
    chat_endpoint ∅ (mkChatRequest "tell me about Inception" None) =
      Call (search_movies (VStr "Inception") None 1) k.
Proof.
  destruct (re_search true tell_about_pattern "tell me about Inception") as [m|] eqn:Hm;
    [|vm_compute in Hm; discriminate Hm].
  assert (Hs : strip "tell me about Inception" = "tell me about Inception")
    by (vm_compute; reflexivity).
  assert (Hg : strip (m_group "tell me about Inception" m 1) = "Inception").
  { vm_compute in Hm. injection Hm as <-. vm_compute. reflexivity. }
  destruct (lead_phrase_searches_extracted_title ∅
              (mkChatRequest "tell me about Inception" None) m) as [Hent [k [Hk _]]].
  - cbn [rq_message]. rewrite Hs. exact Hm.
  - cbn [rq_message]. rewrite Hs, Hg. discriminate.
  - cbn [rq_message] in Hent, Hk. rewrite Hs, Hg in Hent. rewrite Hs, Hg in Hk.
    split; [exact Hent|]. by exists k.
Defined.
